(** * SEO audit automation: a shallow embedding of [seo_audit.py]

    The class [SEOAuditAutomation] drives a browser through Selenium.  The
    browser, the file system, the clock and pandas are outside of the
    program: they are modelled by an environment that answers every call the
    program makes, either with a value or with a Python exception.  The
    program itself is written in a state-and-exception monad over the fields
    of [self], the state of that environment and the history of the calls
    made so far. *)

From Stdlib Require Import String Ascii List Bool Arith ZArith Lia Permutation.
From Stdlib Require Import DecimalString.
Import ListNotations.
Open Scope string_scope.

(** ** Python exceptions *)

(** The exception classes the program distinguishes.  [TimeoutException] and
    [NoSuchElementException] are the two classes the locator loops catch;
    [WebDriverException] stands for every other Selenium error;
    [PyException] for every other subclass of [Exception];
    [KeyboardInterrupt] derives from [BaseException] only. *)
Inductive exn : Type :=
| TimeoutException (msg : string)
| NoSuchElementException (msg : string)
| WebDriverException (msg : string)
| ValueError (msg : string)
| PyException (msg : string)
| KeyboardInterrupt.

(** [isinstance(e, Exception)] *)
Definition is_Exception (e : exn) : bool :=
  match e with
  | KeyboardInterrupt => false
  | _ => true
  end.

(** [isinstance(e, (TimeoutException, NoSuchElementException))] *)
Definition is_Timeout_or_NoSuchElement (e : exn) : bool :=
  match e with
  | TimeoutException _ | NoSuchElementException _ => true
  | _ => false
  end.

(** [isinstance(e, WebDriverException)]: both locator exceptions are
    subclasses of it. *)
Definition is_WebDriverException (e : exn) : bool :=
  match e with
  | TimeoutException _ | NoSuchElementException _ | WebDriverException _ => true
  | _ => false
  end.

(** [str(e)] *)
Definition str_exn (e : exn) : string :=
  match e with
  | TimeoutException m | NoSuchElementException m | WebDriverException m
  | ValueError m | PyException m => m
  | KeyboardInterrupt => ""
  end.

Inductive result (A : Type) : Type :=
| Ok (a : A)
| Raise (e : exn).
Arguments Ok {A} a.
Arguments Raise {A} e.

(** ** Data *)

(** The two values of [result["status"]]. *)
Inductive Status : Type := status_success | status_failed.

Definition Status_eqb (a b : Status) : bool :=
  match a, b with
  | status_success, status_success | status_failed, status_failed => true
  | _, _ => false
  end.

(** The dictionary [result] built by [process_url]; [None] is Python's
    [None]. *)
Record Result : Type := mkResult {
  r_url : string;
  r_status : Status;
  r_screenshot_path : option string;
  r_error : option string;
  r_timestamp : string
}.

(** Lines 139-145: the dictionary as [process_url] creates it. *)
Definition new_result (url timestamp : string) : Result :=
  {| r_url := url; r_status := status_failed; r_screenshot_path := None;
     r_error := None; r_timestamp := timestamp |}.

Definition set_error (r : Result) (msg : string) : Result :=
  {| r_url := r_url r; r_status := r_status r;
     r_screenshot_path := r_screenshot_path r;
     r_error := Some msg; r_timestamp := r_timestamp r |}.

Definition set_status (r : Result) (s : Status) : Result :=
  {| r_url := r_url r; r_status := s;
     r_screenshot_path := r_screenshot_path r;
     r_error := r_error r; r_timestamp := r_timestamp r |}.

Definition set_screenshot_path (r : Result) (p : string) : Result :=
  {| r_url := r_url r; r_status := r_status r;
     r_screenshot_path := Some p;
     r_error := r_error r; r_timestamp := r_timestamp r |}.

(** A pandas data frame, as the list of its columns; the cells of the first
    column are the URLs. *)
Definition DataFrame : Type := list (list string).

(** [df.shape[1]] *)
Definition shape1 (df : DataFrame) : nat := length df.

(** [df.iloc[:, 0].tolist()], used only when [shape1 df] is not zero. *)
Definition first_column (df : DataFrame) : list string := hd [] df.

Definition handle : Type := nat.   (* a WebDriver session *)
Definition element : Type := nat.  (* a WebElement *)

Inductive By : Type := CSS_SELECTOR | XPATH | TAG_NAME.

(** ** Calls to the outside world *)

(** Every operation of Selenium, pandas, the file system and [time] that the
    program invokes and that may fail.  The index is the type of the value
    the call returns when it does not raise.  [save_screenshot] answers
    [False], without raising, when the file could not be written; the
    program never looks at that answer. *)
Inductive call : Type -> Type :=
| Mkdir (p : string) : call unit
| ReadCsv (p : string) : call DataFrame
| ToCsv (p : string) (rows : list Result) : call unit
| Sleep (secs : nat) : call unit
| NewChrome (arguments : list string) : call handle
| SetPageLoadTimeout (d : handle) (secs : nat) : call unit
| Get (d : handle) (url : string) : call unit
| WaitPresence (d : handle) (timeout : nat) (by_ : By) (sel : string) : call element
| WaitClickable (d : handle) (timeout : nat) (by_ : By) (sel : string) : call element
| IsDisplayed (e : element) : call bool
| Clear (e : element) : call unit
| SendKeys (e : element) (keys : string) : call unit
| Click (e : element) : call unit
| SaveScreenshot (d : handle) (p : string) : call bool
| ScrollHeight (d : handle) : call Z
| SetWindowSize (d : handle) (w h : Z) : call unit.

Inductive level : Type := INFO | WARNING | ERROR.

(** What the program did, most recent first: calls with their answers, the
    sessions it quit and the lines it logged. *)
Inductive event : Type :=
| Called {A : Type} (c : call A) (r : result A)
| Quit (d : handle)
| Logged (lvl : level) (msg : string).

(** The environment.  [respond] answers a call and moves the world on.
    [on_quit] is [driver.quit()]: Selenium's Chrome driver swallows every
    error raised while shutting down, so it always returns.  [clock] is
    [datetime.now().strftime(...)]. *)
Record Env (W : Type) : Type := mkEnv {
  respond : forall A : Type, call A -> W -> W * result A;
  on_quit : handle -> W -> W;
  clock : W -> string
}.
Arguments respond {W} e {A} c w.
Arguments on_quit {W} e d w.
Arguments clock {W} e w.

(** ** Library functions taken as parameters *)

(** The fields of [urllib.parse.ParseResult]. *)
Record ParseResult : Type := mkParseResult {
  scheme : string;
  netloc : string;
  path : string;
  params : string;
  query : string;
  fragment : string
}.

(** [urlparse] raises [ValueError] on some inputs (an unbalanced bracket in
    the host); [slugify] is total on strings. *)
Record Libs : Type := mkLibs {
  urlparse : string -> result ParseResult;
  slugify : string -> string
}.

(** ** Strings *)

(** [s.replace(a, b)] for one-character [a] and [b]. *)
Fixpoint replace_char (a b : ascii) (s : string) : string :=
  match s with
  | EmptyString => EmptyString
  | String c s' =>
      String (if Ascii.eqb c a then b else c) (replace_char a b s')
  end.

(** [s[:n]] *)
Fixpoint take (n : nat) (s : string) : string :=
  match n, s with
  | S n', String c s' => String c (take n' s')
  | _, _ => EmptyString
  end.

(** [s.startswith(p)] *)
Definition startswith (s p : string) : bool := String.prefix p s.

(** [str(n)] for a non-negative integer. *)
Definition str_nat (n : nat) : string := NilEmpty.string_of_uint (Nat.to_uint n).

(** [str(output_dir / name)] for a relative [name]. *)
Definition path_join (dir name : string) : string := dir ++ "/" ++ name.

(** ** sanitize_filename *)

Section Sanitize.
Variable libs : Libs.

(** Lines 105-126.  [urlparse] may raise; nothing else in the body can. *)
Definition sanitize_filename (url : string) : result string :=
  match urlparse libs url with
  | Raise e => Raise e
  | Ok parsed =>
      let domain := netloc parsed in
      let path := replace_char "/" "_" (path parsed) in
      let filename := slugify libs (domain ++ path) in
      let filename :=
        if Nat.ltb 100 (String.length filename) then take 100 filename
        else filename in
      Ok filename
  end.

End Sanitize.

(** ** The monad of the program *)

Section Program.
Context {W : Type}.
Variable env : Env W.
Variable libs : Libs.

(** The fields of [self] that change or are read ([driver], [headless]),
    the world and the history. *)
Record state : Type := mkState {
  driver : option handle;
  headless : bool;
  world : W;
  trace : list event
}.

Definition M (A : Type) : Type := state -> state * result A.

Definition ret {A} (a : A) : M A := fun st => (st, Ok a).

Definition raise {A} (e : exn) : M A := fun st => (st, Raise e).

Definition bind {A B} (m : M A) (k : A -> M B) : M B :=
  fun st =>
    match m st with
    | (st', Ok a) => k a st'
    | (st', Raise e) => (st', Raise e)
    end.

(** [try: m  except <handles> as e: h e] *)
Definition try_except {A} (m : M A) (handles : exn -> bool) (h : exn -> M A) : M A :=
  fun st =>
    match m st with
    | (st', Ok a) => (st', Ok a)
    | (st', Raise e) => if handles e then h e st' else (st', Raise e)
    end.

(** [try: m  finally: f].  An exception raised by [f] replaces the outcome
    of [m]. *)
Definition try_finally {A} (m : M A) (f : M unit) : M A :=
  fun st =>
    match m st with
    | (st', r) =>
        match f st' with
        | (st'', Ok _) => (st'', r)
        | (st'', Raise e) => (st'', Raise e)
        end
    end.

(** Runs [m] and hands its outcome, value or exception, to the caller. *)
Definition attempt {A} (m : M A) : M (result A) :=
  fun st => match m st with (st', r) => (st', Ok r) end.

(** A pure computation that may raise. *)
Definition lift {A} (r : result A) : M A := fun st => (st, r).

Definition record (ev : event) (st : state) : state :=
  {| driver := driver st; headless := headless st;
     world := world st; trace := ev :: trace st |}.

(** A call to the outside world: the environment answers it, and the call
    and its answer enter the history. *)
Definition call_ {A} (c : call A) : M A :=
  fun st =>
    match respond env c (world st) with
    | (w', r) =>
        ({| driver := driver st; headless := headless st;
            world := w'; trace := Called c r :: trace st |}, r)
    end.

(** [self.logger.info(msg)] and its siblings. *)
Definition log (lvl : level) (msg : string) : M unit :=
  fun st => (record (Logged lvl msg) st, Ok tt).

(** [datetime.now().strftime(...)] *)
Definition now : M string := fun st => (st, Ok (clock env (world st))).

(** [self.driver = d] *)
Definition set_driver (d : option handle) : M unit :=
  fun st =>
    ({| driver := d; headless := headless st;
        world := world st; trace := trace st |}, Ok tt).

Definition get_driver : M (option handle) := fun st => (st, Ok (driver st)).

Definition get_headless : M bool := fun st => (st, Ok (headless st)).

(** [self.driver.<attr>]: on [None] Python raises [AttributeError]. *)
Definition the_driver (attr : string) : M handle :=
  fun st =>
    match driver st with
    | Some d => (st, Ok d)
    | None =>
        (st, Raise (PyException
           ("'NoneType' object has no attribute '" ++ attr ++ "'")))
    end.

(** [self.driver.quit()] *)
Definition quit (d : handle) : M unit :=
  fun st =>
    ({| driver := driver st; headless := headless st;
        world := on_quit env d (world st); trace := Quit d :: trace st |}, Ok tt).

End Program.

Arguments state W : clear implicits.
Arguments M W A : clear implicits.

Declare Scope py_scope.
Delimit Scope py_scope with py.
Notation "x <- m ;; k" := (bind m (fun x => k))
  (at level 100, m at next level, right associativity) : py_scope.
Notation "m ;; k" := (bind m (fun _ => k))
  (at level 100, right associativity) : py_scope.

(** ** The class SEOAuditAutomation *)

(** [self.base_url] and [self.email], set once in [__init__]. *)
Definition base_url : string := "https://seoworks.ai".
Definition email : string := "JOSH@PROJECTXLABS.AI".

(** The two expected conditions the program waits on. *)
Inductive condition : Type :=
| presence_of_element_located
| element_to_be_clickable.

(** The four locator chains, lines 166-173, 201-208, 241-249 and 282-288. *)
Definition selectors : list string :=
  [ "input[type='text']";
    "input[type='url']";
    "input[placeholder*='URL']";
    "input[placeholder*='url']";
    "input[placeholder*='website']";
    "input[name*='url']" ].

Definition button_selectors : list string :=
  [ "button[type='submit']";
    "//button[contains(text(), 'Analyze')]";
    "//button[contains(text(), 'Check')]";
    "//button[contains(text(), 'Audit')]";
    "//button[contains(text(), 'Submit')]";
    "input[type='submit']" ].

Definition email_selectors : list string :=
  [ "input#email";
    "input[type='email']";
    "input[name='email']";
    "input[placeholder*='email']";
    "input[placeholder*='Email']";
    "//input[@type='email']";
    "//input[@name='email']" ].

Definition final_submit_selectors : list string :=
  [ "//button[contains(text(), 'Submit')]";
    "//button[contains(text(), 'Get Results')]";
    "//button[contains(text(), 'Send')]";
    "button[type='submit']";
    "input[type='submit']" ].

(** The first chain is looked up by CSS selector throughout (line 178); the
    other three switch on [selector.startswith("//")]. *)
Definition by_css (selector : string) : By := CSS_SELECTOR.

Definition by_prefix (selector : string) : By :=
  if startswith selector "//" then XPATH else CSS_SELECTOR.

(** The four error messages of the locator steps. *)
Definition msg_url_input : string := "Could not find URL input field".
Definition msg_submit_button : string := "Could not find submit button".
Definition msg_email_input : string := "Could not find email input field".
Definition msg_final_submit : string := "Could not find final submit button".

Section Automation.
Context {W : Type}.
Variable env : Env W.
Variable libs : Libs.

Local Open Scope py_scope.

(** [WebDriverWait(self.driver, timeout).until(EC.<cond>((by, sel)))] *)
Definition wait_until (timeout : nat) (cond : condition) (by_ : By) (sel : string)
  : M W element :=
  d <- the_driver "find_element" ;;
  match cond with
  | presence_of_element_located => call_ env (WaitPresence d timeout by_ sel)
  | element_to_be_clickable => call_ env (WaitClickable d timeout by_ sel)
  end.

(** Lines 73-96. *)
Definition setup_driver : M W unit :=
  log INFO "Setting up WebDriver..." ;;
  h <- get_headless ;;
  let chrome_options :=
    ((if h then ["--headless"] else []) ++
     ["--disable-gpu"; "--window-size=1920,1080"; "--no-sandbox";
      "--disable-dev-shm-usage"])%list in
  try_except
    (log INFO "Using Homebrew-installed chromedriver" ;;
     d <- call_ env (NewChrome chrome_options) ;;
     set_driver (Some d) ;;
     d <- the_driver "set_page_load_timeout" ;;
     call_ env (SetPageLoadTimeout d 60) ;;
     log INFO "WebDriver setup complete")
    is_WebDriverException
    (fun e =>
       log ERROR ("Failed to set up WebDriver: " ++ str_exn e) ;;
       raise e).

(** Lines 98-103. *)
Definition cleanup : M W unit :=
  d <- get_driver ;;
  match d with
  | Some d =>
      log INFO "Closing WebDriver..." ;;
      quit env d ;;
      set_driver None
  | None => ret tt
  end.

(** The loop over a locator chain, as written four times (lines 175-183,
    210-223, 252-265 and 291-304).  [found] is the loop's variable
    ([url_input], [submit_button], ...), [None] before the loop.  The
    variable is assigned as soon as the wait returns, before
    [is_displayed()] is asked; [break] leaves the loop, [continue] and the
    end of the body go on with the next selector. *)
Fixpoint locate (cond : condition) (by_of : string -> By)
  (chain : list string) (found : option element) : M W (option element) :=
  match chain with
  | [] => ret found
  | selector :: rest =>
      r <- attempt (wait_until 3 cond (by_of selector) selector) ;;
      match r with
      | Raise e =>
          if is_Timeout_or_NoSuchElement e
          then locate cond by_of rest found
          else raise e
      | Ok el =>
          shown <- attempt (call_ env (IsDisplayed el)) ;;
          match shown with
          | Ok true => ret (Some el)
          | Ok false => locate cond by_of rest (Some el)
          | Raise e =>
              if is_Timeout_or_NoSuchElement e
              then locate cond by_of rest (Some el)
              else raise e
          end
      end
  end.

(** The debugging screenshot taken after each stage (lines 160-162,
    195-197, 234-236, 277-279 and 315-317). *)
Definition debug_screenshot (url output_dir stage : string) : M W unit :=
  name <- lift (sanitize_filename libs url) ;;
  let debug_screenshot :=
    path_join output_dir ("debug_" ++ name ++ "_" ++ stage ++ ".png") in
  d <- the_driver "save_screenshot" ;;
  call_ env (SaveScreenshot d debug_screenshot) ;;
  log INFO ("Debug screenshot saved to " ++ debug_screenshot).

(** Lines 148-162: navigation, the wait for the page and the first
    debugging screenshot. *)
Definition open_page (url output_dir : string) : M W unit :=
  log INFO ("Processing URL: " ++ url) ;;
  d <- the_driver "get" ;;
  call_ env (Get d base_url) ;;
  log INFO "Navigated to SEOWORKS.AI" ;;
  wait_until 10 presence_of_element_located TAG_NAME "body" ;;
  debug_screenshot url output_dir "initial".

(** Lines 190-197. *)
Definition enter_url (url output_dir : string) (url_input : element) : M W unit :=
  call_ env (Clear url_input) ;;
  call_ env (SendKeys url_input url) ;;
  log INFO ("Entered URL: " ++ url) ;;
  debug_screenshot url output_dir "url_entered".

(** Lines 230-236. *)
Definition submit_url (url output_dir : string) (submit_button : element)
  : M W unit :=
  call_ env (Click submit_button) ;;
  log INFO "URL submitted" ;;
  debug_screenshot url output_dir "submitted".

(** Lines 272-279. *)
Definition enter_email (url output_dir : string) (email_input : element)
  : M W unit :=
  call_ env (Clear email_input) ;;
  call_ env (SendKeys email_input email) ;;
  log INFO ("Entered email: " ++ email) ;;
  debug_screenshot url output_dir "email_entered".

(** Lines 311-317. *)
Definition submit_email (url output_dir : string) (final_submit : element)
  : M W unit :=
  call_ env (Click final_submit) ;;
  log INFO "Email form submitted" ;;
  debug_screenshot url output_dir "final_submitted".

(** Lines 240-317, the body of the inner [try].  [Some r] is a
    [return r] inside it; [None] is falling out of its end. *)
Definition handle_email_form (url output_dir : string) (result : Result)
  : M W (option Result) :=
  email_input <- locate presence_of_element_located by_prefix email_selectors None ;;
  match email_input with
  | None =>
      log ERROR ("Could not find email input field for " ++ url) ;;
      ret (Some (set_error result msg_email_input))
  | Some email_input =>
      enter_email url output_dir email_input ;;
      final_submit <- locate element_to_be_clickable by_prefix
                        final_submit_selectors None ;;
      match final_submit with
      | None =>
          log ERROR ("Could not find final submit button for " ++ url) ;;
          ret (Some (set_error result msg_final_submit))
      | Some final_submit =>
          submit_email url output_dir final_submit ;;
          ret None
      end
  end.

(** Lines 239-322: the inner [try] with its handler. *)
Definition email_step (url output_dir : string) (result : Result)
  : M W (option Result) :=
  try_except
    (handle_email_form url output_dir result)
    is_Exception
    (fun e =>
       log ERROR ("Failed to handle email form for " ++ url ++ ": "
                  ++ str_exn e) ;;
       ret (Some (set_error result
                    ("Failed to handle email form: " ++ str_exn e)))).

(** Lines 324-363: the wait for the audit, the optional popup and the final
    screenshot. *)
Definition capture_results (url output_dir : string) (result : Result)
  : M W Result :=
  log INFO "Waiting for audit to complete..." ;;
  call_ env (Sleep 5) ;;
  wait_until 30 presence_of_element_located TAG_NAME "body" ;;
  try_except
    (popup_close <- wait_until 3 element_to_be_clickable XPATH
                      "//*[@id='cta_178493']/div/div[2]" ;;
     call_ env (Click popup_close) ;;
     log INFO "Popup closed")
    is_Timeout_or_NoSuchElement
    (fun _ => log INFO "No popup detected or popup not clickable") ;;
  name <- lift (sanitize_filename libs url) ;;
  let filename := name ++ ".png" in
  let screenshot_path := path_join output_dir filename in
  log INFO "Taking screenshot of audit results..." ;;
  d <- the_driver "execute_script" ;;
  height <- call_ env (ScrollHeight d) ;;
  d <- the_driver "set_window_size" ;;
  call_ env (SetWindowSize d 1920 height) ;;
  d <- the_driver "save_screenshot" ;;
  call_ env (SaveScreenshot d screenshot_path) ;;
  log INFO ("Screenshot saved to " ++ screenshot_path) ;;
  ret (set_screenshot_path (set_status result status_success) screenshot_path).

(** Lines 148-363, the body of the outer [try].  The dictionary [result] is
    only written immediately before a [return], so every handler sees it as
    it was created. *)
Definition process_url_body (url output_dir : string) (result : Result)
  : M W Result :=
  open_page url output_dir ;;
  url_input <- locate presence_of_element_located by_css selectors None ;;
  match url_input with
  | None =>
      log ERROR ("Could not find URL input field for " ++ url) ;;
      ret (set_error result msg_url_input)
  | Some url_input =>
      enter_url url output_dir url_input ;;
      submit_button <- locate element_to_be_clickable by_prefix
                         button_selectors None ;;
      match submit_button with
      | None =>
          log ERROR ("Could not find submit button for " ++ url) ;;
          ret (set_error result msg_submit_button)
      | Some submit_button =>
          submit_url url output_dir submit_button ;;
          returned <- email_step url output_dir result ;;
          match returned with
          | Some r => ret r
          | None => capture_results url output_dir result
          end
      end
  end.

(** Lines 128-368. *)
Definition process_url (url output_dir : string) : M W Result :=
  timestamp <- now env ;;
  let result := new_result url timestamp in
  try_except
    (process_url_body url output_dir result)
    is_Exception
    (fun e =>
       log ERROR ("Unexpected error processing " ++ url ++ ": " ++ str_exn e) ;;
       ret (set_error result ("Unexpected error: " ++ str_exn e))).

(** The [for url in tqdm(urls)] loop of lines 411-421 over the three
    accumulators [results], [successful] and [failed]. *)
Fixpoint for_url_in (urls : list string) (screenshots_dir : string)
  (results : list Result) (successful failed : list string)
  : M W (list Result * list string * list string) :=
  match urls with
  | [] => ret (results, successful, failed)
  | url :: rest =>
      result <- process_url url screenshots_dir ;;
      let results := (results ++ [result])%list in
      let successful :=
        if Status_eqb (r_status result) status_success
        then (successful ++ [url])%list else successful in
      let failed :=
        if Status_eqb (r_status result) status_success
        then failed else (failed ++ [url])%list in
      call_ env (Sleep 2) ;;
      for_url_in rest screenshots_dir results successful failed
  end.

(** Lines 390-434, the body of the [try] of [process_csv].  The
    percentages of the summary lines are floats and are left out of the
    logged text. *)
Definition process_csv_body (csv_path output_path screenshots_dir : string)
  : M W (list string * list string) :=
  df <- call_ env (ReadCsv csv_path) ;;
  if Nat.eqb (shape1 df) 0
  then
    log ERROR "CSV file has no columns" ;;
    raise (ValueError "CSV file has no columns")
  else
    let urls := first_column df in
    match urls with
    | [] =>
        log WARNING "No URLs found in the CSV file" ;;
        ret ([], [])
    | _ :: _ =>
        log INFO ("Found " ++ str_nat (length urls) ++ " URLs to process") ;;
        setup_driver ;;
        acc <- for_url_in urls screenshots_dir [] [] [] ;;
        let '(results, successful, failed) := acc in
        let results_csv_path := path_join output_path "results.csv" in
        call_ env (ToCsv results_csv_path results) ;;
        log INFO ("Results saved to " ++ results_csv_path) ;;
        log INFO ("Total URLs processed: " ++ str_nat (length urls)) ;;
        log INFO ("Successful: " ++ str_nat (length successful)) ;;
        log INFO ("Failed: " ++ str_nat (length failed)) ;;
        ret (successful, failed)
    end.

(** Lines 370-440. *)
Definition process_csv (csv_path output_dir : string)
  : M W (list string * list string) :=
  let output_path := output_dir in
  let screenshots_dir := path_join output_path "screenshots" in
  call_ env (Mkdir screenshots_dir) ;;
  try_finally
    (try_except
       (process_csv_body csv_path output_path screenshots_dir)
       is_Exception
       (fun e =>
          log ERROR ("Error processing CSV: " ++ str_exn e) ;;
          raise e))
    cleanup.

End Automation.

(** ** The four mandatory locator steps *)

Inductive step : Type :=
| primary_input
| primary_submit
| secondary_input
| secondary_submit.

(** The error message the workflow gives when a step finds no element
    (lines 187, 227, 269 and 308). *)
Definition step_msg (s : step) : string :=
  match s with
  | primary_input => msg_url_input
  | primary_submit => msg_submit_button
  | secondary_input => msg_email_input
  | secondary_submit => msg_final_submit
  end.

Section Paths.
Context {W : Type}.
Variable env : Env W.
Variable libs : Libs.

(** The workflow, started in [st], gets to the end of the loop over the
    first chain without an exception, with [found] in the loop's variable
    and in state [st']. *)
Definition reaches_url_input (url output_dir : string) (st : state W)
  (found : option element) (st' : state W) : Prop :=
  exists st1,
    open_page env libs url output_dir st = (st1, Ok tt) /\
    locate env presence_of_element_located by_css selectors None st1
    = (st', Ok found).

(** The same for the loops over the second, third and fourth chain: the
    loop before found an element, and the statements between the two loops
    ran without an exception. *)
Definition reaches_submit_button (url output_dir : string) (st : state W)
  (found : option element) (st' : state W) : Prop :=
  exists url_input st1 st2,
    reaches_url_input url output_dir st (Some url_input) st1 /\
    enter_url env libs url output_dir url_input st1 = (st2, Ok tt) /\
    locate env element_to_be_clickable by_prefix button_selectors None st2
    = (st', Ok found).

Definition reaches_email_input (url output_dir : string) (st : state W)
  (found : option element) (st' : state W) : Prop :=
  exists submit_button st1 st2,
    reaches_submit_button url output_dir st (Some submit_button) st1 /\
    submit_url env libs url output_dir submit_button st1 = (st2, Ok tt) /\
    locate env presence_of_element_located by_prefix email_selectors None st2
    = (st', Ok found).

Definition reaches_final_submit (url output_dir : string) (st : state W)
  (found : option element) (st' : state W) : Prop :=
  exists email_input st1 st2,
    reaches_email_input url output_dir st (Some email_input) st1 /\
    enter_email env libs url output_dir email_input st1 = (st2, Ok tt) /\
    locate env element_to_be_clickable by_prefix final_submit_selectors None st2
    = (st', Ok found).

(** The workflow gets to the loop of step [s], and the loop ends with its
    variable at [None]: the [if not ...] after it is taken. *)
Definition loop_ends_empty (s : step) (url output_dir : string)
  (st st' : state W) : Prop :=
  match s with
  | primary_input => reaches_url_input url output_dir st None st'
  | primary_submit => reaches_submit_button url output_dir st None st'
  | secondary_input => reaches_email_input url output_dir st None st'
  | secondary_submit => reaches_final_submit url output_dir st None st'
  end.

End Paths.

(** ** The resolver of the specification *)

Section Resolver.
Context {W : Type}.
Variable env : Env W.

Local Open Scope py_scope.

(** The element resolver as section 4.1 of the specification words it:
    the candidates are tried in order, each within its own wait; the
    first element that is present and visible is returned; a candidate
    that times out, or whose element is not visible, moves on to the next
    one; when no candidate is left the result is NotFound, here [None].
    It differs from [locate] in one place: an element that is not
    displayed is not kept. *)
Fixpoint resolve (cond : condition) (by_of : string -> By)
  (chain : list string) : M W (option element) :=
  match chain with
  | [] => ret None
  | selector :: rest =>
      r <- attempt (wait_until env 3 cond (by_of selector) selector) ;;
      match r with
      | Raise e =>
          if is_Timeout_or_NoSuchElement e
          then resolve cond by_of rest
          else raise e
      | Ok el =>
          shown <- attempt (call_ env (IsDisplayed el)) ;;
          match shown with
          | Ok true => ret (Some el)
          | Ok false => resolve cond by_of rest
          | Raise e =>
              if is_Timeout_or_NoSuchElement e
              then resolve cond by_of rest
              else raise e
          end
      end
  end.

End Resolver.

(** ** create_zip *)
























(** ** Instances of the library functions *)

(** An instance of [urlparse] for plain URLs: printable ASCII without
    blanks.  It follows [urllib.parse.urlsplit]: the scheme up to the first
    colon when that prefix is a letter followed by letters, digits, [+],
    [-] or [.]; the host after [//] up to the next [/], [?] or [#]; then
    the fragment, the query and the parameters of the last path segment. *)
Definition is_alpha (c : ascii) : bool :=
  let n := nat_of_ascii c in
  (Nat.leb 65 n && Nat.leb n 90) || (Nat.leb 97 n && Nat.leb n 122).

Definition is_digit (c : ascii) : bool :=
  let n := nat_of_ascii c in Nat.leb 48 n && Nat.leb n 57.

Definition lower (c : ascii) : ascii :=
  let n := nat_of_ascii c in
  if Nat.leb 65 n && Nat.leb n 90 then ascii_of_nat (n + 32) else c.

Definition is_scheme_char (c : ascii) : bool :=
  is_alpha c || is_digit c
  || Ascii.eqb c "+" || Ascii.eqb c "-" || Ascii.eqb c ".".

Fixpoint string_forallb (p : ascii -> bool) (s : string) : bool :=
  match s with
  | EmptyString => true
  | String c s' => p c && string_forallb p s'
  end.

Fixpoint string_map (f : ascii -> ascii) (s : string) : string :=
  match s with
  | EmptyString => EmptyString
  | String c s' => String (f c) (string_map f s')
  end.

Fixpoint contains_char (c : ascii) (s : string) : bool :=
  match s with
  | EmptyString => false
  | String c' s' => Ascii.eqb c c' || contains_char c s'
  end.

(** [s.split(c, 1)]: the text before the first [c], and the text after it
    when [c] occurs. *)
Fixpoint split_first (c : ascii) (s : string) : string * option string :=
  match s with
  | EmptyString => (EmptyString, None)
  | String c' s' =>
      if Ascii.eqb c c' then (EmptyString, Some s')
      else
        match split_first c s' with
        | (before, after) => (String c' before, after)
        end
  end.

(** [_splitnetloc]: the text up to the first of [/], [?] and [#], and the
    rest from that character on. *)
Fixpoint split_netloc (s : string) : string * string :=
  match s with
  | EmptyString => (EmptyString, EmptyString)
  | String c s' =>
      if Ascii.eqb c "/" || Ascii.eqb c "?" || Ascii.eqb c "#"
      then (EmptyString, s)
      else
        match split_netloc s' with
        | (host, rest) => (String c host, rest)
        end
  end.

(** [s.rsplit("/", 1)]: the text up to and including the last [/], and the
    last segment. *)
Fixpoint split_last_segment (s : string) : string * string :=
  match s with
  | EmptyString => (EmptyString, EmptyString)
  | String c s' =>
      match split_last_segment s' with
      | (dir, seg) =>
          if Ascii.eqb c "/" then (String c dir, seg)
          else if contains_char "/" s' then (String c dir, seg)
          else (EmptyString, String c seg)
      end
  end.

Definition uses_params : list string :=
  [ ""; "ftp"; "hdl"; "prospero"; "http"; "imap"; "https"; "shttp"; "rtsp";
    "rtspu"; "sip"; "sips"; "mms"; "sftp"; "tel" ].

Definition urlparse_plain (url : string) : result ParseResult :=
  let '(scheme, url) :=
    match split_first ":" url with
    | (String c pre, Some rest) =>
        if is_alpha c && string_forallb is_scheme_char pre
        then (string_map lower (String c pre), rest)
        else (EmptyString, url)
    | _ => (EmptyString, url)
    end in
  let '(netloc, url) :=
    if startswith url "//"
    then split_netloc (substring 2 (String.length url - 2) url)
    else (EmptyString, url) in
  if xorb (contains_char "[" netloc) (contains_char "]" netloc)
  then Raise (ValueError "Invalid IPv6 URL")
  else
    let '(url, fragment) :=
      match split_first "#" url with
      | (before, Some after) => (before, after)
      | (before, None) => (before, EmptyString)
      end in
    let '(url, query) :=
      match split_first "?" url with
      | (before, Some after) => (before, after)
      | (before, None) => (before, EmptyString)
      end in
    let '(url, params) :=
      if existsb (String.eqb scheme) uses_params
      then
        match split_last_segment url with
        | (dir, seg) =>
            match split_first ";" seg with
            | (before, Some after) => (dir ++ before, after)
            | (_, None) => (url, EmptyString)
            end
        end
      else (url, EmptyString) in
    Ok {| scheme := scheme; netloc := netloc; path := url;
          params := params; query := query; fragment := fragment |}.

(** An instance of [slugify] for strings of letters, digits and
    separators: letters are lowered, every run of other characters becomes
    one dash, and no dash leads or trails. *)
Fixpoint slug_from (s : string) (started pending : bool) : string :=
  match s with
  | EmptyString => EmptyString
  | String c s' =>
      if is_alpha c || is_digit c
      then
        let rest := String (lower c) (slug_from s' true false) in
        if started && pending then String "-" rest else rest
      else slug_from s' started true
  end.

Definition slugify_plain (s : string) : string := slug_from s false false.

Definition plain_libs : Libs :=
  {| urlparse := urlparse_plain; slugify := slugify_plain |}.

(** ** URLs written out *)











(** ** A scripted environment *)

(** A small world to run the program in: the data frame pandas reads, the
    elements the page shows for each selector and whether they are
    displayed, and optionally a fault: the number of calls still answered
    normally before one call raises the given exception. *)
Record Page : Type := mkPage {
  page_csv : DataFrame;
  page_dom : list (string * (element * bool));
  page_fault : option (nat * exn)
}.

Fixpoint dom_find (sel : string) (dom : list (string * (element * bool)))
  : option (element * bool) :=
  match dom with
  | [] => None
  | (s, eb) :: rest => if String.eqb s sel then Some eb else dom_find sel rest
  end.

Fixpoint dom_displayed (e : element) (dom : list (string * (element * bool)))
  : bool :=
  match dom with
  | [] => false
  | (_, (e', b)) :: rest => if Nat.eqb e e' then b else dom_displayed e rest
  end.

(** The answer of a page without fault.  The [body] tag is always there;
    an element is clickable when it is present and displayed. *)
Definition page_answer {A : Type} (c : call A) (p : Page) : result A :=
  match c in call T return result T with
  | Mkdir _ => Ok tt
  | ReadCsv _ => Ok (page_csv p)
  | ToCsv _ _ => Ok tt
  | Sleep _ => Ok tt
  | NewChrome _ => Ok 1
  | SetPageLoadTimeout _ _ => Ok tt
  | Get _ _ => Ok tt
  | WaitPresence _ _ by_ sel =>
      match by_ with
      | TAG_NAME => Ok 0
      | _ =>
          match dom_find sel (page_dom p) with
          | Some (e, _) => Ok e
          | None => Raise (TimeoutException "Message: ")
          end
      end
  | WaitClickable _ _ _ sel =>
      match dom_find sel (page_dom p) with
      | Some (e, true) => Ok e
      | _ => Raise (TimeoutException "Message: ")
      end
  | IsDisplayed e => Ok (dom_displayed e (page_dom p))
  | Clear _ => Ok tt
  | SendKeys _ _ => Ok tt
  | Click _ => Ok tt
  | SaveScreenshot _ _ => Ok true
  | ScrollHeight _ => Ok 1080%Z
  | SetWindowSize _ _ _ => Ok tt
  end.

Definition page_respond (A : Type) (c : call A) (p : Page) : Page * result A :=
  match page_fault p with
  | Some (0, e) =>
      ({| page_csv := page_csv p; page_dom := page_dom p;
          page_fault := None |}, Raise e)
  | Some (S n, e) =>
      ({| page_csv := page_csv p; page_dom := page_dom p;
          page_fault := Some (n, e) |}, page_answer c p)
  | None => (p, page_answer c p)
  end.

Definition page_env : Env Page :=
  {| respond := page_respond;
     on_quit := fun _ p => p;
     clock := fun _ => "2024-01-01 00:00:00" |}.

(** The object right after [__init__]: no driver, headless. *)
Definition fresh {W : Type} (w : W) : state W :=
  {| driver := None; headless := true; world := w; trace := [] |}.

(** The object while a batch runs: a driver is set. *)
Definition running {W : Type} (d : handle) (w : W) : state W :=
  {| driver := Some d; headless := true; world := w; trace := [] |}.

(** A page on which every step of the workflow finds its element. *)
Definition full_dom : list (string * (element * bool)) :=
  [ ("input[type='text']", (11, true));
    ("//button[contains(text(), 'Analyze')]", (12, true));
    ("input[type='email']", (13, true));
    ("//button[contains(text(), 'Send')]", (14, true)) ].

(** A page on which every step of the workflow would find its element,
    but the text input, the only match of the first chain, is hidden. *)
Definition hidden_field_dom : list (string * (element * bool)) :=
  [ ("input[type='text']", (11, false));
    ("//button[contains(text(), 'Analyze')]", (12, true));
    ("input[type='email']", (13, true));
    ("//button[contains(text(), 'Send')]", (14, true)) ].

(** The same page as Selenium shows it: the eleventh call, [clear()] on
    the hidden input, raises. *)
Definition hidden_field_page : Page :=
  {| page_csv := [];
     page_dom := hidden_field_dom;
     page_fault :=
       Some (10, WebDriverException "Message: element not interactable") |}.

(** A page whose only text input is hidden. *)
Definition hidden_input_dom : list (string * (element * bool)) :=
  [ ("input[type='text']", (11, false)) ].

(** A page for the chain [selectors]: nothing matches the first selector,
    the second and the third both match a displayed element. *)
Definition tie_break_dom : list (string * (element * bool)) :=
  [ ("input[type='url']", (21, true));
    ("input[placeholder*='URL']", (22, true)) ].

Definition page_of (csv : DataFrame) (dom : list (string * (element * bool)))
  : Page :=
  {| page_csv := csv; page_dom := dom; page_fault := None |}.

Definition faulty_page (dom : list (string * (element * bool)))
  (n : nat) (e : exn) : Page :=
  {| page_csv := []; page_dom := dom; page_fault := Some (n, e) |}.

(** A batch of two URLs in which the wait for the page of the second item
    times out. *)
Definition mixed_page : Page :=
  {| page_csv := [["example.com"; "bad.invalid"]];
     page_dom := full_dom;
     page_fault := Some (41, TimeoutException "Message: ") |}.

(** A batch of two URLs interrupted while the first item is processed. *)
Definition interrupted_page : Page :=
  {| page_csv := [["example.com"; "bad.invalid"]];
     page_dom := full_dom;
     page_fault := Some (10, KeyboardInterrupt) |}.

(** A file with a header and no rows. *)
Definition empty_page : Page := page_of [[]] full_dom.

(** ** Reading the history *)

(** The sessions that successful [webdriver.Chrome(...)] calls opened. *)
Definition opened_by (ev : event) : list handle :=
  match ev with
  | @Called A c r =>
      match c in call T return result T -> list handle with
      | NewChrome _ =>
          fun r => match r with Ok d => [d] | Raise _ => [] end
      | _ => fun _ => []
      end r
  | _ => []
  end.

Definition opened (evs : list event) : list handle := flat_map opened_by evs.

(** The sessions on which [quit()] was called. *)
Definition quitted_by (ev : event) : list handle :=
  match ev with
  | Quit d => [d]
  | _ => []
  end.

Definition quitted (evs : list event) : list handle := flat_map quitted_by evs.

(** The data frames that [pd.read_csv] returned. *)
Definition csv_read_by (ev : event) : list DataFrame :=
  match ev with
  | @Called A c r =>
      match c in call T return result T -> list DataFrame with
      | ReadCsv _ =>
          fun r => match r with Ok df => [df] | Raise _ => [] end
      | _ => fun _ => []
      end r
  | _ => []
  end.

Definition csv_read (evs : list event) : list DataFrame :=
  flat_map csv_read_by evs.

(** The manifests that [to_csv] wrote: the path and the rows. *)
Definition csv_written_by (ev : event) : list (string * list Result) :=
  match ev with
  | @Called A c r =>
      match c in call T return result T -> list (string * list Result) with
      | ToCsv p rows =>
          fun r => match r with Ok _ => [(p, rows)] | Raise _ => [] end
      | _ => fun _ => []
      end r
  | _ => []
  end.

Definition csv_written (evs : list event) : list (string * list Result) :=
  flat_map csv_written_by evs.

(** A call of [setup_driver] to the outside, whatever its answer. *)
Definition is_setup_event (ev : event) : bool :=
  match ev with
  | @Called A c _ =>
      match c with
      | NewChrome _ | SetPageLoadTimeout _ _ => true
      | _ => false
      end
  | _ => false
  end.

(** The events of a single item: everything but the batch's own calls
    (directory, data frame, manifest, driver set-up) and [quit()]. *)
Definition is_item_event (ev : event) : bool :=
  match ev with
  | @Called A c _ =>
      match c with
      | Mkdir _ | ReadCsv _ | ToCsv _ _ | NewChrome _
      | SetPageLoadTimeout _ _ => false
      | _ => true
      end
  | Quit _ => false
  | Logged _ _ => true
  end.

(** ** Properties of computations *)

(** Whatever the state, a value that [m] returns satisfies [Q] and an
    exception that [m] raises satisfies [E]. *)
Definition sat {W A : Type} (m : M W A) (Q : A -> Prop) (E : exn -> Prop)
  : Prop :=
  forall st, match snd (m st) with Ok a => Q a | Raise e => E e end.

(** [m] leaves the fields of [self] alone and adds only events that
    satisfy [P] to the history. *)
Definition quiet {W A : Type} (P : event -> bool) (m : M W A) : Prop :=
  forall st,
    driver (fst (m st)) = driver st /\
    headless (fst (m st)) = headless st /\
    exists evs, trace (fst (m st)) = (evs ++ trace st)%list
                /\ forallb P evs = true.

(** The invariant of a Result. *)
Definition Result_ok (r : Result) : Prop :=
  (r_status r = status_success -> exists p, r_screenshot_path r = Some p) /\
  (r_status r = status_failed -> exists msg, r_error r = Some msg).

(** The results [process_url] can return for [url]: the success with its
    screenshot, or a failure with one of the messages of the code. *)
Definition classified (url : string) (r : Result) : Prop :=
  r_url r = url /\
  ((r_status r = status_success /\ r_error r = None /\
    exists p, r_screenshot_path r = Some p) \/
   (r_status r = status_failed /\ r_screenshot_path r = None /\
    exists msg, r_error r = Some msg /\
      (In msg [msg_url_input; msg_submit_button; msg_email_input;
               msg_final_submit] \/
       exists e, is_Exception e = true /\
         (msg = "Unexpected error: " ++ str_exn e \/
          msg = "Failed to handle email form: " ++ str_exn e)))).

(** The same for the outcome of the inner [try]: a returned result is
    classified, falling through promises nothing. *)
Definition returned_ok (url : string) (o : option Result) : Prop :=
  match o with
  | Some r => classified url r
  | None => True
  end.

(** [needle in hay] *)
Fixpoint is_substring (needle hay : string) : bool :=
  String.prefix needle hay
  || match hay with
     | EmptyString => false
     | String _ hay' => is_substring needle hay'
     end.

(** The rows of a manifest whose status is success, and the others. *)
Definition is_success (r : Result) : bool := Status_eqb (r_status r) status_success.

(** The property that holds of everything. *)
Definition anything {A : Type} (_ : A) : Prop := True.

(** ** More readings of the history *)

(** The argument list [setup_driver] builds for Chrome (lines 77-84). *)
Definition chrome_arguments (h : bool) : list string :=
  ((if h then ["--headless"] else []) ++
   ["--disable-gpu"; "--window-size=1920,1080"; "--no-sandbox";
    "--disable-dev-shm-usage"])%list.

(** The argument lists of the [webdriver.Chrome(...)] calls, whatever
    their answer. *)
Definition chrome_request_of (ev : event) : list (list string) :=
  match ev with
  | @Called A c _ =>
      match c with
      | NewChrome arguments => [arguments]
      | _ => []
      end
  | _ => []
  end.

Definition chrome_requests (evs : list event) : list (list string) :=
  flat_map chrome_request_of evs.

(** The page load timeouts set, with the session they were set on. *)
Definition page_load_timeout_of (ev : event) : list (handle * nat) :=
  match ev with
  | @Called A c _ =>
      match c with
      | SetPageLoadTimeout d secs => [(d, secs)]
      | _ => []
      end
  | _ => []
  end.

Definition page_load_timeouts (evs : list event) : list (handle * nat) :=
  flat_map page_load_timeout_of evs.

(** The lines logged at level ERROR. *)
Definition error_line_of (ev : event) : list string :=
  match ev with
  | Logged ERROR msg => [msg]
  | _ => []
  end.

Definition error_lines (evs : list event) : list string :=
  flat_map error_line_of evs.

(** Whether an event is a call to the outside at all. *)
Definition is_call (ev : event) : bool :=
  match ev with
  | Called _ _ => true
  | _ => false
  end.

(** The lookups of a locator loop: waits and [is_displayed()]. *)
Definition is_lookup_event (ev : event) : bool :=
  match ev with
  | @Called A c _ =>
      match c with
      | WaitPresence _ _ _ _ | WaitClickable _ _ _ _ | IsDisplayed _ => true
      | _ => false
      end
  | _ => false
  end.

(** A wait that ended with one of the two exceptions the loops catch. *)
Definition is_failed_wait (ev : event) : bool :=
  match ev with
  | @Called A c r =>
      match c in call T return result T -> bool with
      | WaitPresence _ _ _ _ | WaitClickable _ _ _ _ =>
          fun r =>
            match r with
            | Ok _ => false
            | Raise e => is_Timeout_or_NoSuchElement e
            end
      | _ => fun _ => false
      end r
  | _ => false
  end.

(** The locators waited on, most recent first, and the elements the waits
    returned, most recent first. *)
Definition waited_of (ev : event) : list (By * string) :=
  match ev with
  | @Called A c _ =>
      match c with
      | WaitPresence _ _ by_ sel | WaitClickable _ _ by_ sel => [(by_, sel)]
      | _ => []
      end
  | _ => []
  end.

Definition waited (evs : list event) : list (By * string) :=
  flat_map waited_of evs.

Definition located_of (ev : event) : list element :=
  match ev with
  | @Called A c r =>
      match c in call T return result T -> list element with
      | WaitPresence _ _ _ _ | WaitClickable _ _ _ _ =>
          fun r => match r with Ok el => [el] | Raise _ => [] end
      | _ => fun _ => []
      end r
  | _ => []
  end.

Definition located (evs : list event) : list element :=
  flat_map located_of evs.

(** What the program does to the elements of the page. *)
Inductive action : Type :=
| Cleared (e : element)
| Typed (e : element) (keys : string)
| Clicked (e : element).

Definition action_of (ev : event) : list action :=
  match ev with
  | @Called A c _ =>
      match c with
      | Clear e => [Cleared e]
      | SendKeys e keys => [Typed e keys]
      | Click e => [Clicked e]
      | _ => []
      end
  | _ => []
  end.

(** The actions of a history in the order in which they were made. *)
Definition actions (evs : list event) : list action :=
  flat_map action_of (rev evs).

(** The [save_screenshot] calls that returned, in the order in which they
    were made: the file asked for and the answer, [true] when the file was
    written. *)
Definition screenshot_of (ev : event) : list (string * bool) :=
  match ev with
  | @Called A c r =>
      match c in call T return result T -> list (string * bool) with
      | SaveScreenshot _ p =>
          fun r => match r with Ok b => [(p, b)] | Raise _ => [] end
      | _ => fun _ => []
      end r
  | _ => []
  end.

Definition screenshots (evs : list event) : list (string * bool) :=
  flat_map screenshot_of (rev evs).

(** The addresses the browser was sent to, and the pauses made, in order. *)
Definition navigation_of (ev : event) : list string :=
  match ev with
  | @Called A c _ =>
      match c with
      | Get _ url => [url]
      | _ => []
      end
  | _ => []
  end.

Definition navigations (evs : list event) : list string :=
  flat_map navigation_of (rev evs).

Definition pause_of (ev : event) : list nat :=
  match ev with
  | @Called A c _ =>
      match c with
      | Sleep secs => [secs]
      | _ => []
      end
  | _ => []
  end.

Definition pauses (evs : list event) : list nat :=
  flat_map pause_of (rev evs).

(** The name of the debugging screenshot of a stage and of the final
    screenshot (lines 160, 195, 234, 277, 315 and 344-345). *)
Definition debug_path (output_dir name stage : string) : string :=
  path_join output_dir ("debug_" ++ name ++ "_" ++ stage ++ ".png").

Definition final_path (output_dir name : string) : string :=
  path_join output_dir (name ++ ".png").

(** The events one item may add: the lookups, the navigation to the
    service, the clearing, typing of the URL or of the fixed e-mail address
    and clicking, the screenshots, the reading and setting of the window
    size with width 1920, the pause of five seconds and log lines. *)
Definition is_workflow_event (url : string) (ev : event) : bool :=
  match ev with
  | @Called A c _ =>
      match c with
      | Get _ u => String.eqb u base_url
      | WaitPresence _ _ _ _ | WaitClickable _ _ _ _ | IsDisplayed _ => true
      | Clear _ | Click _ => true
      | SendKeys _ keys => String.eqb keys email || String.eqb keys url
      | SaveScreenshot _ _ | ScrollHeight _ => true
      | SetWindowSize _ w _ => Z.eqb w 1920
      | Sleep secs => Nat.eqb secs 5
      | Mkdir _ | ReadCsv _ | ToCsv _ _ | NewChrome _
      | SetPageLoadTimeout _ _ => false
      end
  | Quit _ => false
  | Logged _ _ => true
  end.

(** The selector of the optional popup (line 336). *)
Definition popup_selector : string := "//*[@id='cta_178493']/div/div[2]".

(** A wait that returned an element: the condition waited for, the locator
    and the element. *)
Record sighting : Type := mkSighting {
  seen_when : condition;
  seen_by : By;
  seen_selector : string;
  seen : element
}.

(** What the program does to the browser, as far as a page can tell. *)
Inductive deed : Type :=
| Went (url : string)
| Saw (s : sighting)
| Did (a : action)
| Shot (p : string) (answer : bool)
| Paused (secs : nat).

Definition deed_of (ev : event) : list deed :=
  match ev with
  | @Called A c r =>
      match c in call T return result T -> list deed with
      | Get _ url => fun _ => [Went url]
      | WaitPresence _ _ by_ sel =>
          fun r =>
            match r with
            | Ok el => [Saw (mkSighting presence_of_element_located by_ sel el)]
            | Raise _ => []
            end
      | WaitClickable _ _ by_ sel =>
          fun r =>
            match r with
            | Ok el => [Saw (mkSighting element_to_be_clickable by_ sel el)]
            | Raise _ => []
            end
      | Clear e => fun _ => [Did (Cleared e)]
      | SendKeys e keys => fun _ => [Did (Typed e keys)]
      | Click e => fun _ => [Did (Clicked e)]
      | SaveScreenshot _ p =>
          fun r => match r with Ok b => [Shot p b] | Raise _ => [] end
      | Sleep secs => fun _ => [Paused secs]
      | _ => fun _ => []
      end r
  | _ => []
  end.

(** The deeds of a history in the order in which they were done. *)
Definition story (evs : list event) : list deed := flat_map deed_of (rev evs).

(** Every action of a story with the sighting that was the most recent one
    when the action was made; [last] is the most recent sighting before the
    story. *)
Fixpoint attributed (last : option sighting) (ds : list deed)
  : list (action * option sighting) :=
  match ds with
  | [] => []
  | Saw s :: rest => attributed (Some s) rest
  | Did a :: rest => (a, last) :: attributed last rest
  | _ :: rest => attributed last rest
  end.

(** The element of the last sighting of a story, [found] when there is
    none. *)
Definition last_seen (ds : list deed) (found : option element)
  : option element :=
  fold_left
    (fun acc d => match d with Saw s => Some (seen s) | _ => acc end)
    ds found.

(** A story of sightings only, each through a selector of [chain] under
    the condition [cond], the last of them of the element [el]. *)
Definition looked (cond : condition) (by_of : string -> By)
  (chain : list string) (el : element) (ds : list deed) : Prop :=
  Forall (fun d => exists sel e,
            In sel chain /\ d = Saw (mkSighting cond (by_of sel) sel e)) ds
  /\ last_seen ds None = Some el.

Definition shot_in (d : deed) : list (string * bool) :=
  match d with Shot p b => [(p, b)] | _ => [] end.

Definition went_in (d : deed) : list string :=
  match d with Went url => [url] | _ => [] end.

Definition paused_in (d : deed) : list nat :=
  match d with Paused secs => [secs] | _ => [] end.

(** From [st] to [st1] the program kept [self.driver] and did the given
    deeds, in this order. *)
Definition ran {W : Type} (st st1 : state W) (ds : list deed) : Prop :=
  driver st1 = driver st
  /\ exists evs, trace st1 = (evs ++ trace st)%list /\ story evs = ds.

(** The story of a successful item, from the first to the last deed. *)
Definition success_story (url output_dir name : string)
  (body0 body1 e1 e2 e3 e4 : element) (l1 l2 l3 l4 popup : list deed)
  (b1 b2 b3 b4 b5 b6 : bool) : list deed :=
  [Went base_url;
   Saw (mkSighting presence_of_element_located TAG_NAME "body" body0);
   Shot (debug_path output_dir name "initial") b1]
  ++ l1
  ++ [Did (Cleared e1); Did (Typed e1 url);
      Shot (debug_path output_dir name "url_entered") b2]
  ++ l2
  ++ [Did (Clicked e2); Shot (debug_path output_dir name "submitted") b3]
  ++ l3
  ++ [Did (Cleared e3); Did (Typed e3 email);
      Shot (debug_path output_dir name "email_entered") b4]
  ++ l4
  ++ [Did (Clicked e4);
      Shot (debug_path output_dir name "final_submitted") b5]
  ++ [Paused 5;
      Saw (mkSighting presence_of_element_located TAG_NAME "body" body1)]
  ++ popup
  ++ [Shot (final_path output_dir name) b6].

(** A world in which no screenshot can be written: [page_env] with every
    answer of [save_screenshot] turned into [False]. *)
Definition disk_full_respond (A : Type) (c : call A) (p : Page)
  : Page * result A :=
  match page_respond A c p with
  | (p', r) =>
      (p',
       match c in call T return result T -> result T with
       | SaveScreenshot _ _ =>
           fun r => match r with Ok _ => Ok false | Raise e => Raise e end
       | _ => fun r => r
       end r)
  end.

Definition disk_full_env : Env Page :=
  {| respond := disk_full_respond;
     on_quit := fun _ p => p;
     clock := fun _ => "2024-01-01 00:00:00" |}.

(** * Proofs *)

(** ** Rules for [sat] *)

Section SatRules.
Context {W : Type}.
Implicit Types (Q : exn -> Prop).

Lemma sat_ret {A} (a : A) (P : A -> Prop) E : P a -> sat (W:=W) (ret a) P E.
Proof. intros H st. exact H. Qed.

Lemma sat_raise {A} (e : exn) (P : A -> Prop) (E : exn -> Prop) :
  E e -> sat (W:=W) (raise e) P E.
Proof. intros H st. exact H. Qed.

Lemma sat_bind {A B} (m : M W A) (k : A -> M W B) (P1 : A -> Prop)
  (P : B -> Prop) (E : exn -> Prop) :
  sat m P1 E -> (forall a, P1 a -> sat (k a) P E) -> sat (bind m k) P E.
Proof.
  intros Hm Hk st. unfold bind. specialize (Hm st).
  destruct (m st) as [st1 [a|e]]; simpl in *.
  - apply Hk, Hm.
  - exact Hm.
Qed.

Lemma sat_any {A} (m : M W A) : sat m anything anything.
Proof. intros st. destruct (snd (m st)); exact I. Qed.

(** When exceptions are unconstrained only the continuation matters. *)
Lemma sat_seq {A B} (m : M W A) (k : A -> M W B) (P : B -> Prop) :
  (forall a, sat (k a) P anything) -> sat (bind m k) P anything.
Proof.
  intros Hk. apply sat_bind with (P1 := anything).
  - apply sat_any.
  - intros a _. apply Hk.
Qed.

Lemma sat_try_except {A} (m : M W A) handles (h : exn -> M W A)
  (P : A -> Prop) (E1 E : exn -> Prop) :
  sat m P E1 ->
  (forall e, E1 e -> handles e = true -> sat (h e) P E) ->
  (forall e, E1 e -> handles e = false -> E e) ->
  sat (try_except m handles h) P E.
Proof.
  intros Hm Hh He st. unfold try_except. specialize (Hm st).
  destruct (m st) as [st1 [a|e]]; simpl in *.
  - exact Hm.
  - destruct (handles e) eqn:Hd.
    + apply Hh; assumption.
    + simpl. apply He; assumption.
Qed.

Lemma sat_weaken {A} (m : M W A) (P P' : A -> Prop) (E E' : exn -> Prop) :
  sat m P E -> (forall a, P a -> P' a) -> (forall e, E e -> E' e) ->
  sat m P' E'.
Proof.
  intros Hm HP HE st. specialize (Hm st).
  destruct (snd (m st)); auto.
Qed.

End SatRules.

(** ** Rules for [quiet] *)

Section QuietRules.
Context {W : Type}.
Variable env : Env W.
Variable P : event -> bool.

Lemma quiet_same {A} (m : M W A) :
  (forall st, fst (m st) = st) -> quiet P m.
Proof.
  intros H st. rewrite H. repeat split. exists []. split; reflexivity.
Qed.

Lemma quiet_ret {A} (a : A) : quiet (W:=W) P (ret a).
Proof. apply quiet_same. reflexivity. Qed.

Lemma quiet_raise {A} (e : exn) : quiet (W:=W) (A:=A) P (raise e).
Proof. apply quiet_same. reflexivity. Qed.

Lemma quiet_lift {A} (r : result A) : quiet (W:=W) P (lift r).
Proof. apply quiet_same. reflexivity. Qed.

Lemma quiet_now : quiet P (now env).
Proof. apply quiet_same. reflexivity. Qed.

Lemma quiet_the_driver attr : quiet (W:=W) P (the_driver attr).
Proof.
  apply quiet_same. intros st. unfold the_driver.
  destruct (driver st); reflexivity.
Qed.

Lemma quiet_log lvl msg : P (Logged lvl msg) = true -> quiet (W:=W) P (log lvl msg).
Proof.
  intros H st. simpl. repeat split.
  exists [Logged lvl msg]. simpl. rewrite H. split; reflexivity.
Qed.

Lemma quiet_call {A} (c : call A) :
  (forall r, P (Called c r) = true) -> quiet P (call_ env c).
Proof.
  intros H st. unfold call_.
  destruct (respond env c (world st)) as [w' r]. simpl. repeat split.
  exists [Called c r]. simpl. rewrite H. split; reflexivity.
Qed.

Lemma quiet_bind {A B} (m : M W A) (k : A -> M W B) :
  quiet P m -> (forall a, quiet P (k a)) -> quiet P (bind m k).
Proof.
  intros Hm Hk st. unfold bind.
  destruct (Hm st) as (Hd & Hh & evs & Ht & Hp).
  destruct (m st) as [st1 [a|e]]; simpl in *.
  - destruct (Hk a st1) as (Hd' & Hh' & evs' & Ht' & Hp').
    repeat split; try congruence.
    exists (evs' ++ evs)%list. split.
    + rewrite Ht', Ht. apply app_assoc.
    + rewrite forallb_app, Hp, Hp'. reflexivity.
  - repeat split; try assumption. exists evs. split; assumption.
Qed.

Lemma quiet_try_except {A} (m : M W A) handles (h : exn -> M W A) :
  quiet P m -> (forall e, quiet P (h e)) -> quiet P (try_except m handles h).
Proof.
  intros Hm Hh st. unfold try_except.
  destruct (Hm st) as (Hd & Hhd & evs & Ht & Hp).
  destruct (m st) as [st1 [a|e]]; simpl in *.
  - repeat split; try assumption. exists evs. split; assumption.
  - destruct (handles e).
    + destruct (Hh e st1) as (Hd' & Hh' & evs' & Ht' & Hp').
      repeat split; try congruence.
      exists (evs' ++ evs)%list. split.
      * rewrite Ht', Ht. apply app_assoc.
      * rewrite forallb_app, Hp, Hp'. reflexivity.
    + simpl. repeat split; try assumption. exists evs. split; assumption.
Qed.

Lemma quiet_attempt {A} (m : M W A) : quiet P m -> quiet P (attempt m).
Proof.
  intros Hm st. unfold attempt. specialize (Hm st).
  destruct (m st) as [st1 r]. exact Hm.
Qed.

End QuietRules.

(** ** The workflow of one item *)

Ltac quiet_step :=
  first
    [ apply quiet_bind; [ | intros ? ]
    | apply quiet_ret
    | apply quiet_raise
    | apply quiet_lift
    | apply quiet_now
    | apply quiet_the_driver
    | apply quiet_log; reflexivity
    | apply quiet_call; intros ?; reflexivity
    | apply quiet_attempt
    | apply quiet_try_except; [ | intros ? ] ].

Section Workflow.
Context {W : Type}.
Variable env : Env W.
Variable libs : Libs.

Lemma quiet_wait_until timeout cond by_ sel :
  quiet is_item_event (wait_until env timeout cond by_ sel).
Proof.
  unfold wait_until. destruct cond; repeat quiet_step.
Qed.

Lemma quiet_locate cond by_of chain :
  forall found, quiet is_item_event (locate env cond by_of chain found).
Proof.
  induction chain as [|selector rest IH]; intros found; simpl.
  - apply quiet_ret.
  - apply quiet_bind.
    + apply quiet_attempt, quiet_wait_until.
    + intros [el|e].
      * apply quiet_bind.
        -- repeat quiet_step.
        -- intros [[|]|e]; try apply quiet_ret; try apply IH.
           destruct (is_Timeout_or_NoSuchElement e);
             [apply IH | apply quiet_raise].
      * destruct (is_Timeout_or_NoSuchElement e);
          [apply IH | apply quiet_raise].
Qed.

Lemma quiet_debug_screenshot url output_dir stage :
  quiet is_item_event (debug_screenshot env libs url output_dir stage).
Proof. unfold debug_screenshot. repeat quiet_step. Qed.

Lemma quiet_open_page url output_dir :
  quiet is_item_event (open_page env libs url output_dir).
Proof.
  unfold open_page.
  repeat first [apply quiet_wait_until | apply quiet_debug_screenshot | quiet_step].
Qed.

Lemma quiet_enter_url url output_dir el :
  quiet is_item_event (enter_url env libs url output_dir el).
Proof.
  unfold enter_url. repeat first [apply quiet_debug_screenshot | quiet_step].
Qed.

Lemma quiet_submit_url url output_dir el :
  quiet is_item_event (submit_url env libs url output_dir el).
Proof.
  unfold submit_url. repeat first [apply quiet_debug_screenshot | quiet_step].
Qed.

Lemma quiet_enter_email url output_dir el :
  quiet is_item_event (enter_email env libs url output_dir el).
Proof.
  unfold enter_email. repeat first [apply quiet_debug_screenshot | quiet_step].
Qed.

Lemma quiet_submit_email url output_dir el :
  quiet is_item_event (submit_email env libs url output_dir el).
Proof.
  unfold submit_email. repeat first [apply quiet_debug_screenshot | quiet_step].
Qed.

Lemma quiet_handle_email_form url output_dir result :
  quiet is_item_event (handle_email_form env libs url output_dir result).
Proof.
  unfold handle_email_form.
  apply quiet_bind; [apply quiet_locate | intros [el|]]; [ | repeat quiet_step].
  apply quiet_bind; [apply quiet_enter_email | intros _].
  apply quiet_bind; [apply quiet_locate | intros [el'|]]; [ | repeat quiet_step].
  apply quiet_bind; [apply quiet_submit_email | intros _]. apply quiet_ret.
Qed.

Lemma quiet_capture_results url output_dir result :
  quiet is_item_event (capture_results env libs url output_dir result).
Proof.
  unfold capture_results.
  repeat first [apply quiet_wait_until | quiet_step].
Qed.

Lemma quiet_process_url_body url output_dir result :
  quiet is_item_event (process_url_body env libs url output_dir result).
Proof.
  unfold process_url_body.
  apply quiet_bind; [apply quiet_open_page | intros _].
  apply quiet_bind; [apply quiet_locate | intros [el|]]; [ | repeat quiet_step].
  apply quiet_bind; [apply quiet_enter_url | intros _].
  apply quiet_bind; [apply quiet_locate | intros [el'|]]; [ | repeat quiet_step].
  apply quiet_bind; [apply quiet_submit_url | intros _].
  apply quiet_bind.
  - unfold email_step.
    apply quiet_try_except; [apply quiet_handle_email_form | intros e].
    repeat quiet_step.
  - intros [r|]; [apply quiet_ret | apply quiet_capture_results].
Qed.

Lemma quiet_process_url url output_dir :
  quiet is_item_event (process_url env libs url output_dir).
Proof.
  unfold process_url.
  apply quiet_bind; [apply quiet_now | intros ts].
  apply quiet_try_except; [apply quiet_process_url_body | intros e].
  repeat quiet_step.
Qed.

End Workflow.

(** ** The results of one item *)

Section Results.
Context {W : Type}.
Variable env : Env W.
Variable libs : Libs.

Lemma classified_step url ts msg :
  In msg [msg_url_input; msg_submit_button; msg_email_input; msg_final_submit] ->
  classified url (set_error (new_result url ts) msg).
Proof.
  intros H. split; [reflexivity | right].
  repeat split. exists msg. split; [reflexivity | left; exact H].
Qed.

Lemma classified_unexpected url ts e :
  is_Exception e = true ->
  classified url (set_error (new_result url ts) ("Unexpected error: " ++ str_exn e)).
Proof.
  intros H. split; [reflexivity | right].
  repeat split. eexists. split; [reflexivity | right].
  exists e. split; [exact H | left; reflexivity].
Qed.

Lemma classified_email_form url ts e :
  is_Exception e = true ->
  classified url
    (set_error (new_result url ts) ("Failed to handle email form: " ++ str_exn e)).
Proof.
  intros H. split; [reflexivity | right].
  repeat split. eexists. split; [reflexivity | right].
  exists e. split; [exact H | right; reflexivity].
Qed.

Lemma classified_success url ts p :
  classified url
    (set_screenshot_path (set_status (new_result url ts) status_success) p).
Proof.
  split; [reflexivity | left]. repeat split. exists p. reflexivity.
Qed.

Lemma classified_ok url r : classified url r -> Result_ok r.
Proof.
  intros [_ [(Hs & _ & p & Hp) | (Hs & _ & msg & Hm & _)]]; split; intros H;
    try congruence.
  - exists p. exact Hp.
  - exists msg. exact Hm.
Qed.

Lemma sat_handle_email_form url output_dir ts :
  sat (handle_email_form env libs url output_dir (new_result url ts))
      (returned_ok url) anything.
Proof.
  unfold handle_email_form.
  apply sat_seq; intros [el|].
  - apply sat_seq; intros _. apply sat_seq; intros [el'|].
    + apply sat_seq; intros _. apply sat_ret. exact I.
    + apply sat_seq; intros _. apply sat_ret.
      apply classified_step. simpl. tauto.
  - apply sat_seq; intros _. apply sat_ret.
    apply classified_step. simpl. tauto.
Qed.

Lemma sat_capture_results url output_dir ts :
  sat (capture_results env libs url output_dir (new_result url ts))
      (classified url) anything.
Proof.
  unfold capture_results.
  repeat (apply sat_seq; intros ?).
  apply sat_ret, classified_success.
Qed.

Lemma sat_process_url_body url output_dir ts :
  sat (process_url_body env libs url output_dir (new_result url ts))
      (classified url) anything.
Proof.
  unfold process_url_body.
  apply sat_seq; intros _. apply sat_seq; intros [el|].
  - apply sat_seq; intros _. apply sat_seq; intros [el'|].
    + apply sat_seq; intros _.
      apply sat_bind with (P1 := returned_ok url).
      * unfold email_step. apply sat_try_except with (E1 := anything).
        -- apply sat_handle_email_form.
        -- intros e _ He. apply sat_seq; intros _. apply sat_ret.
           apply classified_email_form, He.
        -- intros e _ _. exact I.
      * intros [r|] Hr.
        -- apply sat_ret, Hr.
        -- apply sat_capture_results.
    + apply sat_seq; intros _. apply sat_ret.
      apply classified_step. simpl. tauto.
  - apply sat_seq; intros _. apply sat_ret.
    apply classified_step. simpl. tauto.
Qed.

(** [process_url] lets only exceptions through that do not derive from
    [Exception], and what it returns is classified. *)
Lemma sat_process_url url output_dir :
  sat (process_url env libs url output_dir)
      (classified url) (fun e => is_Exception e = false).
Proof.
  unfold process_url.
  apply sat_bind with (P1 := anything).
  - intros st. exact I.
  - intros ts _.
    apply sat_try_except with (E1 := anything).
    + apply sat_process_url_body.
    + intros e _ He. apply sat_bind with (P1 := anything).
      * intros st. exact I.
      * intros _ _. apply sat_ret, classified_unexpected, He.
    + intros e _ He. exact He.
Qed.

End Results.

(** ** Running a computation along a known path *)

Section Running.
Context {W : Type}.

Lemma bind_ok {A B} (m : M W A) (k : A -> M W B) st st1 a :
  m st = (st1, Ok a) -> bind m k st = k a st1.
Proof. intros H. unfold bind. rewrite H. reflexivity. Qed.

Lemma bind_raise {A B} (m : M W A) (k : A -> M W B) st st1 e :
  m st = (st1, Raise e) -> bind m k st = (st1, Raise e).
Proof. intros H. unfold bind. rewrite H. reflexivity. Qed.

Lemma try_except_ok {A} (m : M W A) handles h st st1 a :
  m st = (st1, Ok a) -> try_except m handles h st = (st1, Ok a).
Proof. intros H. unfold try_except. rewrite H. reflexivity. Qed.

Lemma try_except_caught {A} (m : M W A) handles h st st1 e :
  m st = (st1, Raise e) -> handles e = true ->
  try_except m handles h st = h e st1.
Proof. intros H He. unfold try_except. rewrite H, He. reflexivity. Qed.


End Running.

(** ** Claims on one item *)

(** C4: every Result that [process_url] returns has a screenshot path when
    its status is success and an error message when its status is failed. *)
Theorem process_url_result_invariant :
  forall (W : Type) (env : Env W) (libs : Libs) (url output_dir : string)
         (st st' : state W) (r : Result),
    process_url env libs url output_dir st = (st', Ok r) ->
    Result_ok r.
Proof.
  intros W env libs url output_dir st st' r H.
  apply classified_ok with (url := url).
  pose proof (sat_process_url env libs url output_dir st) as Hs.
  rewrite H in Hs. exact Hs.
Qed.

Lemma process_url_result_invariant_witness :
  exists st' r,
    process_url page_env plain_libs "http://example.com/a" "out/screenshots"
      (running 1 (page_of [] full_dom)) = (st', Ok r)
    /\ r_status r = status_success
    /\ Result_ok r.
Proof.
  eexists. eexists. split; [vm_compute; reflexivity | split; [reflexivity | ]].
  eapply (process_url_result_invariant Page page_env plain_libs
            "http://example.com/a" "out/screenshots"
            (running 1 (page_of [] full_dom))).
  vm_compute. reflexivity.
Defined.




Section StepFailures.
Context {W : Type}.
Variable env : Env W.
Variable libs : Libs.

(** A failed Result returned by the body is what [process_url] returns. *)
Lemma process_url_of_body url output_dir st st' r :
  process_url_body env libs url output_dir
    (new_result url (clock env (world st))) st = (st', Ok r) ->
  process_url env libs url output_dir st = (st', Ok r).
Proof.
  intros H. unfold process_url.
  rewrite (bind_ok _ _ st st (clock env (world st))) by reflexivity.
  apply try_except_ok. exact H.
Qed.

Lemma body_fails_at s url output_dir result st st' :
  loop_ends_empty env libs s url output_dir st st' ->
  exists st'',
    process_url_body env libs url output_dir result st
    = (st'', Ok (set_error result (step_msg s))).
Proof.
  destruct s; simpl; unfold process_url_body.
  - intros (st1 & H1 & H2).
    rewrite (bind_ok _ _ _ _ _ H1), (bind_ok _ _ _ _ _ H2).
    eexists. reflexivity.
  - intros (e1 & st2 & st3 & (st1 & H1 & H2) & H3 & H4).
    rewrite (bind_ok _ _ _ _ _ H1), (bind_ok _ _ _ _ _ H2),
      (bind_ok _ _ _ _ _ H3), (bind_ok _ _ _ _ _ H4).
    eexists. reflexivity.
  - intros (e2 & st4 & st5 & (e1 & st2 & st3 & (st1 & H1 & H2) & H3 & H4)
            & H5 & H6).
    rewrite (bind_ok _ _ _ _ _ H1), (bind_ok _ _ _ _ _ H2),
      (bind_ok _ _ _ _ _ H3), (bind_ok _ _ _ _ _ H4), (bind_ok _ _ _ _ _ H5).
    assert (Hf : exists st'',
               email_step env libs url output_dir result st5
               = (st'', Ok (Some (set_error result msg_email_input)))).
    { unfold email_step, handle_email_form.
      eexists. apply try_except_ok.
      rewrite (bind_ok _ _ _ _ _ H6). reflexivity. }
    destruct Hf as (st'' & Hf). rewrite (bind_ok _ _ _ _ _ Hf).
    eexists. reflexivity.
  - intros (e3 & st6 & st7 &
            (e2 & st4 & st5 & (e1 & st2 & st3 & (st1 & H1 & H2) & H3 & H4)
             & H5 & H6) & H7 & H8).
    rewrite (bind_ok _ _ _ _ _ H1), (bind_ok _ _ _ _ _ H2),
      (bind_ok _ _ _ _ _ H3), (bind_ok _ _ _ _ _ H4), (bind_ok _ _ _ _ _ H5).
    assert (Hf : exists st'',
               email_step env libs url output_dir result st5
               = (st'', Ok (Some (set_error result msg_final_submit)))).
    { unfold email_step, handle_email_form.
      eexists. apply try_except_ok.
      rewrite (bind_ok _ _ _ _ _ H6), (bind_ok _ _ _ _ _ H7),
        (bind_ok _ _ _ _ _ H8). reflexivity. }
    destruct Hf as (st'' & Hf). rewrite (bind_ok _ _ _ _ _ Hf).
    eexists. reflexivity.
Qed.

End StepFailures.

(** When the loop of one of the four mandatory locator steps ends with
    its variable at [None], [process_url] returns a Result with status
    failed whose error message is the message of that step; the four
    messages are pairwise different, the one of the primary input contains
    "input field" and the one of the primary submit names the submit
    control. *)
Theorem empty_loop_identifies_step :
  forall (W : Type) (env : Env W) (libs : Libs) (s : step)
         (url output_dir : string) (st st' : state W),
    loop_ends_empty env libs s url output_dir st st' ->
    (exists st'' r,
       process_url env libs url output_dir st = (st'', Ok r)
       /\ r_status r = status_failed
       /\ r_error r = Some (step_msg s))
    /\ (forall s', step_msg s' = step_msg s -> s' = s)
    /\ is_substring "input field" (step_msg primary_input) = true
    /\ is_substring "submit" (step_msg primary_submit) = true.
Proof.
  intros W env libs s url output_dir st st' H. split; [ | split; [ | split]].
  - destruct (body_fails_at env libs s url output_dir
                (new_result url (clock env (world st))) st st' H) as (st'' & Hb).
    exists st''. eexists. split.
    + apply process_url_of_body. exact Hb.
    + split; reflexivity.
  - intros s' Hs. destruct s, s'; try reflexivity; discriminate Hs.
  - reflexivity.
  - reflexivity.
Qed.

Ltac run_path :=
  repeat match goal with
    | |- exists _, _ => eexists
    | |- _ /\ _ => split
    | |- _ = _ => vm_compute; reflexivity
    | |- _ =>
        progress unfold loop_ends_empty, reaches_final_submit,
          reaches_email_input, reaches_submit_button, reaches_url_input
    end.

Lemma empty_loop_identifies_step_witness :
  (exists st'' r,
     process_url page_env plain_libs "http://example.com/a" "out/screenshots"
       (running 1 (page_of [] (firstn 0 full_dom))) = (st'', Ok r)
     /\ r_status r = status_failed
     /\ r_error r = Some "Could not find URL input field")
  /\ (exists st'' r,
     process_url page_env plain_libs "http://example.com/a" "out/screenshots"
       (running 1 (page_of [] (firstn 1 full_dom))) = (st'', Ok r)
     /\ r_status r = status_failed
     /\ r_error r = Some "Could not find submit button")
  /\ (exists st'' r,
     process_url page_env plain_libs "http://example.com/a" "out/screenshots"
       (running 1 (page_of [] (firstn 2 full_dom))) = (st'', Ok r)
     /\ r_status r = status_failed
     /\ r_error r = Some "Could not find email input field")
  /\ (exists st'' r,
     process_url page_env plain_libs "http://example.com/a" "out/screenshots"
       (running 1 (page_of [] (firstn 3 full_dom))) = (st'', Ok r)
     /\ r_status r = status_failed
     /\ r_error r = Some "Could not find final submit button").
Proof.
  split; [ | split; [ | split]].
  - refine (proj1 (empty_loop_identifies_step Page page_env plain_libs
                     primary_input _ _ _ _ _)).
    run_path.
  - refine (proj1 (empty_loop_identifies_step Page page_env plain_libs
                     primary_submit _ _ _ _ _)).
    run_path.
  - refine (proj1 (empty_loop_identifies_step Page page_env plain_libs
                     secondary_input _ _ _ _ _)).
    run_path.
  - refine (proj1 (empty_loop_identifies_step Page page_env plain_libs
                     secondary_submit _ _ _ _ _)).
    run_path.
Defined.

(** ** The locator loop *)

Section Locate.
Context {W : Type}.
Variable env : Env W.

(** The three ways through the body of the loop. *)
Lemma locate_break cond by_of selector rest found st st1 st2 el :
  wait_until env 3 cond (by_of selector) selector st = (st1, Ok el) ->
  call_ env (IsDisplayed el) st1 = (st2, Ok true) ->
  locate env cond by_of (selector :: rest) found st = (st2, Ok (Some el)).
Proof.
  intros Hw Hd. simpl. unfold bind, attempt. rewrite Hw, Hd. reflexivity.
Qed.

Lemma locate_continue cond by_of selector rest found st st1 e :
  wait_until env 3 cond (by_of selector) selector st = (st1, Raise e) ->
  is_Timeout_or_NoSuchElement e = true ->
  locate env cond by_of (selector :: rest) found st
  = locate env cond by_of rest found st1.
Proof.
  intros Hw He. simpl. unfold bind, attempt. rewrite Hw, He. reflexivity.
Qed.

Lemma locate_not_displayed cond by_of selector rest found st st1 st2 el :
  wait_until env 3 cond (by_of selector) selector st = (st1, Ok el) ->
  call_ env (IsDisplayed el) st1 = (st2, Ok false) ->
  locate env cond by_of (selector :: rest) found st
  = locate env cond by_of rest (Some el) st2.
Proof.
  intros Hw Hd. simpl. unfold bind, attempt. rewrite Hw, Hd. reflexivity.
Qed.

(** Once the loop's variable holds an element the loop never ends with
    [None]: a later selector that times out leaves the variable as it is. *)
Lemma locate_keeps_found cond by_of chain :
  forall found st st' r,
    found <> None ->
    locate env cond by_of chain found st = (st', Ok r) -> r <> None.
Proof.
  induction chain as [|selector rest IH]; intros found st st' r Hf H; simpl in H.
  - injection H as _ H. subst r. exact Hf.
  - unfold bind, attempt in H.
    destruct (wait_until env 3 cond (by_of selector) selector st) as [st1 [el|e]].
    + destruct (call_ env (IsDisplayed el) st1) as [st2 [[|]|e]].
      * injection H as _ H. subst r. discriminate.
      * eapply IH; [ | exact H]. discriminate.
      * destruct (is_Timeout_or_NoSuchElement e).
        -- eapply IH; [ | exact H]. discriminate.
        -- discriminate H.
    + destruct (is_Timeout_or_NoSuchElement e).
      * eapply IH; [exact Hf | exact H].
      * discriminate H.
Qed.

(** Where the resolver of the specification finds an element, the loop
    ends with the same element in the same state: the two differ only
    where no candidate is visible. *)
Lemma resolve_found_locate cond by_of chain :
  forall found st st' el,
    resolve env cond by_of chain st = (st', Ok (Some el)) ->
    locate env cond by_of chain found st = (st', Ok (Some el)).
Proof.
  induction chain as [|selector rest IH]; intros found st st' el H; simpl in *.
  - discriminate H.
  - unfold bind, attempt in *.
    destruct (wait_until env 3 cond (by_of selector) selector st)
      as [st1 [el1|e]].
    + destruct (call_ env (IsDisplayed el1) st1) as [st2 [[|]|e]].
      * exact H.
      * apply IH, H.
      * destruct (is_Timeout_or_NoSuchElement e); [apply IH, H | discriminate H].
    + destruct (is_Timeout_or_NoSuchElement e); [apply IH, H | discriminate H].
Qed.

End Locate.

(** First match wins: nothing matches the first selector, the second and
    the third match displayed elements, and the loop ends with the element
    of the second. *)
Example locate_tie_break :
  snd (locate page_env presence_of_element_located by_css selectors None
         (running 1 (page_of [] tie_break_dom)))
  = Ok (Some 21).
Proof. vm_compute. reflexivity. Qed.

(** C2, on the failing input: the page has one element for the chain of the
    primary input, matched by the first selector and not displayed; no
    other selector matches.  No candidate yields a visible element, yet the
    loop ends with the hidden element instead of [None], and [process_url]
    goes on to the next step instead of reporting the missing input
    field. *)
Theorem locate_returns_hidden_element :
  dom_displayed 11 hidden_input_dom = false
  /\ snd (locate page_env presence_of_element_located by_css selectors None
            (running 1 (page_of [] hidden_input_dom)))
     = Ok (Some 11)
  /\ exists r,
       snd (process_url page_env plain_libs "http://example.com/a"
              "out/screenshots" (running 1 (page_of [] hidden_input_dom)))
       = Ok r
       /\ r_error r = Some msg_submit_button.
Proof.
  split; [reflexivity | split; [vm_compute; reflexivity | ]].
  eexists. split; [vm_compute; reflexivity | reflexivity].
Qed.

(** C5, on the failing input: every step would find its element, but the
    only match of the chain of the primary input is hidden, and [clear()]
    on it raises.  The resolver of the specification reports NotFound for
    the primary input: a resolution failure at the first step.  The loop
    keeps the hidden element (the defect of C2), the workflow goes on, and
    the Result it returns is failed with the message of an unexpected
    error: it carries the message of none of the four steps and does not
    mention the input field. *)
Theorem hidden_input_failure_not_identified :
  let url := "http://example.com/a" in
  let st := running 1 hidden_field_page in
  (exists st1,
     open_page page_env plain_libs url "out/screenshots" st = (st1, Ok tt)
     /\ snd (resolve page_env presence_of_element_located by_css selectors st1)
        = Ok None
     /\ snd (locate page_env presence_of_element_located by_css selectors
               None st1)
        = Ok (Some 11))
  /\ exists r msg,
       snd (process_url page_env plain_libs url "out/screenshots" st) = Ok r
       /\ r_status r = status_failed
       /\ r_error r = Some msg
       /\ msg = "Unexpected error: Message: element not interactable"
       /\ (forall s, msg <> step_msg s)
       /\ is_substring "input field" msg = false.
Proof.
  split.
  - eexists. split; [vm_compute; reflexivity | ].
    split; vm_compute; reflexivity.
  - eexists. eexists. split; [vm_compute; reflexivity | ].
    split; [reflexivity | split; [reflexivity | split; [reflexivity | ]]].
    split; [intros [] ; discriminate | vm_compute; reflexivity].
Qed.

(** ** sanitize_filename *)

Lemma length_take n s : String.length (take n s) <= n.
Proof.
  revert s. induction n as [|n IH]; intros [|c s]; simpl; try lia.
  specialize (IH s). lia.
Qed.

(** C7: [sanitize_filename] is a function of the URL alone, equal inputs
    give equal outputs, and the name it returns has at most 100
    characters. *)
Theorem sanitize_filename_deterministic_bounded :
  forall (libs : Libs) (url1 url2 : string),
    url1 = url2 ->
    sanitize_filename libs url1 = sanitize_filename libs url2
    /\ match sanitize_filename libs url1 with
       | Ok filename => String.length filename <= 100
       | Raise e => urlparse libs url1 = Raise e
       end.
Proof.
  intros libs url1 url2 Heq. split; [rewrite Heq; reflexivity | ].
  unfold sanitize_filename. destruct (urlparse libs url1) as [parsed|e].
  - destruct (Nat.ltb 100 _) eqn:Hlt.
    + apply length_take.
    + apply Nat.ltb_ge in Hlt. exact Hlt.
  - reflexivity.
Qed.

Lemma sanitize_filename_deterministic_bounded_witness :
  sanitize_filename plain_libs "https://Example.COM:80/Some_Path/x.html?q#f"
  = Ok "example-com-80-some-path-x-html"
  /\ 31 <= 100.
Proof.
  pose proof (sanitize_filename_deterministic_bounded plain_libs
                "https://Example.COM:80/Some_Path/x.html?q#f"
                "https://Example.COM:80/Some_Path/x.html?q#f" eq_refl) as [_ H].
  split; [reflexivity | exact H].
Defined.


(** *** What [urlparse] makes of a URL written out *)

Section Parsing.
Local Open Scope string_scope.













End Parsing.




(** The two URLs are then saved to the same screenshot file. *)
Example same_screenshot_file :
  exists p r1 r2,
    snd (process_url page_env plain_libs "http://example.com/a?x=1"
           "out/screenshots" (running 1 (page_of [] full_dom))) = Ok r1
    /\ snd (process_url page_env plain_libs "https://example.com/a#top"
              "out/screenshots" (running 1 (page_of [] full_dom))) = Ok r2
    /\ r_screenshot_path r1 = Some p
    /\ r_screenshot_path r2 = Some p.
Proof.
  eexists. eexists. eexists.
  split; [vm_compute; reflexivity | ].
  split; [vm_compute; reflexivity | ].
  split; reflexivity.
Qed.

(** ** create_zip *)

Section Packaging.
Local Open Scope list_scope.












(** *** Creating the archive *)








End Packaging.




(** ** The batch *)

(** The events that a state has more than an earlier one. *)
Ltac prefix_of l tl :=
  match l with
  | tl => constr:(@nil event)
  | ?x :: ?l' => let p := prefix_of l' tl in constr:(x :: p)
  end.

Ltac exists_new_events :=
  match goal with
  | |- exists evs, ?l = (evs ++ ?tl)%list /\ _ =>
      let p := prefix_of l tl in exists p
  end.

Section Batch.
Context {W : Type}.
Variable env : Env W.
Variable libs : Libs.
Local Open Scope list_scope.

(** The events of an item open and quit no session, read and write no
    manifest, and set up no driver. *)
Lemma item_events_batch_free evs :
  forallb is_item_event evs = true ->
  opened evs = [] /\ quitted evs = [] /\ csv_read evs = []
  /\ csv_written evs = [] /\ existsb is_setup_event evs = false.
Proof.
  induction evs as [|ev evs IH]; simpl; intros H.
  - repeat split.
  - apply andb_true_iff in H. destruct H as [Hev H].
    destruct (IH H) as (Ho & Hq & Hr & Hw & Hs).
    unfold opened, quitted, csv_read, csv_written in *. simpl.
    rewrite Ho, Hq, Hr, Hw, Hs.
    destruct ev as [A c r | d | lvl msg]; simpl in *.
    + destruct c; simpl in *; try discriminate Hev; repeat split.
    + discriminate Hev.
    + repeat split.
Qed.

(** The loop over the URLs: it leaves the driver alone, adds the events of
    items only, and when it ends normally it has appended one Result per
    URL, in order, and every URL to one of the two lists. *)
Lemma for_url_in_spec urls screenshots_dir :
  forall results successful failed st st' out,
    for_url_in env libs urls screenshots_dir results successful failed st
    = (st', out) ->
    driver st' = driver st
    /\ (exists evs,
          trace st' = evs ++ trace st /\ forallb is_item_event evs = true)
    /\ match out with
       | Ok (rs, ss, fs) =>
           exists new,
             rs = results ++ new
             /\ map r_url new = urls
             /\ ss = successful ++ map r_url (filter is_success new)
             /\ fs = failed
                     ++ map r_url (filter (fun r => negb (is_success r)) new)
       | Raise _ => True
       end.
Proof.
  induction urls as [|url rest IH]; intros results successful failed st st' out H.
  - simpl in H. injection H as <- <-. split; [reflexivity | split].
    + exists []. split; reflexivity.
    + exists []. simpl. rewrite !app_nil_r. repeat split.
  - simpl in H. unfold bind at 1 in H.
    destruct (quiet_process_url env libs url screenshots_dir st)
      as (Hd & _ & evs1 & Ht1 & Hp1).
    pose proof (sat_process_url env libs url screenshots_dir st) as Hr.
    destruct (process_url env libs url screenshots_dir st) as [st1 [r|e]];
      simpl in Hd, Ht1, Hr.
    2:{ injection H as <- <-. split; [exact Hd | split; [ | exact I]].
        exists evs1. split; assumption. }
    destruct Hr as [Hurl _].
    unfold bind at 1, call_ at 1 in H.
    destruct (respond env (Sleep 2) (world st1)) as [w2 [[]|e]].
    2:{ injection H as <- <-. simpl. split; [exact Hd | split; [ | exact I]].
        exists (Called (Sleep 2) (Raise e) :: evs1). simpl.
        rewrite Ht1, Hp1. split; reflexivity. }
    apply IH in H. destruct H as (Hd2 & (evs2 & Ht2 & Hp2) & Hout).
    simpl in Hd2, Ht2.
    split; [congruence | split].
    + exists (evs2 ++ Called (Sleep 2) (Ok tt) :: evs1). split.
      * rewrite Ht2, Ht1, <- app_assoc. reflexivity.
      * rewrite forallb_app, Hp2. simpl. exact Hp1.
    + destruct out as [[[rs ss] fs]|e]; [ | exact I].
      destruct Hout as (new & Hrs & Hmap & Hss & Hfs).
      exists (r :: new).
      assert (Hs : is_success r = Status_eqb (r_status r) status_success)
        by reflexivity.
      destruct (Status_eqb (r_status r) status_success);
        simpl; rewrite Hs; simpl; rewrite Hrs, Hss, Hfs, Hmap, Hurl;
        rewrite <- ?app_assoc; repeat split; reflexivity.
Qed.

(** [setup_driver] quits nothing and touches no manifest.  Either it opens
    no session and leaves [self.driver] alone, or it opens one session and
    stores it in [self.driver], whether it then returns or raises. *)
Lemma setup_driver_spec st :
  exists evs,
    trace (fst (setup_driver env st)) = evs ++ trace st
    /\ quitted evs = [] /\ csv_read evs = [] /\ csv_written evs = []
    /\ ((driver (fst (setup_driver env st)) = driver st /\ opened evs = []
         /\ exists e, snd (setup_driver env st) = Raise e)
        \/ (exists d, driver (fst (setup_driver env st)) = Some d
                      /\ opened evs = [d])).
Proof.
  unfold setup_driver, bind, log, get_headless, try_except, call_; simpl.
  destruct (respond env (NewChrome _) (world st)) as [w1 [d|e]]; simpl.
  - destruct (respond env (SetPageLoadTimeout d 60) w1) as [w2 [[]|e]]; simpl;
      [ | destruct (is_WebDriverException e); simpl ];
      exists_new_events; (split; [reflexivity | ]);
      repeat split; right; exists d; split; reflexivity.
  - destruct (is_WebDriverException e); simpl;
      exists_new_events; (split; [reflexivity | ]);
      repeat split; left; repeat split; exists e; reflexivity.
Qed.

Lemma bind_log {A} lvl msg (k : unit -> M W A) st :
  bind (log lvl msg) k st = k tt (record (Logged lvl msg) st).
Proof. reflexivity. Qed.

(** The body of the [try] of [process_csv]: it quits nothing, opens at
    most the session it stores in [self.driver], and when it returns it
    has read one data frame; for an empty first column it returns two
    empty lists without setting up a driver, otherwise it has written one
    manifest with one Result per URL, in order, and returns the URLs of the
    successes and of the failures. *)
Lemma process_csv_body_spec csv_path output_path screenshots_dir st st' res :
  process_csv_body env libs csv_path output_path screenshots_dir st = (st', res) ->
  exists evs,
    trace st' = evs ++ trace st
    /\ quitted evs = []
    /\ ((driver st' = driver st /\ opened evs = [])
        \/ (exists d, driver st' = Some d /\ opened evs = [d]))
    /\ match res with
       | Ok (successful, failed) =>
           exists df,
             csv_read evs = [df]
             /\ match first_column df with
                | [] =>
                    successful = [] /\ failed = []
                    /\ existsb is_setup_event evs = false
                    /\ csv_written evs = []
                | _ :: _ =>
                    exists results,
                      csv_written evs
                      = [(path_join output_path "results.csv", results)]
                      /\ map r_url results = first_column df
                      /\ successful = map r_url (filter is_success results)
                      /\ failed
                         = map r_url
                             (filter (fun r => negb (is_success r)) results)
                end
       | Raise _ => csv_written evs = []
       end.
Proof.
  intros H. unfold process_csv_body in H.
  unfold bind at 1, call_ at 1 in H.
  destruct (respond env (ReadCsv csv_path) (world st)) as [w1 [df|e]].
  2:{ injection H as <- <-. simpl. exists_new_events.
      repeat split. left. split; reflexivity. }
  destruct (Nat.eqb (shape1 df) 0).
  { rewrite bind_log in H. injection H as <- <-. simpl. exists_new_events.
    repeat split. left. split; reflexivity. }
  destruct (first_column df) as [|u us] eqn:Hurls.
  { rewrite bind_log in H. injection H as <- <-. simpl. exists_new_events.
    split; [reflexivity | split; [reflexivity | split]].
    - left. split; reflexivity.
    - exists df. rewrite Hurls. repeat split. }
  rewrite bind_log in H. unfold bind at 1 in H.
  match type of H with
  | context [setup_driver env ?s] =>
      destruct (setup_driver_spec s) as (evs3 & Ht3 & Hq3 & Hr3 & Hw3 & Hd3);
      destruct (setup_driver env s) as [st3 [[]|e]]
  end; simpl in Ht3, Hd3.
  2:{ injection H as <- <-.
      exists (evs3 ++ [Logged INFO ("Found " ++ str_nat (length (u :: us))
                                    ++ " URLs to process");
                       Called (ReadCsv csv_path) (Ok df)]).
      split; [rewrite Ht3, <- app_assoc; reflexivity | ].
      unfold quitted, opened in *. rewrite !flat_map_app. simpl.
      rewrite !app_nil_r.
      split; [exact Hq3 | split].
      - destruct Hd3 as [(Hd & Ho & _) | (d & Hd & Ho)];
          [left | right; exists d]; split; assumption.
      - unfold csv_written in *. rewrite flat_map_app, Hw3. reflexivity. }
  destruct Hd3 as [(_ & _ & e & He) | (d & Hd3 & Ho3)]; [discriminate He | ].
  unfold bind at 1 in H.
  destruct (for_url_in env libs (u :: us) screenshots_dir [] [] [] st3)
    as [st4 [[[results successful] failed]|e]] eqn:Hloop;
    apply for_url_in_spec in Hloop;
    destruct Hloop as (Hd4 & (evs4 & Ht4 & Hp4) & Hout);
    destruct (item_events_batch_free evs4 Hp4) as (Ho4 & Hq4 & Hr4 & Hw4 & Hs4).
  2:{ injection H as <- <-.
      exists (evs4 ++ evs3
              ++ [Logged INFO ("Found " ++ str_nat (length (u :: us))
                               ++ " URLs to process");
                  Called (ReadCsv csv_path) (Ok df)]).
      split; [rewrite Ht4, Ht3; simpl; rewrite <- ?app_assoc; reflexivity | ].
      unfold quitted, opened, csv_written in *. rewrite !flat_map_app. simpl.
      rewrite Hq4, Hq3, Ho4, Ho3, Hw4, Hw3. simpl.
      split; [reflexivity | split; [ | reflexivity]].
      right. exists d. split; [congruence | reflexivity]. }
  destruct Hout as (new & Hnew & Hmap & Hss & Hfs). simpl in Hnew, Hss, Hfs.
  subst results successful failed.
  unfold bind at 1, call_ at 1 in H.
  destruct (respond env (ToCsv _ new) (world st4)) as [w5 [[]|e]].
  2:{ injection H as <- <-. simpl.
      exists (Called (ToCsv (path_join output_path "results.csv") new) (Raise e)
              :: evs4 ++ evs3
              ++ [Logged INFO ("Found " ++ str_nat (length (u :: us))
                               ++ " URLs to process");
                  Called (ReadCsv csv_path) (Ok df)]).
      split; [rewrite Ht4, Ht3; simpl; rewrite <- ?app_assoc; reflexivity | ].
      unfold quitted, opened, csv_written in *. simpl.
      rewrite !flat_map_app. simpl.
      rewrite Hq4, Hq3, Ho4, Ho3, Hw4, Hw3. simpl.
      split; [reflexivity | split; [ | reflexivity]].
      right. exists d. split; [congruence | reflexivity]. }
  rewrite !bind_log in H. injection H as <- <-. simpl.
  match goal with
  | |- exists evs, ?a :: ?b :: ?c :: ?e :: ?f :: trace st4 = _ /\ _ =>
      exists ([a; b; c; e; f] ++ evs4 ++ evs3
              ++ [Logged INFO ("Found " ++ str_nat (length (u :: us))
                               ++ " URLs to process");
                  Called (ReadCsv csv_path) (Ok df)])
  end.
  split; [rewrite Ht4, Ht3; simpl; rewrite <- ?app_assoc; reflexivity | ].
  unfold quitted, opened, csv_read, csv_written in *.
  rewrite !flat_map_app. simpl.
  rewrite Hq4, Hq3, Ho4, Ho3, Hr4, Hr3, Hw4, Hw3. simpl.
  split; [reflexivity | split].
  - right. exists d. split; [congruence | reflexivity].
  - exists df. split; [reflexivity | ]. rewrite Hurls.
    exists new. repeat split. exact Hmap.
Qed.

Lemma cleanup_spec st :
  cleanup env st
  = match driver st with
    | Some d =>
        ({| driver := None; headless := headless st;
            world := on_quit env d (world st);
            trace := Quit d :: Logged INFO "Closing WebDriver..." :: trace st |},
         Ok tt)
    | None => (st, Ok tt)
    end.
Proof.
  unfold cleanup, bind, get_driver. destruct (driver st); reflexivity.
Qed.

(** The [try] with its handler: the handler logs and raises again, so a
    value comes from the body alone, and the facts on the events stay. *)
Lemma process_csv_try_spec csv_path output_path screenshots_dir st st' res :
  try_except
    (process_csv_body env libs csv_path output_path screenshots_dir)
    is_Exception
    (fun e => bind (log ERROR ("Error processing CSV: " ++ str_exn e))
                (fun _ => raise e)) st = (st', res) ->
  exists evs,
    trace st' = evs ++ trace st
    /\ quitted evs = []
    /\ ((driver st' = driver st /\ opened evs = [])
        \/ (exists d, driver st' = Some d /\ opened evs = [d]))
    /\ match res with
       | Ok v =>
           process_csv_body env libs csv_path output_path screenshots_dir st
           = (st', Ok v)
       | Raise _ => csv_written evs = []
       end.
Proof.
  unfold try_except. intros H.
  destruct (process_csv_body env libs csv_path output_path screenshots_dir st)
    as [st1 [v|e]] eqn:Hb;
    destruct (process_csv_body_spec _ _ _ _ _ _ Hb) as (evs1 & Ht & Hq & Hd & Hw).
  - injection H as <- <-. exists evs1. repeat split; assumption.
  - destruct (is_Exception e).
    + rewrite bind_log in H. injection H as <- <-. simpl.
      exists (Logged ERROR ("Error processing CSV: " ++ str_exn e) :: evs1).
      split; [rewrite Ht; reflexivity | ].
      repeat split; assumption.
    + injection H as <- <-. exists evs1. repeat split; assumption.
Qed.

End Batch.

Section BatchClaims.
Context {W : Type}.
Variable env : Env W.
Variable libs : Libs.
Local Open Scope list_scope.

Lemma process_csv_sessions csv_path output_dir st st' res :
  driver st = None ->
  process_csv env libs csv_path output_dir st = (st', res) ->
  driver st' = None
  /\ exists evs,
       trace st' = evs ++ trace st
       /\ quitted evs = opened evs
       /\ match res with
          | Ok _ => True
          | Raise _ => csv_written evs = []
          end.
Proof.
  intros Hnone H. unfold process_csv in H.
  unfold bind at 1, call_ at 1 in H.
  destruct (respond env (Mkdir _) (world st)) as [w1 [[]|e]].
  2:{ injection H as <- <-. simpl. split; [exact Hnone | ].
      exists_new_events. repeat split. }
  unfold try_finally in H.
  match type of H with
  | context [try_except ?m ?hd ?h ?s] =>
      destruct (try_except m hd h s) as [st2 res2] eqn:Htry
  end.
  apply process_csv_try_spec in Htry.
  destruct Htry as (evs1 & Ht & Hq & Hd & Hres).
  simpl in Ht, Hd. rewrite cleanup_spec in H.
  set (mk := Called (Mkdir (path_join output_dir "screenshots")) (Ok tt)) in *.
  assert (Hw : match res2 with
               | Ok _ => True
               | Raise _ => csv_written (evs1 ++ [mk]) = []
               end).
  { destruct res2; [exact I | ].
    unfold csv_written in *. rewrite flat_map_app, Hres. reflexivity. }
  destruct Hd as [(Hd & Ho) | (d & Hd & Ho)]; rewrite Hd in H.
  - rewrite Hnone in H. injection H as <- <-.
    split; [congruence | ]. exists (evs1 ++ [mk]).
    split; [rewrite Ht, <- app_assoc; reflexivity | ].
    split; [ | exact Hw].
    unfold quitted, opened in *. rewrite !flat_map_app, Hq, Ho. reflexivity.
  - injection H as <- <-. simpl. split; [reflexivity | ].
    exists (Quit d :: Logged INFO "Closing WebDriver..." :: evs1 ++ [mk]).
    split; [rewrite Ht; simpl; rewrite <- app_assoc; reflexivity | ].
    split; [ | exact Hw].
    unfold quitted, opened in *. simpl. rewrite !flat_map_app, Hq, Ho.
    reflexivity.
Qed.

Lemma process_csv_manifest csv_path output_dir st st' successful failed :
  process_csv env libs csv_path output_dir st = (st', Ok (successful, failed)) ->
  exists evs df,
    trace st' = evs ++ trace st
    /\ csv_read evs = [df]
    /\ match first_column df with
       | [] => successful = [] /\ failed = []
       | _ :: _ =>
           exists results,
             csv_written evs = [(path_join output_dir "results.csv", results)]
             /\ map r_url results = first_column df
             /\ successful = map r_url (filter is_success results)
             /\ failed
                = map r_url (filter (fun r => negb (is_success r)) results)
       end.
Proof.
  intros H. unfold process_csv in H.
  unfold bind at 1, call_ at 1 in H.
  destruct (respond env (Mkdir _) (world st)) as [w1 [[]|e]];
    [ | discriminate H].
  unfold try_finally in H.
  match type of H with
  | context [try_except ?m ?hd ?h ?s] =>
      destruct (try_except m hd h s) as [st2 res2] eqn:Htry
  end.
  rewrite cleanup_spec in H.
  assert (Hres : res2 = Ok (successful, failed)).
  { destruct (driver st2); injection H as _ H; exact H. }
  subst res2.
  apply process_csv_try_spec in Htry.
  destruct Htry as (_ & _ & _ & _ & Hb).
  apply process_csv_body_spec in Hb.
  destruct Hb as (evs & Ht & _ & _ & df & Hr & Hcol). simpl in Ht.
  assert (Hclean : exists evs3,
             trace st' = evs3 ++ trace st2
             /\ csv_read evs3 = [] /\ csv_written evs3 = []).
  { destruct (driver st2); injection H as <- .
    - simpl. exists_new_events. repeat split.
    - exists []. repeat split. }
  destruct Hclean as (evs3 & Ht3 & Hr3 & Hw3).
  exists (evs3 ++ evs ++ [Called (Mkdir (path_join output_dir "screenshots"))
                            (Ok tt)]), df.
  split; [rewrite Ht3, Ht, <- !app_assoc; reflexivity | ].
  unfold csv_read, csv_written in *. rewrite !flat_map_app, Hr3, Hw3, Hr.
  simpl. split; [reflexivity | ].
  destruct (first_column df) as [|u us].
  - destruct Hcol as (Hs & Hf & _). split; assumption.
  - destruct Hcol as (results & Hw & Hrest). exists results.
    rewrite Hw, app_nil_r. split; [reflexivity | exact Hrest].
Qed.

End BatchClaims.

(** C1: when [process_csv] returns for a list of N URLs that is not empty,
    the manifest it wrote holds exactly N Results, the one of the i-th URL
    at the i-th place, and the two lists it returns partition the URLs:
    their lengths add up to N. *)
Theorem process_csv_one_result_per_item :
  forall (W : Type) (env : Env W) (libs : Libs) (csv_path output_dir : string)
         (st st' : state W) (successful failed : list string),
    process_csv env libs csv_path output_dir st
    = (st', Ok (successful, failed)) ->
    exists evs df,
      trace st' = (evs ++ trace st)%list
      /\ csv_read evs = [df]
      /\ length successful + length failed = length (first_column df)
      /\ (first_column df <> [] ->
          exists results,
            csv_written evs = [(path_join output_dir "results.csv", results)]
            /\ length results = length (first_column df)
            /\ map r_url results = first_column df
            /\ successful = map r_url (filter is_success results)
            /\ failed
               = map r_url (filter (fun r => negb (is_success r)) results)).
Proof.
  intros W env libs csv_path output_dir st st' successful failed H.
  destruct (process_csv_manifest env libs _ _ _ _ _ _ H)
    as (evs & df & Ht & Hr & Hcol).
  exists evs, df. split; [exact Ht | split; [exact Hr | ]].
  destruct (first_column df) as [|u us].
  - destruct Hcol as (-> & ->). split; [reflexivity | ].
    intros Hne. contradiction Hne. reflexivity.
  - destruct Hcol as (results & Hw & Hmap & Hs & Hf).
    assert (Hlen : length results = length (u :: us)).
    { rewrite <- Hmap, length_map. reflexivity. }
    split.
    + rewrite Hs, Hf, !length_map, filter_length. exact Hlen.
    + intros _. exists results. repeat split; assumption.
Qed.

Lemma process_csv_one_result_per_item_witness :
  exists st',
    process_csv page_env plain_libs "urls.csv" "out" (fresh mixed_page)
    = (st', Ok (["example.com"], ["bad.invalid"]))
    /\ exists evs df,
         trace st' = (evs ++ [])%list
         /\ csv_read evs = [df]
         /\ 1 + 1 = length (first_column df).
Proof.
  eexists. split; [vm_compute; reflexivity | ].
  destruct (process_csv_one_result_per_item Page page_env plain_libs
              "urls.csv" "out" (fresh mixed_page) _
              ["example.com"] ["bad.invalid"]
              ltac:(vm_compute; reflexivity))
    as (evs & df & Ht & Hr & Hlen & _).
  exists evs, df. split; [exact Ht | split; [exact Hr | exact Hlen]].
Defined.

(** C6: whatever way [process_csv] ends, by returning or by raising, an
    interrupt in the middle of an item included, the object that entered
    without a driver leaves without one, and every session opened during
    the run has been quit; a run that ends by raising has written no
    manifest. *)
Theorem process_csv_releases_session :
  forall (W : Type) (env : Env W) (libs : Libs) (csv_path output_dir : string)
         (st : state W),
    driver st = None ->
    driver (fst (process_csv env libs csv_path output_dir st)) = None
    /\ exists evs,
         trace (fst (process_csv env libs csv_path output_dir st))
         = (evs ++ trace st)%list
         /\ quitted evs = opened evs
         /\ match snd (process_csv env libs csv_path output_dir st) with
            | Ok _ => True
            | Raise _ => csv_written evs = []
            end.
Proof.
  intros W env libs csv_path output_dir st Hnone.
  apply (process_csv_sessions env libs csv_path output_dir st _ _ Hnone).
  apply surjective_pairing.
Qed.

Lemma process_csv_releases_session_witness :
  snd (process_csv page_env plain_libs "urls.csv" "out" (fresh interrupted_page))
  = Raise KeyboardInterrupt
  /\ csv_written
       (trace (fst (process_csv page_env plain_libs "urls.csv" "out"
                      (fresh interrupted_page)))) = []
  /\ opened
       (trace (fst (process_csv page_env plain_libs "urls.csv" "out"
                      (fresh interrupted_page)))) = [1]
  /\ driver (fst (process_csv page_env plain_libs "urls.csv" "out"
                    (fresh interrupted_page))) = None.
Proof.
  split; [vm_compute; reflexivity | ].
  split; [vm_compute; reflexivity | ].
  split; [vm_compute; reflexivity | ].
  exact (proj1 (process_csv_releases_session Page page_env plain_libs
                  "urls.csv" "out" (fresh interrupted_page) eq_refl)).
Defined.

(** C9: when the directory is made and the file read has columns and no
    row, [process_csv] returns two empty lists, raises nothing, and makes
    no call to set up a driver: no session is opened. *)
Theorem process_csv_empty_input :
  forall (W : Type) (env : Env W) (libs : Libs) (csv_path output_dir : string)
         (st : state W) (w1 w2 : W) (df : DataFrame),
    respond env (Mkdir (path_join output_dir "screenshots")) (world st)
    = (w1, Ok tt) ->
    respond env (ReadCsv csv_path) w1 = (w2, Ok df) ->
    shape1 df <> 0 ->
    first_column df = [] ->
    exists st' evs,
      process_csv env libs csv_path output_dir st = (st', Ok ([], []))
      /\ trace st' = (evs ++ trace st)%list
      /\ existsb is_setup_event evs = false
      /\ opened evs = [].
Proof.
  intros W env libs csv_path output_dir st w1 w2 df Hmk Hrd Hshape Hcol.
  unfold process_csv, process_csv_body, try_finally, try_except.
  unfold bind at 1, call_ at 1. rewrite Hmk.
  unfold bind at 1, call_ at 1. cbn [world]. rewrite Hrd.
  apply Nat.eqb_neq in Hshape. rewrite Hshape, Hcol, bind_log.
  cbn [ret]. rewrite cleanup_spec. cbn [driver record].
  destruct (driver st) as [d|].
  - eexists.
    exists [Quit d; Logged INFO "Closing WebDriver...";
            Logged WARNING "No URLs found in the CSV file";
            Called (ReadCsv csv_path) (Ok df);
            Called (Mkdir (path_join output_dir "screenshots")) (Ok tt)].
    repeat split.
  - eexists.
    exists [Logged WARNING "No URLs found in the CSV file";
            Called (ReadCsv csv_path) (Ok df);
            Called (Mkdir (path_join output_dir "screenshots")) (Ok tt)].
    repeat split.
Qed.

Lemma process_csv_empty_input_witness :
  exists st' evs,
    process_csv page_env plain_libs "urls.csv" "out" (fresh empty_page)
    = (st', Ok ([], []))
    /\ trace st' = (evs ++ [])%list
    /\ existsb is_setup_event evs = false
    /\ opened evs = [].
Proof.
  exact (process_csv_empty_input Page page_env plain_libs "urls.csv" "out"
           (fresh empty_page) empty_page empty_page [[]]
           eq_refl eq_refl ltac:(discriminate) eq_refl).
Defined.

(** * Further properties *)

(** ** setup_driver and cleanup *)

(** [cleanup] quits the session of [self.driver], when there is one, and
    leaves the object without a driver ([quit] is taken to return); run a
    second time it does nothing: it quits nothing and logs nothing. *)
Theorem cleanup_clears_and_is_idempotent :
  forall (W : Type) (env : Env W) (st : state W),
    driver (fst (cleanup env st)) = None
    /\ cleanup env (fst (cleanup env st)) = (fst (cleanup env st), Ok tt)
    /\ quitted (trace (fst (cleanup env st)))
       = (match driver st with Some d => [d] | None => [] end
          ++ quitted (trace st))%list.
Proof.
  intros W env st. rewrite cleanup_spec.
  destruct (driver st) as [d|] eqn:Hd; simpl.
  - repeat split.
  - rewrite cleanup_spec, Hd. repeat split.
Qed.

(** When [webdriver.Chrome(...)] raises, [setup_driver] raises the same
    exception and [self.driver] is what it was; the failure is logged as an
    error exactly when the exception is a [WebDriverException], and no page
    load timeout is set. *)
Theorem setup_driver_chrome_failure :
  forall (W : Type) (env : Env W) (st : state W) (w1 : W) (e : exn),
    respond env (NewChrome (chrome_arguments (headless st))) (world st)
    = (w1, Raise e) ->
    exists st' evs,
      setup_driver env st = (st', Raise e)
      /\ driver st' = driver st
      /\ trace st' = (evs ++ trace st)%list
      /\ error_lines evs
         = (if is_WebDriverException e
            then ["Failed to set up WebDriver: " ++ str_exn e] else [])
      /\ page_load_timeouts evs = []
      /\ opened evs = [].
Proof.
  intros W env st w1 e H.
  unfold setup_driver, bind, log, get_headless, try_except, call_; simpl.
  change ((if headless st then ["--headless"] else []) ++
          ["--disable-gpu"; "--window-size=1920,1080"; "--no-sandbox";
           "--disable-dev-shm-usage"])%list
    with (chrome_arguments (headless st)).
  rewrite H. destruct (is_WebDriverException e); simpl.
  - eexists.
    exists [Logged ERROR ("Failed to set up WebDriver: " ++ str_exn e);
            Called (NewChrome (chrome_arguments (headless st))) (Raise e);
            Logged INFO "Using Homebrew-installed chromedriver";
            Logged INFO "Setting up WebDriver..."].
    repeat split.
  - eexists.
    exists [Called (NewChrome (chrome_arguments (headless st))) (Raise e);
            Logged INFO "Using Homebrew-installed chromedriver";
            Logged INFO "Setting up WebDriver..."].
    repeat split.
Qed.

Lemma setup_driver_chrome_failure_witness :
  exists st' evs,
    setup_driver page_env (fresh (faulty_page [] 0 (WebDriverException "no chrome")))
    = (st', Raise (WebDriverException "no chrome"))
    /\ driver st' = None
    /\ trace st' = (evs ++ [])%list
    /\ error_lines evs = ["Failed to set up WebDriver: no chrome"]
    /\ page_load_timeouts evs = []
    /\ opened evs = [].
Proof.
  exact (setup_driver_chrome_failure Page page_env
           (fresh (faulty_page [] 0 (WebDriverException "no chrome")))
           (page_of [] []) (WebDriverException "no chrome") eq_refl).
Defined.

(** [setup_driver] asks for Chrome exactly once, in headless mode exactly
    when [self.headless] is set; when Chrome starts and takes the page load
    timeout, [setup_driver] returns with the new session in [self.driver]
    and a timeout of 60 seconds set on that session. *)
Theorem setup_driver_success :
  forall (W : Type) (env : Env W) (st : state W) (w1 w2 : W) (d : handle),
    respond env (NewChrome (chrome_arguments (headless st))) (world st)
    = (w1, Ok d) ->
    respond env (SetPageLoadTimeout d 60) w1 = (w2, Ok tt) ->
    exists st' evs,
      setup_driver env st = (st', Ok tt)
      /\ driver st' = Some d
      /\ world st' = w2
      /\ trace st' = (evs ++ trace st)%list
      /\ chrome_requests evs = [chrome_arguments (headless st)]
      /\ (In "--headless" (chrome_arguments (headless st))
          <-> headless st = true)
      /\ page_load_timeouts evs = [(d, 60)]
      /\ opened evs = [d]
      /\ error_lines evs = [].
Proof.
  intros W env st w1 w2 d H1 H2.
  unfold setup_driver, bind, log, get_headless, try_except, call_; simpl.
  change ((if headless st then ["--headless"] else []) ++
          ["--disable-gpu"; "--window-size=1920,1080"; "--no-sandbox";
           "--disable-dev-shm-usage"])%list
    with (chrome_arguments (headless st)).
  rewrite H1. simpl. rewrite H2. simpl.
  eexists.
  exists [Logged INFO "WebDriver setup complete";
          Called (SetPageLoadTimeout d 60) (Ok tt);
          Called (NewChrome (chrome_arguments (headless st))) (Ok d);
          Logged INFO "Using Homebrew-installed chromedriver";
          Logged INFO "Setting up WebDriver..."].
  split; [reflexivity | ]. repeat split.
  - intros Hin. destruct (headless st); [reflexivity | ].
    simpl in Hin.
    repeat (destruct Hin as [Hin | Hin]; [discriminate Hin | ]).
    contradiction.
  - intros ->. simpl. left. reflexivity.
Qed.

Lemma setup_driver_success_witness :
  exists st' evs,
    setup_driver page_env (fresh (page_of [] full_dom)) = (st', Ok tt)
    /\ driver st' = Some 1
    /\ trace st' = (evs ++ [])%list
    /\ chrome_requests evs = [chrome_arguments true]
    /\ page_load_timeouts evs = [(1, 60)].
Proof.
  destruct (setup_driver_success Page page_env (fresh (page_of [] full_dom))
              (page_of [] full_dom) (page_of [] full_dom) 1 eq_refl eq_refl)
    as (st' & evs & H & Hd & _ & Ht & Hc & _ & Hp & _).
  exists st', evs. repeat split; assumption.
Defined.

(** When Chrome starts and setting the page load timeout raises,
    [setup_driver] raises that exception with the new session already in
    [self.driver]; a [cleanup] that follows quits this session and clears
    the handle. *)
Theorem setup_driver_late_failure_is_released :
  forall (W : Type) (env : Env W) (st : state W) (w1 w2 : W) (d : handle)
         (e : exn),
    respond env (NewChrome (chrome_arguments (headless st))) (world st)
    = (w1, Ok d) ->
    respond env (SetPageLoadTimeout d 60) w1 = (w2, Raise e) ->
    exists st1 st2 evs,
      setup_driver env st = (st1, Raise e)
      /\ driver st1 = Some d
      /\ cleanup env st1 = (st2, Ok tt)
      /\ driver st2 = None
      /\ trace st2 = (evs ++ trace st)%list
      /\ opened evs = [d]
      /\ quitted evs = [d].
Proof.
  intros W env st w1 w2 d e H1 H2.
  unfold setup_driver, bind, log, get_headless, try_except, call_; simpl.
  change ((if headless st then ["--headless"] else []) ++
          ["--disable-gpu"; "--window-size=1920,1080"; "--no-sandbox";
           "--disable-dev-shm-usage"])%list
    with (chrome_arguments (headless st)).
  rewrite H1. simpl. rewrite H2. simpl.
  destruct (is_WebDriverException e); simpl.
  - eexists. eexists.
    exists [Quit d; Logged INFO "Closing WebDriver...";
            Logged ERROR ("Failed to set up WebDriver: " ++ str_exn e);
            Called (SetPageLoadTimeout d 60) (Raise e);
            Called (NewChrome (chrome_arguments (headless st))) (Ok d);
            Logged INFO "Using Homebrew-installed chromedriver";
            Logged INFO "Setting up WebDriver..."].
    split; [reflexivity | ]. split; [reflexivity | ].
    rewrite cleanup_spec. simpl. repeat split.
  - eexists. eexists.
    exists [Quit d; Logged INFO "Closing WebDriver...";
            Called (SetPageLoadTimeout d 60) (Raise e);
            Called (NewChrome (chrome_arguments (headless st))) (Ok d);
            Logged INFO "Using Homebrew-installed chromedriver";
            Logged INFO "Setting up WebDriver..."].
    split; [reflexivity | ]. split; [reflexivity | ].
    rewrite cleanup_spec. simpl. repeat split.
Qed.

Lemma setup_driver_late_failure_is_released_witness :
  exists st1 st2 evs,
    setup_driver page_env
      (fresh (faulty_page [] 1 (WebDriverException "timeout not set")))
    = (st1, Raise (WebDriverException "timeout not set"))
    /\ driver st1 = Some 1
    /\ cleanup page_env st1 = (st2, Ok tt)
    /\ driver st2 = None
    /\ trace st2 = (evs ++ [])%list
    /\ opened evs = [1]
    /\ quitted evs = [1].
Proof.
  exact (setup_driver_late_failure_is_released Page page_env
           (fresh (faulty_page [] 1 (WebDriverException "timeout not set")))
           (faulty_page [] 0 (WebDriverException "timeout not set"))
           (page_of [] []) 1 (WebDriverException "timeout not set")
           eq_refl eq_refl).
Defined.

(** ** Fatal errors of the batch *)

Section BatchErrors.
Context {W : Type}.
Variable env : Env W.
Variable libs : Libs.
Local Open Scope list_scope.

(** What [setup_driver] does when Chrome does not start. *)
Lemma setup_driver_raise_eq st w1 e :
  respond env (NewChrome (chrome_arguments (headless st))) (world st)
  = (w1, Raise e) ->
  setup_driver env st
  = ({| driver := driver st; headless := headless st; world := w1;
        trace :=
          (if is_WebDriverException e
           then [Logged ERROR ("Failed to set up WebDriver: " ++ str_exn e)]
           else [])
          ++ Called (NewChrome (chrome_arguments (headless st))) (Raise e)
          :: Logged INFO "Using Homebrew-installed chromedriver"
          :: Logged INFO "Setting up WebDriver..." :: trace st |},
     Raise e).
Proof.
  intros H.
  unfold setup_driver, bind, log, get_headless, try_except, call_; simpl.
  change ((if headless st then ["--headless"] else []) ++
          ["--disable-gpu"; "--window-size=1920,1080"; "--no-sandbox";
           "--disable-dev-shm-usage"])
    with (chrome_arguments (headless st)).
  rewrite H. destruct (is_WebDriverException e); reflexivity.
Qed.

(** The state in which the [try] of [process_csv] starts. *)
Lemma process_csv_unfold csv_path output_dir st w1 :
  respond env (Mkdir (path_join output_dir "screenshots")) (world st)
  = (w1, Ok tt) ->
  process_csv env libs csv_path output_dir st
  = try_finally
      (try_except
         (process_csv_body env libs csv_path output_dir
            (path_join output_dir "screenshots"))
         is_Exception
         (fun e => bind (log ERROR ("Error processing CSV: " ++ str_exn e))
                     (fun _ => raise e)))
      (cleanup env)
      {| driver := driver st; headless := headless st; world := w1;
         trace := Called (Mkdir (path_join output_dir "screenshots")) (Ok tt)
                  :: trace st |}.
Proof.
  intros H. unfold process_csv. unfold bind at 1, call_ at 1.
  rewrite H. reflexivity.
Qed.

End BatchErrors.

(** The output directory is made before the [try]: when making it raises,
    [process_csv] raises the same exception at once; it reads no file, sets
    up no driver, logs nothing and, never reaching [cleanup], leaves
    [self.driver] as it was. *)
Theorem process_csv_mkdir_failure :
  forall (W : Type) (env : Env W) (libs : Libs) (csv_path output_dir : string)
         (st : state W) (w1 : W) (e : exn),
    respond env (Mkdir (path_join output_dir "screenshots")) (world st)
    = (w1, Raise e) ->
    process_csv env libs csv_path output_dir st
    = ({| driver := driver st; headless := headless st; world := w1;
          trace := Called (Mkdir (path_join output_dir "screenshots")) (Raise e)
                   :: trace st |},
       Raise e).
Proof.
  intros W env libs csv_path output_dir st w1 e H.
  unfold process_csv. unfold bind at 1, call_ at 1. rewrite H. reflexivity.
Qed.

Lemma process_csv_mkdir_failure_witness :
  snd (process_csv page_env plain_libs "urls.csv" "out"
         (running 7 (faulty_page [] 0 (PyException "Permission denied"))))
  = Raise (PyException "Permission denied")
  /\ driver (fst (process_csv page_env plain_libs "urls.csv" "out"
                    (running 7 (faulty_page [] 0 (PyException "Permission denied")))))
     = Some 7.
Proof.
  rewrite (process_csv_mkdir_failure Page page_env plain_libs "urls.csv" "out"
             (running 7 (faulty_page [] 0 (PyException "Permission denied")))
             (page_of [] []) (PyException "Permission denied") eq_refl).
  split; reflexivity.
Defined.

(** When [pd.read_csv] raises, [process_csv] raises the same exception
    after [cleanup]; it logs "Error processing CSV: ..." exactly when the
    exception derives from [Exception], and it sets up no driver and
    writes no manifest. *)
Theorem process_csv_read_failure :
  forall (W : Type) (env : Env W) (libs : Libs) (csv_path output_dir : string)
         (st : state W) (w1 w2 : W) (e : exn),
    driver st = None ->
    respond env (Mkdir (path_join output_dir "screenshots")) (world st)
    = (w1, Ok tt) ->
    respond env (ReadCsv csv_path) w1 = (w2, Raise e) ->
    exists st' evs,
      process_csv env libs csv_path output_dir st = (st', Raise e)
      /\ driver st' = None
      /\ trace st' = (evs ++ trace st)%list
      /\ error_lines evs
         = (if is_Exception e
            then ["Error processing CSV: " ++ str_exn e] else [])
      /\ existsb is_setup_event evs = false
      /\ csv_written evs = [].
Proof.
  intros W env libs csv_path output_dir st w1 w2 e Hnone Hmk Hrd.
  rewrite (process_csv_unfold env libs csv_path output_dir st w1 Hmk).
  unfold try_finally, try_except, process_csv_body.
  unfold bind at 1, call_ at 1. cbn [world]. rewrite Hrd.
  destruct (is_Exception e).
  - rewrite bind_log. cbn [raise]. rewrite cleanup_spec.
    cbn [driver record]. rewrite Hnone.
    eexists.
    exists [Logged ERROR ("Error processing CSV: " ++ str_exn e);
            Called (ReadCsv csv_path) (Raise e);
            Called (Mkdir (path_join output_dir "screenshots")) (Ok tt)].
    repeat split.
  - rewrite cleanup_spec. cbn [driver]. rewrite Hnone.
    eexists.
    exists [Called (ReadCsv csv_path) (Raise e);
            Called (Mkdir (path_join output_dir "screenshots")) (Ok tt)].
    repeat split.
Qed.

Lemma process_csv_read_failure_witness :
  exists st' evs,
    process_csv page_env plain_libs "missing.csv" "out"
      (fresh (faulty_page [] 1 (PyException "No such file: missing.csv")))
    = (st', Raise (PyException "No such file: missing.csv"))
    /\ driver st' = None
    /\ trace st' = (evs ++ [])%list
    /\ error_lines evs = ["Error processing CSV: No such file: missing.csv"].
Proof.
  destruct (process_csv_read_failure Page page_env plain_libs
              "missing.csv" "out"
              (fresh (faulty_page [] 1 (PyException "No such file: missing.csv")))
              (faulty_page [] 0 (PyException "No such file: missing.csv"))
              (page_of [] []) (PyException "No such file: missing.csv")
              eq_refl eq_refl eq_refl)
    as (st' & evs & H & Hd & Ht & He & _).
  exists st', evs. repeat split; assumption.
Defined.

(** A data frame without columns is an error: [process_csv] raises
    [ValueError] "CSV file has no columns", logged once where it is raised
    and once by the handler, and sets up no driver. *)
Theorem process_csv_no_columns :
  forall (W : Type) (env : Env W) (libs : Libs) (csv_path output_dir : string)
         (st : state W) (w1 w2 : W) (df : DataFrame),
    driver st = None ->
    respond env (Mkdir (path_join output_dir "screenshots")) (world st)
    = (w1, Ok tt) ->
    respond env (ReadCsv csv_path) w1 = (w2, Ok df) ->
    shape1 df = 0 ->
    exists st' evs,
      process_csv env libs csv_path output_dir st
      = (st', Raise (ValueError "CSV file has no columns"))
      /\ driver st' = None
      /\ trace st' = (evs ++ trace st)%list
      /\ error_lines evs
         = ["Error processing CSV: CSV file has no columns";
            "CSV file has no columns"]
      /\ existsb is_setup_event evs = false
      /\ csv_written evs = [].
Proof.
  intros W env libs csv_path output_dir st w1 w2 df Hnone Hmk Hrd Hshape.
  rewrite (process_csv_unfold env libs csv_path output_dir st w1 Hmk).
  unfold try_finally, try_except, process_csv_body.
  unfold bind at 1, call_ at 1. cbn [world]. rewrite Hrd, Hshape.
  cbn [Nat.eqb]. rewrite bind_log. cbn [raise is_Exception].
  rewrite bind_log. cbn [raise]. rewrite cleanup_spec.
  cbn [driver record]. rewrite Hnone.
  eexists.
  exists [Logged ERROR "Error processing CSV: CSV file has no columns";
          Logged ERROR "CSV file has no columns";
          Called (ReadCsv csv_path) (Ok df);
          Called (Mkdir (path_join output_dir "screenshots")) (Ok tt)].
  repeat split.
Qed.

Lemma process_csv_no_columns_witness :
  exists st' evs,
    process_csv page_env plain_libs "urls.csv" "out" (fresh (page_of [] []))
    = (st', Raise (ValueError "CSV file has no columns"))
    /\ driver st' = None
    /\ trace st' = (evs ++ [])%list
    /\ existsb is_setup_event evs = false.
Proof.
  destruct (process_csv_no_columns Page page_env plain_libs "urls.csv" "out"
              (fresh (page_of [] [])) (page_of [] []) (page_of [] []) []
              eq_refl eq_refl eq_refl eq_refl)
    as (st' & evs & H & Hd & Ht & _ & Hs & _).
  exists st', evs. repeat split; assumption.
Defined.

(** When the URLs are there and Chrome does not start, [process_csv]
    raises the exception of Chrome: no item is processed (after the failed
    start the only events are log lines), no session is opened or quit and
    no manifest is written. *)
Theorem process_csv_setup_failure :
  forall (W : Type) (env : Env W) (libs : Libs) (csv_path output_dir : string)
         (st : state W) (w1 w2 w3 : W) (df : DataFrame) (e : exn),
    driver st = None ->
    respond env (Mkdir (path_join output_dir "screenshots")) (world st)
    = (w1, Ok tt) ->
    respond env (ReadCsv csv_path) w1 = (w2, Ok df) ->
    shape1 df <> 0 ->
    first_column df <> [] ->
    respond env (NewChrome (chrome_arguments (headless st))) w2
    = (w3, Raise e) ->
    exists st' evs,
      process_csv env libs csv_path output_dir st = (st', Raise e)
      /\ driver st' = None
      /\ world st' = w3
      /\ trace st' = (evs ++ trace st)%list
      /\ filter is_call evs
         = [Called (NewChrome (chrome_arguments (headless st))) (Raise e);
            Called (ReadCsv csv_path) (Ok df);
            Called (Mkdir (path_join output_dir "screenshots")) (Ok tt)]
      /\ opened evs = [] /\ quitted evs = []
      /\ csv_written evs = [].
Proof.
  intros W env libs csv_path output_dir st w1 w2 w3 df e
         Hnone Hmk Hrd Hshape Hcol Hch.
  rewrite (process_csv_unfold env libs csv_path output_dir st w1 Hmk).
  unfold try_finally, try_except, process_csv_body.
  unfold bind at 1, call_ at 1. cbn [world]. rewrite Hrd.
  apply Nat.eqb_neq in Hshape. rewrite Hshape.
  destruct (first_column df) as [|u us]; [contradiction Hcol; reflexivity | ].
  rewrite bind_log. unfold bind at 1.
  rewrite (setup_driver_raise_eq env _ w3 e) by exact Hch.
  cbn [driver headless world trace record].
  destruct (is_Exception e); destruct (is_WebDriverException e);
    rewrite ?bind_log; cbn [raise]; rewrite cleanup_spec;
    cbn [driver record]; rewrite Hnone;
    match goal with
    | |- exists st' evs, (?S, _) = _ /\ _ =>
        let t := eval cbn in (trace S) in
        let p := prefix_of t (trace st) in
        exists S, p
    end;
    repeat split.
Qed.

Lemma process_csv_setup_failure_witness :
  exists st' evs,
    process_csv page_env plain_libs "urls.csv" "out"
      {| driver := None; headless := true;
         world := {| page_csv := [["example.com"]]; page_dom := full_dom;
                     page_fault := Some (2, WebDriverException "no chrome") |};
         trace := [] |}
    = (st', Raise (WebDriverException "no chrome"))
    /\ driver st' = None
    /\ trace st' = (evs ++ [])%list
    /\ opened evs = [] /\ quitted evs = [] /\ csv_written evs = [].
Proof.
  destruct (process_csv_setup_failure Page page_env plain_libs "urls.csv" "out"
              {| driver := None; headless := true;
                 world := {| page_csv := [["example.com"]];
                             page_dom := full_dom;
                             page_fault :=
                               Some (2, WebDriverException "no chrome") |};
                 trace := [] |}
              {| page_csv := [["example.com"]]; page_dom := full_dom;
                 page_fault := Some (1, WebDriverException "no chrome") |}
              {| page_csv := [["example.com"]]; page_dom := full_dom;
                 page_fault := Some (0, WebDriverException "no chrome") |}
              {| page_csv := [["example.com"]]; page_dom := full_dom;
                 page_fault := None |}
              [["example.com"]] (WebDriverException "no chrome")
              eq_refl eq_refl eq_refl ltac:(discriminate) ltac:(discriminate)
              eq_refl)
    as (st' & evs & H & Hd & _ & Ht & _ & Ho & Hq & Hw).
  exists st', evs. repeat split; assumption.
Defined.

(** ** The locator loop, by its lookups *)

Section LocateLookups.
Context {W : Type}.
Variable env : Env W.
Local Open Scope list_scope.

(** What one wait adds to the history. *)
Lemma wait_until_inv timeout cond by_ sel st st1 r :
  wait_until env timeout cond by_ sel st = (st1, r) ->
  (driver st = None /\ st1 = st /\ exists msg, r = Raise (PyException msg))
  \/ (exists d ev,
        driver st = Some d /\ driver st1 = Some d
        /\ trace st1 = ev :: trace st
        /\ waited_of ev = [(by_, sel)]
        /\ is_lookup_event ev = true
        /\ located_of ev = match r with Ok el => [el] | Raise _ => [] end
        /\ is_failed_wait ev
           = match r with
             | Ok _ => false
             | Raise e => is_Timeout_or_NoSuchElement e
             end).
Proof.
  unfold wait_until, bind, the_driver. intros H.
  destruct (driver st) as [d|] eqn:Hd.
  - right. exists d.
    destruct cond; unfold call_ in H;
      match type of H with
      | context [respond env ?c (world st)] =>
          destruct (respond env c (world st)) as [w1 r1]
      end; injection H as <- <-; eexists; simpl;
      (split; [reflexivity | ]); (split; [exact Hd | ]);
      (split; [reflexivity | ]); repeat split; destruct r1; reflexivity.
  - left. injection H as <- <-. repeat split. eexists. reflexivity.
Qed.

Lemma is_displayed_inv el st st2 r :
  call_ env (IsDisplayed el) st = (st2, r) ->
  driver st2 = driver st
  /\ trace st2 = Called (IsDisplayed el) r :: trace st.
Proof.
  unfold call_. destruct (respond env (IsDisplayed el) (world st)) as [w r1].
  intros H. injection H as <- <-. split; reflexivity.
Qed.

(** The loop in general: the locators it waited on are, in order, a
    beginning of the chain; it makes lookups only; and what it returns is
    the element of the most recent wait that returned one, or the
    variable's value at entry when no wait returned one. *)
Lemma locate_lookups cond by_of chain :
  forall found st st' r,
    locate env cond by_of chain found st = (st', r) ->
    driver st' = driver st
    /\ exists evs,
         trace st' = evs ++ trace st
         /\ forallb is_lookup_event evs = true
         /\ (exists k, rev (waited evs)
                       = firstn k (map (fun sel => (by_of sel, sel)) chain))
         /\ match r with
            | Ok res =>
                res = match located evs with
                      | el :: _ => Some el
                      | [] => found
                      end
            | Raise _ => True
            end
         /\ (r = Ok None ->
             forallb is_failed_wait evs = true
             /\ rev (waited evs) = map (fun sel => (by_of sel, sel)) chain).
Proof.
  induction chain as [|selector rest IH]; intros found st st' r H.
  - simpl in H. injection H as <- <-. split; [reflexivity | ].
    exists []. simpl.
    split; [reflexivity | split; [reflexivity | split; [exists 0; reflexivity | ]]].
    split; [reflexivity | intros _; split; reflexivity].
  - simpl in H. unfold bind at 1, attempt at 1 in H.
    destruct (wait_until env 3 cond (by_of selector) selector st)
      as [st1 r1] eqn:Hw.
    apply wait_until_inv in Hw.
    destruct Hw as [(Hd & -> & msg & ->)
                   | (d & ev & Hd & Hd1 & Ht1 & Hwt & Hlk & Hloc & Hfw)].
    { simpl in H. injection H as <- <-. split; [reflexivity | ].
      exists []. simpl.
      split; [reflexivity | split; [reflexivity | ]].
      split; [exists 0; reflexivity | ].
      split; [exact I | intros Habs; discriminate Habs]. }
    destruct r1 as [el|e].
    + unfold bind at 1, attempt at 1 in H.
      destruct (call_ env (IsDisplayed el) st1) as [st2 shown] eqn:Hs.
      apply is_displayed_inv in Hs. destruct Hs as (Hd2 & Ht2).
      assert (Hgo : forall st'' r'',
                 locate env cond by_of rest (Some el) st2 = (st'', r'') ->
                 driver st'' = driver st
                 /\ exists evs,
                      trace st'' = evs ++ trace st
                      /\ forallb is_lookup_event evs = true
                      /\ (exists k,
                            rev (waited evs)
                            = firstn k (map (fun sel => (by_of sel, sel))
                                          (selector :: rest)))
                      /\ match r'' with
                         | Ok res =>
                             res = match located evs with
                                   | el0 :: _ => Some el0
                                   | [] => found
                                   end
                         | Raise _ => True
                         end
                      /\ (r'' = Ok None ->
                          forallb is_failed_wait evs = true
                          /\ rev (waited evs)
                             = map (fun sel => (by_of sel, sel))
                                 (selector :: rest))).
      { intros st'' r'' Hl.
        apply IH in Hl.
        destruct Hl as (Hd3 & evs & Ht3 & Hlk3 & (k & Hk) & Hres & _).
        split; [congruence | ].
        exists (evs ++ [Called (IsDisplayed el) shown; ev]).
        split; [rewrite Ht3, Ht2, Ht1, <- app_assoc; reflexivity | ].
        split; [rewrite forallb_app, Hlk3; simpl; rewrite Hlk; reflexivity | ].
        unfold waited, located in *. rewrite !flat_map_app. simpl.
        rewrite Hwt, Hloc, app_nil_r. split; [ | split].
        - exists (S k). rewrite rev_app_distr. simpl. rewrite Hk. reflexivity.
        - destruct r'' as [res|]; [ | exact I].
          rewrite Hres. destruct (flat_map located_of evs); reflexivity.
        - intros ->. exfalso.
          destruct (flat_map located_of evs); discriminate Hres. }
      destruct shown as [[|]|e].
      * simpl in H. injection H as <- <-. split; [congruence | ].
        exists [Called (IsDisplayed el) (Ok true); ev].
        split; [rewrite Ht2, Ht1; reflexivity | ].
        unfold waited, located. simpl. rewrite Hlk, Hwt, Hloc. simpl.
        split; [reflexivity | split; [exists 1; reflexivity | ]].
        split; [reflexivity | intros Habs; discriminate Habs].
      * simpl in H. apply Hgo, H.
      * simpl in H. destruct (is_Timeout_or_NoSuchElement e).
        -- apply Hgo, H.
        -- injection H as <- <-. split; [congruence | ].
           exists [Called (IsDisplayed el) (Raise e); ev].
           split; [rewrite Ht2, Ht1; reflexivity | ].
           unfold waited, located. simpl. rewrite Hlk, Hwt. simpl.
           split; [reflexivity | split; [exists 1; reflexivity | ]].
           split; [exact I | intros Habs; discriminate Habs].
    + simpl in H. simpl in Hfw.
      destruct (is_Timeout_or_NoSuchElement e) eqn:He.
      * apply IH in H.
        destruct H as (Hd3 & evs & Ht3 & Hlk3 & (k & Hk) & Hres & Hnone).
        split; [congruence | ].
        exists (evs ++ [ev]).
        split; [rewrite Ht3, Ht1, <- app_assoc; reflexivity | ].
        split; [rewrite forallb_app, Hlk3; simpl; rewrite Hlk; reflexivity | ].
        unfold waited, located in *. rewrite !flat_map_app. simpl.
        rewrite Hwt, Hloc, !app_nil_r. split; [ | split].
        -- exists (S k). rewrite rev_app_distr. simpl. rewrite Hk. reflexivity.
        -- exact Hres.
        -- intros Hr. destruct (Hnone Hr) as (Hf & Hwd).
           rewrite forallb_app, Hf. simpl. rewrite Hfw.
           split; [reflexivity | ].
           rewrite rev_app_distr. simpl. rewrite Hwd. reflexivity.
      * injection H as <- <-. split; [congruence | ].
        exists [ev]. split; [rewrite Ht1; reflexivity | ].
        unfold waited, located. simpl. rewrite Hlk, Hwt. simpl.
        split; [reflexivity | split; [exists 1; reflexivity | ]].
        split; [exact I | intros Habs; discriminate Habs].
Qed.

End LocateLookups.

(** Each locator loop of the workflow, started with its variable at
    [None]: when it ends with [None] it has waited on every selector of its
    chain, once each and in the order of the chain, every wait ended with a
    timeout or a missing element, and it asked no element whether it is
    displayed. *)
Theorem locate_not_found_tried_all :
  forall (W : Type) (env : Env W) (cond : condition) (by_of : string -> By)
         (chain : list string) (st st' : state W),
    locate env cond by_of chain None st = (st', Ok None) ->
    exists evs,
      trace st' = (evs ++ trace st)%list
      /\ rev (waited evs) = map (fun sel => (by_of sel, sel)) chain
      /\ forallb is_failed_wait evs = true
      /\ located evs = [].
Proof.
  intros W env cond by_of chain st st' H.
  destruct (locate_lookups env cond by_of chain None st st' _ H)
    as (_ & evs & Ht & _ & _ & Hres & Hnone).
  destruct (Hnone eq_refl) as (Hf & Hw).
  exists evs. repeat split; try assumption.
  destruct (located evs); [reflexivity | discriminate Hres].
Qed.

Lemma locate_not_found_tried_all_witness :
  exists evs,
    trace (fst (locate page_env presence_of_element_located by_css selectors
                  None (running 1 (page_of [] []))))
    = (evs ++ [])%list
    /\ rev (waited evs) = map (fun sel => (by_css sel, sel)) selectors
    /\ forallb is_failed_wait evs = true.
Proof.
  destruct (locate_not_found_tried_all Page page_env
              presence_of_element_located by_css selectors
              (running 1 (page_of [] []))
              (fst (locate page_env presence_of_element_located by_css
                      selectors None (running 1 (page_of [] []))))
              ltac:(vm_compute; reflexivity))
    as (evs & Ht & Hw & Hf & _).
  exists evs. repeat split; assumption.
Defined.

(** Each locator loop, started with its variable at [None], leaves
    [self.driver] alone, makes lookups only, on a beginning of its chain in
    order, and what it returns is the element of the most recent wait that
    returned one: [None] exactly when no wait returned an element. *)
Theorem locate_returns_last_located :
  forall (W : Type) (env : Env W) (cond : condition) (by_of : string -> By)
         (chain : list string) (st st' : state W) (res : option element),
    locate env cond by_of chain None st = (st', Ok res) ->
    driver st' = driver st
    /\ exists evs,
         trace st' = (evs ++ trace st)%list
         /\ forallb is_lookup_event evs = true
         /\ (exists k, rev (waited evs)
                       = firstn k (map (fun sel => (by_of sel, sel)) chain))
         /\ res = hd_error (located evs).
Proof.
  intros W env cond by_of chain st st' res H.
  destruct (locate_lookups env cond by_of chain None st st' _ H)
    as (Hd & evs & Ht & Hl & Hk & Hres & _).
  split; [exact Hd | ]. exists evs. repeat split; assumption.
Qed.

Lemma locate_returns_last_located_witness :
  exists evs,
    trace (fst (locate page_env presence_of_element_located by_css selectors
                  None (running 1 (page_of [] tie_break_dom))))
    = (evs ++ [])%list
    /\ Some 21 = hd_error (located evs).
Proof.
  destruct (locate_returns_last_located Page page_env
              presence_of_element_located by_css selectors
              (running 1 (page_of [] tie_break_dom))
              (fst (locate page_env presence_of_element_located by_css
                      selectors None (running 1 (page_of [] tie_break_dom))))
              (Some 21) ltac:(vm_compute; reflexivity))
    as (_ & evs & Ht & _ & _ & Hres).
  exists evs. split; assumption.
Defined.

(** ** What one item does to the outside *)

Ltac workflow_step :=
  first
    [ apply quiet_bind; [ | intros ? ]
    | apply quiet_ret
    | apply quiet_raise
    | apply quiet_lift
    | apply quiet_now
    | apply quiet_the_driver
    | apply quiet_log; reflexivity
    | apply quiet_call; intros ?; simpl;
      rewrite ?String.eqb_refl, ?orb_true_r; reflexivity
    | apply quiet_attempt
    | apply quiet_try_except; [ | intros ? ] ].

Section WorkflowFootprint.
Context {W : Type}.
Variable env : Env W.
Variable libs : Libs.
Variable url : string.

Lemma workflow_wait_until timeout cond by_ sel :
  quiet (is_workflow_event url) (wait_until env timeout cond by_ sel).
Proof. unfold wait_until. destruct cond; repeat workflow_step. Qed.

Lemma workflow_locate cond by_of chain :
  forall found, quiet (is_workflow_event url) (locate env cond by_of chain found).
Proof.
  induction chain as [|selector rest IH]; intros found; simpl.
  - apply quiet_ret.
  - apply quiet_bind.
    + apply quiet_attempt, workflow_wait_until.
    + intros [el|e].
      * apply quiet_bind.
        -- repeat workflow_step.
        -- intros [[|]|e]; try apply quiet_ret; try apply IH.
           destruct (is_Timeout_or_NoSuchElement e);
             [apply IH | apply quiet_raise].
      * destruct (is_Timeout_or_NoSuchElement e);
          [apply IH | apply quiet_raise].
Qed.

Lemma workflow_debug_screenshot output_dir stage :
  quiet (is_workflow_event url) (debug_screenshot env libs url output_dir stage).
Proof. unfold debug_screenshot. repeat workflow_step. Qed.

Lemma workflow_handle_email_form output_dir result :
  quiet (is_workflow_event url)
    (handle_email_form env libs url output_dir result).
Proof.
  unfold handle_email_form, enter_email, submit_email.
  apply quiet_bind; [apply workflow_locate | intros [el|]];
    [ | repeat workflow_step].
  apply quiet_bind;
    [repeat first [apply workflow_debug_screenshot | workflow_step] | intros _].
  apply quiet_bind; [apply workflow_locate | intros [el'|]];
    [ | repeat workflow_step].
  repeat first [apply workflow_debug_screenshot | workflow_step].
Qed.

Lemma workflow_capture_results output_dir result :
  quiet (is_workflow_event url) (capture_results env libs url output_dir result).
Proof.
  unfold capture_results.
  repeat first [apply workflow_wait_until | workflow_step].
Qed.

Lemma workflow_process_url_body output_dir result :
  quiet (is_workflow_event url) (process_url_body env libs url output_dir result).
Proof.
  unfold process_url_body, open_page, enter_url, submit_url.
  apply quiet_bind;
    [repeat first [apply workflow_wait_until | apply workflow_debug_screenshot
                  | workflow_step] | intros _].
  apply quiet_bind; [apply workflow_locate | intros [el|]];
    [ | repeat workflow_step].
  apply quiet_bind;
    [repeat first [apply workflow_debug_screenshot | workflow_step] | intros _].
  apply quiet_bind; [apply workflow_locate | intros [el'|]];
    [ | repeat workflow_step].
  apply quiet_bind;
    [repeat first [apply workflow_debug_screenshot | workflow_step] | intros _].
  apply quiet_bind.
  - unfold email_step.
    apply quiet_try_except; [apply workflow_handle_email_form | intros e].
    repeat workflow_step.
  - intros [r|]; [apply quiet_ret | apply workflow_capture_results].
Qed.

Lemma workflow_process_url output_dir :
  quiet (is_workflow_event url) (process_url env libs url output_dir).
Proof.
  unfold process_url.
  apply quiet_bind; [apply quiet_now | intros ts].
  apply quiet_try_except; [apply workflow_process_url_body | intros e].
  repeat workflow_step.
Qed.

Lemma flat_map_nil {A B} (f : A -> list B) (l : list A) :
  (forall x, In x l -> f x = []) -> flat_map f l = [].
Proof.
  induction l as [|a l IH]; simpl; intros H; [reflexivity | ].
  rewrite (H a), IH; [reflexivity | | ]; auto.
Qed.

(** What the events of an item say about navigation, typing and pauses. *)
Lemma workflow_events_footprint evs :
  forallb (is_workflow_event url) evs = true ->
  Forall (fun u => u = base_url) (navigations evs)
  /\ Forall (fun a => match a with
                      | Typed _ keys => keys = email \/ keys = url
                      | _ => True
                      end) (actions evs)
  /\ Forall (fun secs => secs = 5) (pauses evs)
  /\ opened evs = [] /\ quitted evs = []
  /\ csv_read evs = [] /\ csv_written evs = []
  /\ chrome_requests evs = [].
Proof.
  intros H. rewrite forallb_forall in H.
  unfold navigations, actions, pauses, opened, quitted, csv_read, csv_written,
    chrome_requests.
  repeat split;
    try (apply Forall_forall; intros x Hin; apply in_flat_map in Hin;
         destruct Hin as (ev & Hev & Hx); apply in_rev in Hev;
         specialize (H ev Hev); destruct ev as [A c r | d | lvl msg];
         [destruct c | | ]; simpl in Hx, H; try contradiction;
         destruct Hx as [<- | []]);
    try (apply flat_map_nil; intros ev Hev; specialize (H ev Hev);
         destruct ev as [A c r | d | lvl msg];
         [destruct c | | ]; simpl in H; try discriminate H; reflexivity).
  - apply String.eqb_eq, H.
  - exact I.
  - apply orb_true_iff in H. destruct H as [H | H];
      apply String.eqb_eq in H; [left | right]; exact H.
  - exact I.
  - apply Nat.eqb_eq, H.
Qed.

End WorkflowFootprint.

(** Whatever its outcome, [process_url] leaves [self.driver] alone, sends
    the browser nowhere but to the address of the service, types nothing
    but the URL of the item and the fixed e-mail address, pauses for five
    seconds only, and makes none of the calls of the batch: it opens and
    quits no session and reads and writes no CSV file. *)
Theorem process_url_footprint :
  forall (W : Type) (env : Env W) (libs : Libs) (url output_dir : string)
         (st : state W),
    driver (fst (process_url env libs url output_dir st)) = driver st
    /\ exists evs,
         trace (fst (process_url env libs url output_dir st))
         = (evs ++ trace st)%list
         /\ Forall (fun u => u = base_url) (navigations evs)
         /\ Forall (fun a => match a with
                             | Typed _ keys => keys = email \/ keys = url
                             | _ => True
                             end) (actions evs)
         /\ Forall (fun secs => secs = 5) (pauses evs)
         /\ opened evs = [] /\ quitted evs = []
         /\ csv_read evs = [] /\ csv_written evs = []
         /\ chrome_requests evs = [].
Proof.
  intros W env libs url output_dir st.
  destruct (workflow_process_url env libs url output_dir st)
    as (Hd & _ & evs & Ht & Hp).
  split; [exact Hd | ]. exists evs. split; [exact Ht | ].
  apply workflow_events_footprint with (url := url). exact Hp.
Qed.

(** Called on an object without a driver, [process_url] makes no call to
    the outside: the missing attribute of [None] is caught as an unexpected
    error, and the failed Result says so. *)
Theorem process_url_without_driver :
  forall (W : Type) (env : Env W) (libs : Libs) (url output_dir : string)
         (st : state W),
    driver st = None ->
    exists st',
      process_url env libs url output_dir st
      = (st', Ok (set_error (new_result url (clock env (world st)))
                    "Unexpected error: 'NoneType' object has no attribute 'get'"))
      /\ world st' = world st
      /\ driver st' = None
      /\ exists evs, trace st' = (evs ++ trace st)%list
                     /\ filter is_call evs = [].
Proof.
  intros W env libs url output_dir st Hnone.
  assert (Hbody :
            process_url_body env libs url output_dir
              (new_result url (clock env (world st))) st
            = (record (Logged INFO ("Processing URL: " ++ url)) st,
               Raise (PyException
                        "'NoneType' object has no attribute 'get'"))).
  { unfold process_url_body. apply bind_raise.
    unfold open_page. rewrite bind_log. apply bind_raise.
    unfold the_driver. cbn [driver record]. rewrite Hnone. reflexivity. }
  unfold process_url.
  rewrite (bind_ok _ _ st st (clock env (world st))) by reflexivity.
  rewrite (try_except_caught _ _ _ _ _ _ Hbody) by reflexivity.
  rewrite bind_log. eexists. split; [reflexivity | ].
  split; [reflexivity | split; [exact Hnone | ]].
  exists [Logged ERROR
            ("Unexpected error processing " ++ url ++ ": "
             ++ str_exn (PyException
                           "'NoneType' object has no attribute 'get'"));
          Logged INFO ("Processing URL: " ++ url)].
  split; reflexivity.
Qed.

Lemma process_url_without_driver_witness :
  exists st',
    process_url page_env plain_libs "http://example.com/a" "out/screenshots"
      (fresh (page_of [] full_dom))
    = (st', Ok (set_error
                  (new_result "http://example.com/a" "2024-01-01 00:00:00")
                  "Unexpected error: 'NoneType' object has no attribute 'get'"))
    /\ driver st' = None.
Proof.
  destruct (process_url_without_driver Page page_env plain_libs
              "http://example.com/a" "out/screenshots"
              (fresh (page_of [] full_dom)) eq_refl)
    as (st' & H & _ & Hd & _).
  exists st'. split; assumption.
Defined.

(** ** A successful item, step by step *)

Section SuccessPath.
Context {W : Type}.
Variable env : Env W.
Variable libs : Libs.
Local Open Scope list_scope.

Lemma bind_inv {A B} (m : M W A) (k : A -> M W B) st st' b :
  bind m k st = (st', Ok b) ->
  exists st1 a, m st = (st1, Ok a) /\ k a st1 = (st', Ok b).
Proof.
  unfold bind. destruct (m st) as [st1 [a|e]]; intros H.
  - exists st1, a. split; [reflexivity | exact H].
  - discriminate H.
Qed.

Lemma bind_inv_raise {A B} (m : M W A) (k : A -> M W B) st st' e :
  bind m k st = (st', Raise e) ->
  m st = (st', Raise e)
  \/ exists st1 a, m st = (st1, Ok a) /\ k a st1 = (st', Raise e).
Proof.
  unfold bind. destruct (m st) as [st1 [a|e1]]; intros H.
  - right. exists st1, a. split; [reflexivity | exact H].
  - left. injection H as <- <-. reflexivity.
Qed.

Lemma try_except_inv {A} (m : M W A) handles h st st' a :
  try_except m handles h st = (st', Ok a) ->
  m st = (st', Ok a)
  \/ exists st1 e, m st = (st1, Raise e) /\ handles e = true
                   /\ h e st1 = (st', Ok a).
Proof.
  unfold try_except. destruct (m st) as [st1 [a1|e]]; intros H.
  - left. exact H.
  - right. exists st1, e. destruct (handles e); [ | discriminate H].
    repeat split. exact H.
Qed.

Lemma call_inv {A} (c : call A) st st1 r :
  call_ env c st = (st1, r) ->
  driver st1 = driver st /\ trace st1 = Called c r :: trace st.
Proof.
  unfold call_. destruct (respond env c (world st)) as [w r1].
  intros H. injection H as <- <-. split; reflexivity.
Qed.

Lemma the_driver_inv attr (st st1 : state W) d :
  the_driver attr st = (st1, Ok d) -> st1 = st /\ driver st = Some d.
Proof.
  unfold the_driver. destruct (driver st) as [d'|]; intros H.
  - injection H as <- <-. split; reflexivity.
  - discriminate H.
Qed.

Lemma actions_app evs2 evs1 : actions (evs2 ++ evs1) = actions evs1 ++ actions evs2.
Proof. unfold actions. rewrite rev_app_distr. apply flat_map_app. Qed.

Lemma navigations_app evs2 evs1 :
  navigations (evs2 ++ evs1) = navigations evs1 ++ navigations evs2.
Proof. unfold navigations. rewrite rev_app_distr. apply flat_map_app. Qed.

Lemma pauses_app evs2 evs1 : pauses (evs2 ++ evs1) = pauses evs1 ++ pauses evs2.
Proof. unfold pauses. rewrite rev_app_distr. apply flat_map_app. Qed.

Lemma story_app evs2 evs1 : story (evs2 ++ evs1) = story evs1 ++ story evs2.
Proof. unfold story. rewrite rev_app_distr. apply flat_map_app. Qed.

Lemma lift_inv {A} (r : result A) (st st1 : state W) a :
  lift r st = (st1, Ok a) -> st1 = st /\ r = Ok a.
Proof. unfold lift. intros H. injection H as <- <-. split; reflexivity. Qed.

Lemma log_inv lvl msg (st st1 : state W) r :
  log lvl msg st = (st1, r) -> st1 = record (Logged lvl msg) st.
Proof. unfold log. intros H. injection H as <- _. reflexivity. Qed.

(** *** Stories of the parts *)

Lemma ran_trans {st st1 st2 : state W} {ds1 ds2} :
  ran st st1 ds1 -> ran st1 st2 ds2 -> ran st st2 (ds1 ++ ds2).
Proof.
  intros (Hd1 & evs1 & Ht1 & Hs1) (Hd2 & evs2 & Ht2 & Hs2).
  split; [congruence | ]. exists (evs2 ++ evs1).
  split; [rewrite Ht2, Ht1, app_assoc; reflexivity | ].
  rewrite story_app. congruence.
Qed.

Lemma ran_event (st st1 : state W) ev :
  driver st1 = driver st -> trace st1 = ev :: trace st ->
  ran st st1 (deed_of ev).
Proof.
  intros Hd Ht. split; [exact Hd | ]. exists [ev].
  split; [exact Ht | ]. unfold story. simpl. apply app_nil_r.
Qed.

Lemma ran_log (st : state W) lvl msg : ran st (record (Logged lvl msg) st) [].
Proof. apply (ran_event st _ (Logged lvl msg)); reflexivity. Qed.

Lemma ran_refl (st : state W) : ran st st [].
Proof. split; [reflexivity | ]. exists []. split; reflexivity. Qed.

Lemma ran_call {A} (c : call A) st st1 r :
  call_ env c st = (st1, r) -> ran st st1 (deed_of (Called c r)).
Proof.
  intros H. apply call_inv in H. destruct H as (Hd & Ht).
  apply ran_event; assumption.
Qed.

(** A wait that is made: it adds a sighting when it returns and nothing
    when it raises. *)
Lemma ran_wait_until timeout cond by_ sel st st1 d r :
  driver st = Some d ->
  wait_until env timeout cond by_ sel st = (st1, r) ->
  ran st st1 match r with
             | Ok el => [Saw (mkSighting cond by_ sel el)]
             | Raise _ => []
             end.
Proof.
  intros Hd H. unfold wait_until, bind, the_driver in H. rewrite Hd in H.
  destruct cond; apply call_inv in H; destruct H as (Hd1 & Ht1);
    match type of Ht1 with
    | _ = ?ev :: _ => pose proof (ran_event st st1 ev Hd1 Ht1) as R
    end; destruct r; exact R.
Qed.

Lemma wait_until_driver timeout cond by_ sel st st1 el :
  wait_until env timeout cond by_ sel st = (st1, Ok el) ->
  exists d, driver st = Some d.
Proof.
  intros H. apply wait_until_inv in H.
  destruct H as [(_ & _ & msg & Habs) | (d & _ & Hd & _)];
    [discriminate Habs | exists d; exact Hd].
Qed.

Lemma last_seen_app ds1 ds2 found :
  last_seen (ds1 ++ ds2) found = last_seen ds2 (last_seen ds1 found).
Proof. unfold last_seen. apply fold_left_app. Qed.

(** The story of a locator loop that returns: sightings through selectors
    of the chain, and the loop's variable ends with the element of the
    last of them. *)
Lemma locate_story cond by_of chain :
  forall found st st' res,
    locate env cond by_of chain found st = (st', Ok res) ->
    exists ds,
      ran st st' ds
      /\ Forall (fun d => exists sel e,
                   In sel chain
                   /\ d = Saw (mkSighting cond (by_of sel) sel e)) ds
      /\ res = last_seen ds found.
Proof.
  induction chain as [|selector rest IH]; intros found st st' res H.
  - simpl in H. injection H as <- <-. exists [].
    split; [apply ran_refl | split; [constructor | reflexivity]].
  - simpl in H. unfold bind at 1, attempt at 1 in H.
    destruct (wait_until env 3 cond (by_of selector) selector st)
      as [st1 r1] eqn:Hw.
    assert (Hlift : forall ds,
               Forall (fun d => exists sel e,
                         In sel rest
                         /\ d = Saw (mkSighting cond (by_of sel) sel e)) ds ->
               Forall (fun d => exists sel e,
                         In sel (selector :: rest)
                         /\ d = Saw (mkSighting cond (by_of sel) sel e)) ds).
    { intros ds Hds. eapply Forall_impl; [ | exact Hds].
      intros d (sel & e & Hin & Hd). exists sel, e.
      split; [right; exact Hin | exact Hd]. }
    destruct r1 as [el|e].
    + destruct (wait_until_driver _ _ _ _ _ _ _ Hw) as (d & Hd).
      pose proof (ran_wait_until _ _ _ _ _ _ _ _ Hd Hw) as R1.
      unfold bind at 1, attempt at 1 in H.
      destruct (call_ env (IsDisplayed el) st1) as [st2 shown] eqn:Hs.
      pose proof (ran_call _ _ _ _ Hs) as R2. simpl in R2.
      pose proof (ran_trans R1 R2) as R12. simpl in R12.
      assert (Hhere : exists sel e0,
                 In sel (selector :: rest)
                 /\ Saw (mkSighting cond (by_of selector) selector el)
                    = Saw (mkSighting cond (by_of sel) sel e0)).
      { exists selector, el. split; [left; reflexivity | reflexivity]. }
      assert (Hgo : forall st'' res'',
                 locate env cond by_of rest (Some el) st2 = (st'', Ok res'') ->
                 exists ds,
                   ran st st'' ds
                   /\ Forall (fun d => exists sel e,
                                In sel (selector :: rest)
                                /\ d = Saw (mkSighting cond (by_of sel) sel e))
                        ds
                   /\ res'' = last_seen ds found).
      { intros st'' res'' Hl. apply IH in Hl.
        destruct Hl as (ds & R3 & Hall & Hres).
        exists (Saw (mkSighting cond (by_of selector) selector el) :: ds).
        split; [exact (ran_trans R12 R3) | ].
        split; [constructor; [exact Hhere | apply Hlift, Hall] | exact Hres]. }
      destruct shown as [[|]|e].
      * simpl in H. injection H as <- <-.
        exists [Saw (mkSighting cond (by_of selector) selector el)].
        split; [exact R12 | ].
        split; [constructor; [exact Hhere | constructor] | reflexivity].
      * simpl in H. apply Hgo, H.
      * simpl in H. destruct (is_Timeout_or_NoSuchElement e).
        -- apply Hgo, H.
        -- discriminate H.
    + simpl in H. destruct (is_Timeout_or_NoSuchElement e) eqn:He.
      * assert (Hd : exists d, driver st = Some d).
        { apply wait_until_inv in Hw.
          destruct Hw as [(_ & _ & msg & Habs) | (d & _ & Hd & _)].
          - injection Habs as ->. discriminate He.
          - exists d. exact Hd. }
        destruct Hd as (d & Hd).
        pose proof (ran_wait_until _ _ _ _ _ _ _ _ Hd Hw) as R1.
        apply IH in H. destruct H as (ds & R3 & Hall & Hres).
        exists ds. split; [exact (ran_trans R1 R3) | ].
        split; [apply Hlift, Hall | exact Hres].
      * discriminate H.
Qed.

Lemma ran_locate cond by_of chain st st' el :
  locate env cond by_of chain None st = (st', Ok (Some el)) ->
  exists ds, ran st st' ds /\ looked cond by_of chain el ds.
Proof.
  intros H. apply locate_story in H. destruct H as (ds & R & Hall & Hres).
  exists ds. split; [exact R | split; [exact Hall | symmetry; exact Hres]].
Qed.

(** A debugging screenshot that is taken: the driver is there, the name
    is the sanitized URL, and [save_screenshot] answered. *)
Lemma debug_screenshot_ok url output_dir stage st st1 :
  debug_screenshot env libs url output_dir stage st = (st1, Ok tt) ->
  exists d name b,
    driver st = Some d
    /\ sanitize_filename libs url = Ok name
    /\ ran st st1 [Shot (debug_path output_dir name stage) b].
Proof.
  unfold debug_screenshot. intros H.
  apply bind_inv in H. destruct H as (s1 & name & H1 & H).
  apply lift_inv in H1. destruct H1 as (-> & Hname).
  apply bind_inv in H. destruct H as (s2 & d & H2 & H).
  apply the_driver_inv in H2. destruct H2 as (-> & Hd).
  apply bind_inv in H. destruct H as (s3 & b & H3 & H).
  apply log_inv in H. subst st1.
  exists d, name, b. split; [exact Hd | split; [exact Hname | ]].
  exact (ran_trans (ran_call _ _ _ _ H3) (ran_log s3 INFO _)).
Qed.

Lemma enter_url_ok url output_dir el st st1 :
  enter_url env libs url output_dir el st = (st1, Ok tt) ->
  exists name b,
    sanitize_filename libs url = Ok name
    /\ ran st st1 [Did (Cleared el); Did (Typed el url);
                   Shot (debug_path output_dir name "url_entered") b].
Proof.
  unfold enter_url. intros H.
  apply bind_inv in H. destruct H as (s1 & u1 & H1 & H).
  apply bind_inv in H. destruct H as (s2 & u2 & H2 & H).
  rewrite bind_log in H.
  apply debug_screenshot_ok in H.
  destruct H as (d & name & b & _ & Hname & Hr).
  exists name, b. split; [exact Hname | ].
  exact (ran_trans (ran_call _ _ _ _ H1)
           (ran_trans (ran_call _ _ _ _ H2)
              (ran_trans (ran_log s2 INFO _) Hr))).
Qed.

Lemma submit_url_ok url output_dir el st st1 :
  submit_url env libs url output_dir el st = (st1, Ok tt) ->
  exists name b,
    sanitize_filename libs url = Ok name
    /\ ran st st1 [Did (Clicked el);
                   Shot (debug_path output_dir name "submitted") b].
Proof.
  unfold submit_url. intros H.
  apply bind_inv in H. destruct H as (s1 & u1 & H1 & H).
  rewrite bind_log in H.
  apply debug_screenshot_ok in H.
  destruct H as (d & name & b & _ & Hname & Hr).
  exists name, b. split; [exact Hname | ].
  exact (ran_trans (ran_call _ _ _ _ H1) (ran_trans (ran_log s1 INFO _) Hr)).
Qed.

Lemma enter_email_ok url output_dir el st st1 :
  enter_email env libs url output_dir el st = (st1, Ok tt) ->
  exists name b,
    sanitize_filename libs url = Ok name
    /\ ran st st1 [Did (Cleared el); Did (Typed el email);
                   Shot (debug_path output_dir name "email_entered") b].
Proof.
  unfold enter_email. intros H.
  apply bind_inv in H. destruct H as (s1 & u1 & H1 & H).
  apply bind_inv in H. destruct H as (s2 & u2 & H2 & H).
  rewrite bind_log in H.
  apply debug_screenshot_ok in H.
  destruct H as (d & name & b & _ & Hname & Hr).
  exists name, b. split; [exact Hname | ].
  exact (ran_trans (ran_call _ _ _ _ H1)
           (ran_trans (ran_call _ _ _ _ H2)
              (ran_trans (ran_log s2 INFO _) Hr))).
Qed.

Lemma submit_email_ok url output_dir el st st1 :
  submit_email env libs url output_dir el st = (st1, Ok tt) ->
  exists name b,
    sanitize_filename libs url = Ok name
    /\ ran st st1 [Did (Clicked el);
                   Shot (debug_path output_dir name "final_submitted") b].
Proof.
  unfold submit_email. intros H.
  apply bind_inv in H. destruct H as (s1 & u1 & H1 & H).
  rewrite bind_log in H.
  apply debug_screenshot_ok in H.
  destruct H as (d & name & b & _ & Hname & Hr).
  exists name, b. split; [exact Hname | ].
  exact (ran_trans (ran_call _ _ _ _ H1) (ran_trans (ran_log s1 INFO _) Hr)).
Qed.

Lemma open_page_ok url output_dir st st1 :
  open_page env libs url output_dir st = (st1, Ok tt) ->
  exists d name body b,
    driver st = Some d
    /\ sanitize_filename libs url = Ok name
    /\ ran st st1
         [Went base_url;
          Saw (mkSighting presence_of_element_located TAG_NAME "body" body);
          Shot (debug_path output_dir name "initial") b].
Proof.
  unfold open_page. intros H.
  rewrite bind_log in H.
  apply bind_inv in H. destruct H as (s1 & d & H1 & H).
  apply the_driver_inv in H1. destruct H1 as (-> & Hd). simpl in Hd.
  apply bind_inv in H. destruct H as (s2 & u2 & H2 & H).
  rewrite bind_log in H.
  apply bind_inv in H. destruct H as (s3 & body & H3 & H).
  pose proof (call_inv _ _ _ _ H2) as (Hd2 & _). simpl in Hd2.
  apply ran_wait_until with (d := d) in H3; [ | simpl; congruence].
  apply debug_screenshot_ok in H.
  destruct H as (d' & name & b & _ & Hname & Hr).
  exists d, name, body, b. split; [exact Hd | split; [exact Hname | ]].
  exact (ran_trans (ran_log st INFO _)
           (ran_trans (ran_call _ _ _ _ H2)
              (ran_trans (ran_log s2 INFO _) (ran_trans H3 Hr)))).
Qed.

(** The optional popup (lines 334-341): either the wait for it fails and
    nothing is done, or it is seen and clicked, once. *)
Lemma popup_ran (st st1 : state W) d :
  driver st = Some d ->
  try_except
    (bind (wait_until env 3 element_to_be_clickable XPATH
             "//*[@id='cta_178493']/div/div[2]")
       (fun popup_close =>
          bind (call_ env (Click popup_close))
            (fun _ => log INFO "Popup closed")))
    is_Timeout_or_NoSuchElement
    (fun _ => log INFO "No popup detected or popup not clickable") st
  = (st1, Ok tt) ->
  exists popup,
    ran st st1 popup
    /\ (popup = []
        \/ exists p,
             popup = [Saw (mkSighting element_to_be_clickable XPATH
                             popup_selector p);
                      Did (Clicked p)]).
Proof.
  intros Hd H. apply try_except_inv in H.
  destruct H as [H | (s1 & e & H & _ & Hh)].
  - apply bind_inv in H. destruct H as (s1 & p & H1 & H).
    apply bind_inv in H. destruct H as (s2 & u & H2 & H).
    apply log_inv in H. subst st1.
    eexists. split; [ | right; exists p; reflexivity].
    exact (ran_trans (ran_wait_until _ _ _ _ _ _ _ _ Hd H1)
             (ran_trans (ran_call _ _ _ _ H2) (ran_log s2 INFO _))).
  - apply log_inv in Hh. subst st1.
    apply bind_inv_raise in H. destruct H as [H | (s0 & p & H1 & H)].
    + exists []. split; [ | left; reflexivity].
      exact (ran_trans (ran_wait_until _ _ _ _ _ _ _ _ Hd H)
               (ran_log s1 INFO _)).
    + apply bind_inv_raise in H. destruct H as [H | (s2 & u & _ & H)].
      * eexists. split; [ | right; exists p; reflexivity].
        exact (ran_trans (ran_wait_until _ _ _ _ _ _ _ _ Hd H1)
                 (ran_trans (ran_call _ _ _ _ H) (ran_log s1 INFO _))).
      * discriminate H.
Qed.

Lemma capture_results_ok url output_dir result st st' r :
  capture_results env libs url output_dir result st = (st', Ok r) ->
  exists d name body popup b,
    driver st = Some d
    /\ sanitize_filename libs url = Ok name
    /\ r = set_screenshot_path (set_status result status_success)
             (final_path output_dir name)
    /\ ran st st'
         ([Paused 5;
           Saw (mkSighting presence_of_element_located TAG_NAME "body" body)]
          ++ popup ++ [Shot (final_path output_dir name) b])
    /\ (popup = []
        \/ exists p,
             popup = [Saw (mkSighting element_to_be_clickable XPATH
                             popup_selector p);
                      Did (Clicked p)])
    /\ exists h evs0,
         trace st'
         = Logged INFO ("Screenshot saved to " ++ final_path output_dir name)
           :: Called (SaveScreenshot d (final_path output_dir name)) (Ok b)
           :: Called (SetWindowSize d 1920 h) (Ok tt)
           :: Called (ScrollHeight d) (Ok h)
           :: evs0.
Proof.
  unfold capture_results. intros H.
  rewrite bind_log in H.
  apply bind_inv in H. destruct H as (s1 & u1 & H1 & H).
  apply bind_inv in H. destruct H as (s2 & body & H2 & H).
  destruct (wait_until_driver _ _ _ _ _ _ _ H2) as (d & Hds1).
  pose proof (call_inv _ _ _ _ H1) as (Hd1 & _). simpl in Hd1.
  assert (Hd : driver st = Some d) by congruence.
  pose proof (ran_wait_until _ _ _ _ _ _ _ _ Hds1 H2) as R2.
  assert (Hds2 : driver s2 = Some d) by (destruct R2 as (R2 & _); congruence).
  apply bind_inv in H. destruct H as (s3 & [] & H3 & H).
  apply popup_ran with (d := d) in H3; [ | exact Hds2].
  destruct H3 as (popup & R3 & Hpopup).
  assert (Hds3 : driver s3 = Some d) by (destruct R3 as (R3 & _); congruence).
  apply bind_inv in H. destruct H as (s4 & name & H4 & H).
  apply lift_inv in H4. destruct H4 as (-> & Hname).
  rewrite bind_log in H.
  apply bind_inv in H. destruct H as (s5 & d5 & H5 & H).
  apply the_driver_inv in H5. destruct H5 as (-> & Hd5). simpl in Hd5.
  assert (d5 = d) by congruence. subst d5.
  apply bind_inv in H. destruct H as (s6 & h & H6 & H).
  apply bind_inv in H. destruct H as (s7 & d7 & H7 & H).
  pose proof (call_inv _ _ _ _ H6) as (Hd6 & Ht6). simpl in Hd6.
  apply the_driver_inv in H7. destruct H7 as (-> & Hd7).
  assert (d7 = d) by congruence. subst d7.
  apply bind_inv in H. destruct H as (s8 & [] & H8 & H).
  apply bind_inv in H. destruct H as (s9 & d9 & H9 & H).
  pose proof (call_inv _ _ _ _ H8) as (Hd8 & Ht8).
  apply the_driver_inv in H9. destruct H9 as (-> & Hd9).
  assert (d9 = d) by congruence. subst d9.
  apply bind_inv in H. destruct H as (s10 & b & H10 & H).
  pose proof (call_inv _ _ _ _ H10) as (Hd10 & Ht10).
  rewrite bind_log in H. injection H as <- <-.
  exists d, name, body, popup, b.
  split; [exact Hd | split; [exact Hname | split; [reflexivity | ]]].
  split; [ | split; [exact Hpopup | ]].
  - pose proof
      (ran_trans (ran_log st INFO "Waiting for audit to complete...")
         (ran_trans (ran_call _ _ _ _ H1)
            (ran_trans R2
               (ran_trans R3
                  (ran_trans
                     (ran_log s3 INFO "Taking screenshot of audit results...")
                     (ran_trans (ran_call _ _ _ _ H6)
                        (ran_trans (ran_call _ _ _ _ H8)
                           (ran_trans (ran_call _ _ _ _ H10)
                              (ran_log s10 INFO
                                 ("Screenshot saved to "
                                  ++ final_path output_dir name))))))))))
      as R.
    simpl in R. rewrite ?app_nil_r in R. exact R.
  - exists h. eexists. simpl. rewrite Ht10, Ht8, Ht6. reflexivity.
Qed.

Lemma process_url_success_run url output_dir st st' r :
  process_url env libs url output_dir st = (st', Ok r) ->
  r_status r = status_success ->
  exists d name body0 body1 e1 e2 e3 e4 l1 l2 l3 l4 popup b1 b2 b3 b4 b5 b6,
    driver st = Some d
    /\ sanitize_filename libs url = Ok name
    /\ r = set_screenshot_path
             (set_status (new_result url (clock env (world st))) status_success)
             (final_path output_dir name)
    /\ looked presence_of_element_located by_css selectors e1 l1
    /\ looked element_to_be_clickable by_prefix button_selectors e2 l2
    /\ looked presence_of_element_located by_prefix email_selectors e3 l3
    /\ looked element_to_be_clickable by_prefix final_submit_selectors e4 l4
    /\ ran st st'
         (success_story url output_dir name body0 body1 e1 e2 e3 e4
            l1 l2 l3 l4 popup b1 b2 b3 b4 b5 b6)
    /\ (popup = []
        \/ exists p,
             popup = [Saw (mkSighting element_to_be_clickable XPATH
                             popup_selector p);
                      Did (Clicked p)])
    /\ exists h evs0,
         trace st'
         = Logged INFO ("Screenshot saved to " ++ final_path output_dir name)
           :: Called (SaveScreenshot d (final_path output_dir name)) (Ok b6)
           :: Called (SetWindowSize d 1920 h) (Ok tt)
           :: Called (ScrollHeight d) (Ok h)
           :: evs0.
Proof.
  intros H Hs. unfold process_url in H.
  apply bind_inv in H. destruct H as (s0 & ts & H0 & H).
  unfold now in H0. injection H0 as <- <-.
  apply try_except_inv in H.
  destruct H as [H | (s1 & e & _ & _ & H)].
  2:{ rewrite bind_log in H. injection H as _ <-. discriminate Hs. }
  unfold process_url_body in H.
  apply bind_inv in H. destruct H as (s1 & [] & H1 & H).
  apply bind_inv in H. destruct H as (s2 & [e1|] & H2 & H).
  2:{ rewrite bind_log in H. injection H as _ <-. discriminate Hs. }
  apply bind_inv in H. destruct H as (s3 & [] & H3 & H).
  apply bind_inv in H. destruct H as (s4 & [e2|] & H4 & H).
  2:{ rewrite bind_log in H. injection H as _ <-. discriminate Hs. }
  apply bind_inv in H. destruct H as (s5 & [] & H5 & H).
  apply bind_inv in H. destruct H as (s6 & returned & H6 & H).
  unfold email_step in H6. apply try_except_inv in H6.
  destruct H6 as [H6 | (s & e & _ & _ & H6)].
  2:{ rewrite bind_log in H6. injection H6 as _ <-.
      injection H as _ <-. discriminate Hs. }
  unfold handle_email_form in H6.
  apply bind_inv in H6. destruct H6 as (s7 & [e3|] & H7 & H6).
  2:{ rewrite bind_log in H6. injection H6 as _ <-.
      injection H as _ <-. discriminate Hs. }
  apply bind_inv in H6. destruct H6 as (s8 & [] & H8 & H6).
  apply bind_inv in H6. destruct H6 as (s9 & [e4|] & H9 & H6).
  2:{ rewrite bind_log in H6. injection H6 as _ <-.
      injection H as _ <-. discriminate Hs. }
  apply bind_inv in H6. destruct H6 as (s10 & [] & H10 & H6).
  injection H6 as <- <-.
  apply open_page_ok in H1.
  destruct H1 as (d & name & body0 & b1 & Hd & Hname & R1).
  apply ran_locate in H2. destruct H2 as (l1 & R2 & L1).
  apply ran_locate in H4. destruct H4 as (l2 & R4 & L2).
  apply ran_locate in H7. destruct H7 as (l3 & R7 & L3).
  apply ran_locate in H9. destruct H9 as (l4 & R9 & L4).
  apply enter_url_ok in H3. destruct H3 as (n3 & b2 & Hn3 & R3).
  apply submit_url_ok in H5. destruct H5 as (n5 & b3 & Hn5 & R5).
  apply enter_email_ok in H8. destruct H8 as (n8 & b4 & Hn8 & R8).
  apply submit_email_ok in H10. destruct H10 as (n10 & b5 & Hn10 & R10).
  apply capture_results_ok in H.
  destruct H as (dc & nc & body1 & popup & b6 & Hdc & Hnc & Hr & Rc & Hpopup
                 & Hlast).
  assert (n3 = name) by congruence. assert (n5 = name) by congruence.
  assert (n8 = name) by congruence. assert (n10 = name) by congruence.
  assert (nc = name) by congruence. subst n3 n5 n8 n10 nc.
  assert (Hdrv : driver s10 = driver st).
  { destruct R1 as (D1 & _). destruct R2 as (D2 & _). destruct R3 as (D3 & _).
    destruct R4 as (D4 & _). destruct R5 as (D5 & _). destruct R7 as (D7 & _).
    destruct R8 as (D8 & _). destruct R9 as (D9 & _).
    destruct R10 as (D10 & _). congruence. }
  assert (dc = d) by congruence. subst dc.
  exists d, name, body0, body1, e1, e2, e3, e4, l1, l2, l3, l4, popup,
    b1, b2, b3, b4, b5, b6.
  split; [exact Hd | split; [exact Hname | split; [exact Hr | ]]].
  split; [exact L1 | split; [exact L2 | split; [exact L3 | ]]].
  split; [exact L4 | split; [ | split; [exact Hpopup | exact Hlast]]].
  exact (ran_trans R1
           (ran_trans R2
              (ran_trans R3
                 (ran_trans R4
                    (ran_trans R5
                       (ran_trans R7
                          (ran_trans R8
                             (ran_trans R9 (ran_trans R10 Rc))))))))).
Qed.

End SuccessPath.

Section Stories.
Local Open Scope list_scope.

Lemma story_projection {X} (of_event : event -> list X)
  (of_deed : deed -> list X) :
  (forall ev, of_event ev = flat_map of_deed (deed_of ev)) ->
  forall evs, flat_map of_event evs = flat_map of_deed (flat_map deed_of evs).
Proof.
  intros Hev evs. induction evs as [|ev evs IH]; simpl; [reflexivity | ].
  rewrite flat_map_app, Hev, IH. reflexivity.
Qed.

Lemma screenshots_story evs : screenshots evs = flat_map shot_in (story evs).
Proof.
  unfold screenshots, story. apply story_projection.
  intros [A c r | d | lvl msg]; [ | reflexivity | reflexivity].
  destruct c; try reflexivity; destruct r; reflexivity.
Qed.

Lemma navigations_story evs : navigations evs = flat_map went_in (story evs).
Proof.
  unfold navigations, story. apply story_projection.
  intros [A c r | d | lvl msg]; [ | reflexivity | reflexivity].
  destruct c; try reflexivity; destruct r; reflexivity.
Qed.

Lemma pauses_story evs : pauses evs = flat_map paused_in (story evs).
Proof.
  unfold pauses, story. apply story_projection.
  intros [A c r | d | lvl msg]; [ | reflexivity | reflexivity].
  destruct c; try reflexivity; destruct r; reflexivity.
Qed.

(** A locator loop saves nothing, goes nowhere and does not pause. *)
Lemma looked_silent cond by_of chain el ds :
  looked cond by_of chain el ds ->
  flat_map shot_in ds = [] /\ flat_map went_in ds = []
  /\ flat_map paused_in ds = [].
Proof.
  intros (Hall & _).
  induction Hall as [|d ds (sel & e & _ & ->) _ IH]; simpl.
  - repeat split.
  - exact IH.
Qed.

(** After a locator loop the most recent sighting is the one of the
    element the loop ended with, through a selector of its chain. *)
Lemma looked_attributed cond by_of chain el ds :
  looked cond by_of chain el ds ->
  exists sel,
    In sel chain
    /\ forall last rest,
         attributed last (ds ++ rest)
         = attributed (Some (mkSighting cond (by_of sel) sel el)) rest.
Proof.
  intros (Hall & Hlast).
  assert (H : forall (known : option sighting),
             match known with
             | None => True
             | Some s =>
                 exists sel, In sel chain
                             /\ s = mkSighting cond (by_of sel) sel (seen s)
             end ->
             last_seen ds (option_map seen known) = Some el ->
             exists sel,
               In sel chain
               /\ forall rest,
                    attributed known (ds ++ rest)
                    = attributed (Some (mkSighting cond (by_of sel) sel el))
                        rest).
  { clear Hlast. induction Hall as [|d ds (sel & e & Hin & ->) _ IH];
      intros known Hknown Hl.
    - destruct known as [s|]; [ | discriminate Hl].
      destruct Hknown as (sel & Hin & Hs). simpl in Hl. injection Hl as Hl.
      exists sel. split; [exact Hin | ]. intros rest. simpl.
      rewrite Hs, Hl. reflexivity.
    - simpl in Hl.
      destruct (IH (Some (mkSighting cond (by_of sel) sel e))) as (sel' & Hin' & Hr).
      + exists sel. split; [exact Hin | reflexivity].
      + exact Hl.
      + exists sel'. split; [exact Hin' | ]. intros rest. simpl. apply Hr. }
  destruct ds as [|d ds]; [discriminate Hlast | ].
  inversion Hall as [|d0 ds0 (sel & e & Hin & Hd) Hall']; subst d0 ds0.
  subst d. simpl in Hlast.
  destruct (H None I) as (sel' & Hin' & Hr).
  - simpl. exact Hlast.
  - exists sel'. split; [exact Hin' | ]. intros last rest.
    specialize (Hr rest). simpl in Hr. simpl. exact Hr.
Qed.

End Stories.

(** A Result with status success has no error, carries the URL of the
    item, and its screenshot path is the output directory joined with the
    sanitized URL and ".png": the path given to [save_screenshot] in the
    last call of the run, made on the session of [self.driver] right after
    the window was set to a width of 1920 and the height the page
    reported.  That call returned; its answer, which says whether the file
    was written, is not looked at. *)
Theorem process_url_success_screenshot_path :
  forall (W : Type) (env : Env W) (libs : Libs) (url output_dir : string)
         (st st' : state W) (r : Result),
    process_url env libs url output_dir st = (st', Ok r) ->
    r_status r = status_success ->
    exists d name h answer evs0,
      driver st = Some d
      /\ sanitize_filename libs url = Ok name
      /\ r_url r = url
      /\ r_error r = None
      /\ r_screenshot_path r = Some (final_path output_dir name)
      /\ trace st'
         = Logged INFO ("Screenshot saved to " ++ final_path output_dir name)
           :: Called (SaveScreenshot d (final_path output_dir name))
                (Ok answer)
           :: Called (SetWindowSize d 1920 h) (Ok tt)
           :: Called (ScrollHeight d) (Ok h)
           :: evs0.
Proof.
  intros W env libs url output_dir st st' r H Hs.
  destruct (process_url_success_run env libs url output_dir st st' r H Hs)
    as (d & name & body0 & body1 & e1 & e2 & e3 & e4 & l1 & l2 & l3 & l4
        & popup & b1 & b2 & b3 & b4 & b5 & b6
        & Hd & Hname & Hr & _ & _ & _ & _ & _ & _ & h & evs0 & Ht).
  subst r. exists d, name, h, b6, evs0. repeat split; assumption.
Qed.

(** The same on a page that works, in a world where no screenshot can be
    written: the item is a success all the same. *)
Lemma process_url_success_screenshot_path_witness :
  exists st' r,
    process_url disk_full_env plain_libs "http://example.com/a"
      "out/screenshots" (running 1 (page_of [] full_dom)) = (st', Ok r)
    /\ r_screenshot_path r = Some "out/screenshots/example-com-a.png"
    /\ (exists h answer evs0,
          trace st'
          = Logged INFO "Screenshot saved to out/screenshots/example-com-a.png"
            :: Called (SaveScreenshot 1 "out/screenshots/example-com-a.png")
                 (Ok answer)
            :: Called (SetWindowSize 1 1920 h) (Ok tt)
            :: Called (ScrollHeight 1) (Ok h)
            :: evs0)
    /\ map snd (screenshots (trace st'))
       = [false; false; false; false; false; false].
Proof.
  eexists. eexists.
  assert (Hrun : process_url disk_full_env plain_libs "http://example.com/a"
                   "out/screenshots" (running 1 (page_of [] full_dom))
                 = (_, Ok _)) by (vm_compute; reflexivity).
  destruct (process_url_success_screenshot_path Page disk_full_env plain_libs
              "http://example.com/a" "out/screenshots"
              (running 1 (page_of [] full_dom)) _ _ Hrun eq_refl)
    as (d & name & h & answer & evs0 & Hd & Hname & _ & _ & Hp & Ht).
  injection Hd as <-.
  assert (name = "example-com-a") by (vm_compute in Hname; congruence).
  subst name.
  split; [exact Hrun | split; [exact Hp | split]].
  - exists h, answer, evs0. exact Ht.
  - vm_compute. reflexivity.
Defined.

(** On the way to a success every element the program acts on is the one
    its lookups had returned last: the URL field, cleared and filled with
    the URL, is the element a wait on a selector of the first chain
    returned; the control clicked next is the element a wait for a
    clickable element on a selector of the second chain returned; the same
    holds for the e-mail field, filled with the fixed address, and for the
    final submit control, on the third and fourth chain.  After that there
    is at most one more action, a click on the popup that was just
    seen. *)
Theorem process_url_success_actions :
  forall (W : Type) (env : Env W) (libs : Libs) (url output_dir : string)
         (st st' : state W) (r : Result),
    process_url env libs url output_dir st = (st', Ok r) ->
    r_status r = status_success ->
    exists evs sel1 e1 sel2 e2 sel3 e3 sel4 e4 popup,
      trace st' = (evs ++ trace st)%list
      /\ In sel1 selectors
      /\ In sel2 button_selectors
      /\ In sel3 email_selectors
      /\ In sel4 final_submit_selectors
      /\ (let url_input :=
            mkSighting presence_of_element_located CSS_SELECTOR sel1 e1 in
          let submit_button :=
            mkSighting element_to_be_clickable (by_prefix sel2) sel2 e2 in
          let email_input :=
            mkSighting presence_of_element_located (by_prefix sel3) sel3 e3 in
          let final_submit :=
            mkSighting element_to_be_clickable (by_prefix sel4) sel4 e4 in
          attributed None (story evs)
          = ([(Cleared e1, Some url_input);
              (Typed e1 url, Some url_input);
              (Clicked e2, Some submit_button);
              (Cleared e3, Some email_input);
              (Typed e3 email, Some email_input);
              (Clicked e4, Some final_submit)] ++ popup)%list)
      /\ (popup = []
          \/ exists p,
               popup
               = [(Clicked p,
                   Some (mkSighting element_to_be_clickable XPATH
                           popup_selector p))]).
Proof.
  intros W env libs url output_dir st st' r H Hs.
  destruct (process_url_success_run env libs url output_dir st st' r H Hs)
    as (d & name & body0 & body1 & e1 & e2 & e3 & e4 & l1 & l2 & l3 & l4
        & popup & b1 & b2 & b3 & b4 & b5 & b6
        & _ & _ & _ & L1 & L2 & L3 & L4 & R & Hpopup & _).
  destruct R as (_ & evs & Ht & Hstory).
  destruct (looked_attributed _ _ _ _ _ L1) as (sel1 & Hin1 & A1).
  destruct (looked_attributed _ _ _ _ _ L2) as (sel2 & Hin2 & A2).
  destruct (looked_attributed _ _ _ _ _ L3) as (sel3 & Hin3 & A3).
  destruct (looked_attributed _ _ _ _ _ L4) as (sel4 & Hin4 & A4).
  exists evs, sel1, e1, sel2, e2, sel3, e3, sel4, e4.
  exists (attributed
            (Some (mkSighting presence_of_element_located TAG_NAME "body"
                     body1))
            (popup ++ [Shot (final_path output_dir name) b6])%list).
  split; [exact Ht | ].
  split; [exact Hin1 | split; [exact Hin2 | split; [exact Hin3 | ]]].
  split; [exact Hin4 | split].
  - rewrite Hstory. unfold success_story. cbn [app attributed].
    rewrite A1. cbn [app attributed]. rewrite A2. cbn [app attributed].
    rewrite A3. cbn [app attributed]. rewrite A4. cbn [app attributed].
    reflexivity.
  - destruct Hpopup as [-> | (p & ->)].
    + left. reflexivity.
    + right. exists p. reflexivity.
Qed.

Lemma process_url_success_actions_witness :
  exists evs,
    trace (fst (process_url page_env plain_libs "http://example.com/a"
                  "out/screenshots" (running 1 (page_of [] full_dom))))
    = (evs ++ [])%list
    /\ map fst (attributed None (story evs))
       = [Cleared 11; Typed 11 "http://example.com/a"; Clicked 12;
          Cleared 13; Typed 13 email; Clicked 14]
    /\ exists sel1 sel2 sel3 sel4,
         In sel1 selectors /\ In sel2 button_selectors
         /\ In sel3 email_selectors /\ In sel4 final_submit_selectors
         /\ map snd (attributed None (story evs))
            = [Some (mkSighting presence_of_element_located CSS_SELECTOR
                       sel1 11);
               Some (mkSighting presence_of_element_located CSS_SELECTOR
                       sel1 11);
               Some (mkSighting element_to_be_clickable (by_prefix sel2)
                       sel2 12);
               Some (mkSighting presence_of_element_located (by_prefix sel3)
                       sel3 13);
               Some (mkSighting presence_of_element_located (by_prefix sel3)
                       sel3 13);
               Some (mkSighting element_to_be_clickable (by_prefix sel4)
                       sel4 14)].
Proof.
  destruct (process_url_success_actions Page page_env plain_libs
              "http://example.com/a" "out/screenshots"
              (running 1 (page_of [] full_dom))
              (fst (process_url page_env plain_libs "http://example.com/a"
                      "out/screenshots" (running 1 (page_of [] full_dom))))
              (set_screenshot_path
                 (set_status
                    (new_result "http://example.com/a" "2024-01-01 00:00:00")
                    status_success)
                 "out/screenshots/example-com-a.png")
              ltac:(vm_compute; reflexivity) eq_refl)
    as (evs & sel1 & e1 & sel2 & e2 & sel3 & e3 & sel4 & e4 & popup
        & Ht & Hin1 & Hin2 & Hin3 & Hin4 & Ha & Hpopup).
  exists evs. split; [exact Ht | ].
  assert (Hacts : map fst (attributed None (story evs))
                  = [Cleared 11; Typed 11 "http://example.com/a"; Clicked 12;
                     Cleared 13; Typed 13 email; Clicked 14]).
  { rewrite app_nil_r in Ht. rewrite <- Ht. vm_compute. reflexivity. }
  split; [exact Hacts | ].
  cbv zeta in Ha. rewrite Ha in Hacts.
  assert (Hp : popup = []).
  { destruct Hpopup as [-> | (p & ->)]; [reflexivity | discriminate Hacts]. }
  subst popup. simpl in Hacts.
  injection Hacts; intros; subst e1 e2 e3 e4.
  exists sel1, sel2, sel3, sel4.
  split; [exact Hin1 | split; [exact Hin2 | split; [exact Hin3 | ]]].
  split; [exact Hin4 | ]. rewrite Ha. reflexivity.
Defined.

(** A successful item calls [save_screenshot] exactly six times, in this
    order: for the five debugging screenshots of the stages initial,
    url_entered, submitted, email_entered and final_submitted, then for the
    screenshot of the result.  Every one of these calls returned; which of
    the files were written is what the calls answered.  The browser was
    sent to one address, the one of the service, and the run paused once,
    for five seconds. *)
Theorem process_url_success_screenshots :
  forall (W : Type) (env : Env W) (libs : Libs) (url output_dir : string)
         (st st' : state W) (r : Result),
    process_url env libs url output_dir st = (st', Ok r) ->
    r_status r = status_success ->
    exists evs name b1 b2 b3 b4 b5 b6,
      trace st' = (evs ++ trace st)%list
      /\ sanitize_filename libs url = Ok name
      /\ screenshots evs
         = [(debug_path output_dir name "initial", b1);
            (debug_path output_dir name "url_entered", b2);
            (debug_path output_dir name "submitted", b3);
            (debug_path output_dir name "email_entered", b4);
            (debug_path output_dir name "final_submitted", b5);
            (final_path output_dir name, b6)]
      /\ navigations evs = [base_url]
      /\ pauses evs = [5].
Proof.
  intros W env libs url output_dir st st' r H Hs.
  destruct (process_url_success_run env libs url output_dir st st' r H Hs)
    as (d & name & body0 & body1 & e1 & e2 & e3 & e4 & l1 & l2 & l3 & l4
        & popup & b1 & b2 & b3 & b4 & b5 & b6
        & _ & Hname & _ & L1 & L2 & L3 & L4 & R & Hpopup & _).
  destruct R as (_ & evs & Ht & Hstory).
  destruct (looked_silent _ _ _ _ _ L1) as (S1 & G1 & P1).
  destruct (looked_silent _ _ _ _ _ L2) as (S2 & G2 & P2).
  destruct (looked_silent _ _ _ _ _ L3) as (S3 & G3 & P3).
  destruct (looked_silent _ _ _ _ _ L4) as (S4 & G4 & P4).
  assert (Hquiet : flat_map shot_in popup = [] /\ flat_map went_in popup = []
                   /\ flat_map paused_in popup = []).
  { destruct Hpopup as [-> | (p & ->)]; repeat split. }
  destruct Hquiet as (S5 & G5 & P5).
  exists evs, name, b1, b2, b3, b4, b5, b6.
  split; [exact Ht | split; [exact Hname | ]].
  rewrite screenshots_story, navigations_story, pauses_story, Hstory.
  unfold success_story. rewrite !flat_map_app.
  rewrite S1, S2, S3, S4, S5, G1, G2, G3, G4, G5, P1, P2, P3, P4, P5.
  repeat split.
Qed.

Lemma process_url_success_screenshots_witness :
  exists evs,
    trace (fst (process_url page_env plain_libs "http://example.com/a"
                  "out/screenshots" (running 1 (page_of [] full_dom))))
    = (evs ++ [])%list
    /\ screenshots evs
       = [ ("out/screenshots/debug_example-com-a_initial.png", true);
           ("out/screenshots/debug_example-com-a_url_entered.png", true);
           ("out/screenshots/debug_example-com-a_submitted.png", true);
           ("out/screenshots/debug_example-com-a_email_entered.png", true);
           ("out/screenshots/debug_example-com-a_final_submitted.png", true);
           ("out/screenshots/example-com-a.png", true) ]
    /\ navigations evs = [base_url]
    /\ pauses evs = [5].
Proof.
  destruct (process_url_success_screenshots Page page_env plain_libs
              "http://example.com/a" "out/screenshots"
              (running 1 (page_of [] full_dom))
              (fst (process_url page_env plain_libs "http://example.com/a"
                      "out/screenshots" (running 1 (page_of [] full_dom))))
              (set_screenshot_path
                 (set_status
                    (new_result "http://example.com/a" "2024-01-01 00:00:00")
                    status_success)
                 "out/screenshots/example-com-a.png")
              ltac:(vm_compute; reflexivity) eq_refl)
    as (evs & name & b1 & b2 & b3 & b4 & b5 & b6 & Ht & Hname & Hs & Hn & Hp).
  exists evs. split; [exact Ht | ].
  split; [ | split; [exact Hn | exact Hp]].
  assert (name = "example-com-a") by (vm_compute in Hname; congruence).
  subst name.
  assert (Hb : map snd (screenshots evs) = [true; true; true; true; true; true]).
  { rewrite app_nil_r in Ht. rewrite <- Ht. vm_compute. reflexivity. }
  rewrite Hs in Hb. simpl in Hb. injection Hb as -> -> -> -> -> ->.
  rewrite Hs. reflexivity.
Defined.


(** ** A batch that returns, step by step *)

Section BatchRun.
Context {W : Type}.
Variable env : Env W.
Variable libs : Libs.
Local Open Scope list_scope.

Lemma try_finally_inv {A} (m : M W A) (f : M W unit) st st' v :
  try_finally m f st = (st', Ok v) ->
  exists st1, m st = (st1, Ok v) /\ f st1 = (st', Ok tt).
Proof.
  unfold try_finally. destruct (m st) as [st1 r].
  destruct (f st1) as [st2 [[]|e]] eqn:Hf; intros H; [ | discriminate H].
  injection H as <- ->. exists st1. split; [reflexivity | exact Hf].
Qed.

(** The steps of a run of [process_csv] that returns for a list of URLs
    that is not empty. *)
Lemma process_csv_return_run csv_path output_dir st st' successful failed :
  process_csv env libs csv_path output_dir st
  = (st', Ok (successful, failed)) ->
  exists st1 df,
    call_ env (Mkdir (path_join output_dir "screenshots")) st = (st1, Ok tt)
    /\ exists st2,
         call_ env (ReadCsv csv_path) st1 = (st2, Ok df)
         /\ (first_column df <> [] ->
             exists st3 st4 st5 st6 results,
               setup_driver env
                 (record (Logged INFO
                            ("Found " ++ str_nat (length (first_column df))
                             ++ " URLs to process")) st2)
               = (st3, Ok tt)
               /\ for_url_in env libs (first_column df)
                    (path_join output_dir "screenshots") [] [] [] st3
                  = (st4, Ok (results, successful, failed))
               /\ call_ env (ToCsv (path_join output_dir "results.csv") results)
                    st4 = (st5, Ok tt)
               /\ driver st6 = driver st5
               /\ (exists l1 l2 l3 l4,
                     trace st6 = [Logged INFO l4; Logged INFO l3;
                                  Logged INFO l2; Logged INFO l1]
                                 ++ trace st5)
               /\ cleanup env st6 = (st', Ok tt))
         /\ (first_column df = [] ->
             successful = [] /\ failed = []
             /\ cleanup env
                  (record (Logged WARNING "No URLs found in the CSV file") st2)
                = (st', Ok tt)).
Proof.
  intros H. unfold process_csv in H.
  apply bind_inv in H. destruct H as (st1 & [] & H1 & H).
  apply try_finally_inv in H. destruct H as (s & H & Hc).
  apply try_except_inv in H. destruct H as [H | (s1 & e & _ & _ & H)].
  2:{ rewrite bind_log in H. discriminate H. }
  unfold process_csv_body in H.
  apply bind_inv in H. destruct H as (st2 & df & H2 & H).
  exists st1, df. split; [exact H1 | ]. exists st2. split; [exact H2 | ].
  destruct (Nat.eqb (shape1 df) 0).
  { rewrite bind_log in H. discriminate H. }
  destruct (first_column df) as [|u us] eqn:Hcol.
  { rewrite bind_log in H. injection H as <- <- <-.
    split; [intros Hne; contradiction Hne; reflexivity | ].
    intros _. repeat split. exact Hc. }
  split; [intros _ | intros Habs; discriminate Habs].
  rewrite bind_log in H.
  apply bind_inv in H. destruct H as (st3 & [] & H3 & H).
  apply bind_inv in H. destruct H as (st4 & [[results ss] fs] & H4 & H).
  apply bind_inv in H. destruct H as (st5 & [] & H5 & H).
  rewrite !bind_log in H. injection H as <- <- <-.
  eexists st3, st4, st5, _, results.
  split; [exact H3 | split; [exact H4 | split; [exact H5 | ]]].
  split; [ | split; [ | exact Hc]].
  - reflexivity.
  - eexists. eexists. eexists. eexists. reflexivity.
Qed.

(** Between two items the loop pauses for two seconds, once per item; the
    items themselves pause for five seconds only. *)
Lemma for_url_in_pacing urls screenshots_dir :
  forall results successful failed st st' acc,
    for_url_in env libs urls screenshots_dir results successful failed st
    = (st', Ok acc) ->
    exists evs,
      trace st' = evs ++ trace st
      /\ filter (Nat.eqb 2) (pauses evs) = repeat 2 (length urls)
      /\ Forall (fun secs => secs = 2 \/ secs = 5) (pauses evs).
Proof.
  induction urls as [|url rest IH]; intros results successful failed st st' acc H.
  - simpl in H. injection H as <- _. exists []. repeat split. constructor.
  - simpl in H.
    apply bind_inv in H. destruct H as (s1 & r & H1 & H).
    apply bind_inv in H. destruct H as (s2 & [] & H2 & H).
    apply IH in H. destruct H as (evs3 & Ht3 & Hp3 & Hf3).
    destruct (workflow_process_url env libs url screenshots_dir st)
      as (_ & _ & evs1 & Ht1 & Hw1).
    rewrite H1 in Ht1. simpl in Ht1.
    destruct (workflow_events_footprint url evs1 Hw1) as (_ & _ & Hp1 & _).
    apply call_inv in H2. destruct H2 as (_ & Ht2).
    exists (evs3 ++ Called (Sleep 2) (Ok tt) :: evs1).
    split; [rewrite Ht3, Ht2, Ht1, <- app_assoc; reflexivity | ].
    rewrite pauses_app.
    change (Called (Sleep 2) (Ok tt) :: evs1)
      with ([Called (Sleep 2) (Ok tt)] ++ evs1).
    rewrite pauses_app, !filter_app, Hp3.
    assert (H2s : filter (Nat.eqb 2) (pauses evs1) = []).
    { clear - Hp1. induction Hp1 as [|x l Hx Hl IHl]; simpl; [reflexivity | ].
      subst x. simpl. exact IHl. }
    rewrite H2s. split; [reflexivity | ].
    apply Forall_app. split; [apply Forall_app; split | exact Hf3].
    + eapply Forall_impl; [ | exact Hp1]. intros a Ha. right. exact Ha.
    + constructor; [left; reflexivity | constructor].
Qed.

Lemma setup_driver_ok_inv (st st3 : state W) :
  setup_driver env st = (st3, Ok tt) ->
  exists d,
    driver st3 = Some d
    /\ trace st3
       = [Logged INFO "WebDriver setup complete";
          Called (SetPageLoadTimeout d 60) (Ok tt);
          Called (NewChrome (chrome_arguments (headless st))) (Ok d);
          Logged INFO "Using Homebrew-installed chromedriver";
          Logged INFO "Setting up WebDriver..."] ++ trace st.
Proof.
  unfold setup_driver, bind, log, get_headless, try_except, call_; simpl.
  change ((if headless st then ["--headless"] else []) ++
          ["--disable-gpu"; "--window-size=1920,1080"; "--no-sandbox";
           "--disable-dev-shm-usage"])
    with (chrome_arguments (headless st)).
  destruct (respond env (NewChrome _) (world st)) as [w1 [d|e]]; simpl.
  - destruct (respond env (SetPageLoadTimeout d 60) w1) as [w2 [[]|e]]; simpl.
    + intros H. injection H as <-. exists d. split; reflexivity.
    + destruct (is_WebDriverException e); intros H; discriminate H.
  - destruct (is_WebDriverException e); intros H; discriminate H.
Qed.

Lemma call_headless {A} (c : call A) (st st1 : state W) r :
  call_ env c st = (st1, r) -> headless st1 = headless st.
Proof.
  unfold call_. destruct (respond env c (world st)) as [w r1].
  intros H. injection H as <- _. reflexivity.
Qed.

Lemma item_events_no_setup evs :
  forallb is_item_event evs = true ->
  chrome_requests evs = [] /\ page_load_timeouts evs = [].
Proof.
  intros H. rewrite forallb_forall in H.
  unfold chrome_requests, page_load_timeouts.
  split; apply flat_map_nil; intros ev Hev; specialize (H ev Hev);
    destruct ev as [A c r | d | lvl msg]; [destruct c | | | destruct c | | ];
    simpl in H; try discriminate H; reflexivity.
Qed.

(** The events of a run of [process_csv] that returns. *)
Lemma process_csv_return_events csv_path output_dir st st' successful failed :
  process_csv env libs csv_path output_dir st
  = (st', Ok (successful, failed)) ->
  exists evs df,
    trace st' = evs ++ trace st
    /\ csv_read evs = [df]
    /\ (first_column df <> [] ->
        exists d evs0,
          evs = Quit d :: Logged INFO "Closing WebDriver..." :: evs0
          /\ opened evs = [d]
          /\ quitted evs = [d]
          /\ chrome_requests evs = [chrome_arguments (headless st)]
          /\ page_load_timeouts evs = [(d, 60)]
          /\ filter (Nat.eqb 2) (pauses evs)
             = repeat 2 (length (first_column df))
          /\ Forall (fun secs => secs = 2 \/ secs = 5) (pauses evs)).
Proof.
  intros H. apply process_csv_return_run in H.
  destruct H as (st1 & df & H1 & st2 & H2 & Hrun & Hempty).
  assert (Hh : headless st2 = headless st).
  { rewrite (call_headless _ _ _ _ H2). apply (call_headless _ _ _ _ H1). }
  apply call_inv in H1. destruct H1 as (Hd1 & Ht1).
  apply call_inv in H2. destruct H2 as (Hd2 & Ht2).
  destruct (first_column df) as [|u us] eqn:Hcol.
  - destruct (Hempty eq_refl) as (_ & _ & Hc).
    rewrite cleanup_spec in Hc. cbn [driver record] in Hc.
    destruct (driver st2) as [d|]; injection Hc as <-; simpl;
      rewrite Ht2, Ht1;
      [ exists [Quit d; Logged INFO "Closing WebDriver...";
                Logged WARNING "No URLs found in the CSV file";
                Called (ReadCsv csv_path) (Ok df);
                Called (Mkdir (path_join output_dir "screenshots")) (Ok tt)], df
      | exists [Logged WARNING "No URLs found in the CSV file";
                Called (ReadCsv csv_path) (Ok df);
                Called (Mkdir (path_join output_dir "screenshots")) (Ok tt)], df ];
      (split; [reflexivity | ]);
      (split; [reflexivity | intros Hne; contradiction Hne; reflexivity]).
  - clear Hempty.
    destruct (Hrun ltac:(discriminate))
      as (st3 & st4 & st5 & st6 & results & H3 & H4 & H5 & Hd6
          & (l1 & l2 & l3 & l4 & Ht6) & Hc).
    apply setup_driver_ok_inv in H3. destruct H3 as (d & Hd3 & Ht3).
    cbn [headless trace record] in Ht3. rewrite Hh in Ht3.
    destruct (for_url_in_pacing _ _ _ _ _ _ _ _ H4) as (evs4 & Ht4 & Hp4 & Hf4).
    apply for_url_in_spec in H4.
    destruct H4 as (Hd4 & (evs4' & Ht4' & Hi4) & _).
    assert (evs4' = evs4).
    { rewrite Ht4 in Ht4'. apply app_inv_tail in Ht4'. symmetry. exact Ht4'. }
    subst evs4'.
    destruct (item_events_batch_free evs4 Hi4) as (Ho4 & Hq4 & Hr4 & _ & _).
    destruct (item_events_no_setup evs4 Hi4) as (Hc4 & Hl4).
    apply call_inv in H5. destruct H5 as (Hd5 & Ht5).
    rewrite cleanup_spec in Hc.
    assert (Hdrv : driver st6 = Some d) by congruence.
    rewrite Hdrv in Hc. injection Hc as <-. cbn [trace].
    rewrite Ht6, Ht5, Ht4, Ht3, Ht2, Ht1.
    exists ([Quit d; Logged INFO "Closing WebDriver..."]
            ++ [Logged INFO l4; Logged INFO l3; Logged INFO l2; Logged INFO l1;
                Called (ToCsv (path_join output_dir "results.csv") results)
                  (Ok tt)]
            ++ evs4
            ++ [Logged INFO "WebDriver setup complete";
                Called (SetPageLoadTimeout d 60) (Ok tt);
                Called (NewChrome (chrome_arguments (headless st))) (Ok d);
                Logged INFO "Using Homebrew-installed chromedriver";
                Logged INFO "Setting up WebDriver..."]
            ++ [Logged INFO
                  ("Found " ++ str_nat (length (u :: us))
                   ++ " URLs to process");
                Called (ReadCsv csv_path) (Ok df);
                Called (Mkdir (path_join output_dir "screenshots")) (Ok tt)]),
      df.
    split; [simpl; rewrite <- !app_assoc; reflexivity | ].
    unfold csv_read, opened, quitted, chrome_requests, page_load_timeouts in *.
    rewrite !flat_map_app, Hr4, Ho4, Hq4, Hc4, Hl4, Hcol.
    split; [reflexivity | ].
    intros _. exists d. eexists. split; [reflexivity | ].
    split; [reflexivity | split; [reflexivity | ]].
    split; [reflexivity | split; [reflexivity | ]].
    rewrite !pauses_app, !filter_app, Hp4.
    split; [simpl; repeat rewrite app_nil_r; reflexivity | ].
    repeat (apply Forall_app; split); try exact Hf4; simpl;
      repeat constructor.
Qed.

End BatchRun.

(** A batch that returns for a list of URLs that is not empty used one
    browser session: Chrome was asked for once, with the page load timeout
    of 60 seconds set on the session it gave, and quitting that session is
    the last thing the run did, after the manifest was written. *)
Theorem process_csv_one_session :
  forall (W : Type) (env : Env W) (libs : Libs) (csv_path output_dir : string)
         (st st' : state W) (successful failed : list string),
    process_csv env libs csv_path output_dir st
    = (st', Ok (successful, failed)) ->
    exists evs df,
      trace st' = (evs ++ trace st)%list
      /\ csv_read evs = [df]
      /\ (first_column df <> [] ->
          exists d evs0,
            evs = Quit d :: Logged INFO "Closing WebDriver..." :: evs0
            /\ opened evs = [d]
            /\ quitted evs = [d]
            /\ chrome_requests evs = [chrome_arguments (headless st)]
            /\ page_load_timeouts evs = [(d, 60)]).
Proof.
  intros W env libs csv_path output_dir st st' successful failed H.
  destruct (process_csv_return_events env libs _ _ _ _ _ _ H)
    as (evs & df & Ht & Hr & Hne).
  exists evs, df. split; [exact Ht | split; [exact Hr | ]].
  intros Hcol. destruct (Hne Hcol) as (d & evs0 & He & Ho & Hq & Hc & Hl & _).
  exists d, evs0. repeat split; assumption.
Qed.

Lemma process_csv_one_session_witness :
  exists evs evs0,
    trace (fst (process_csv page_env plain_libs "urls.csv" "out"
                  (fresh mixed_page)))
    = (evs ++ [])%list
    /\ evs = Quit 1 :: Logged INFO "Closing WebDriver..." :: evs0
    /\ opened evs = [1]
    /\ quitted evs = [1]
    /\ chrome_requests evs = [chrome_arguments true]
    /\ page_load_timeouts evs = [(1, 60)].
Proof.
  destruct (process_csv_one_session Page page_env plain_libs "urls.csv" "out"
              (fresh mixed_page)
              (fst (process_csv page_env plain_libs "urls.csv" "out"
                      (fresh mixed_page)))
              ["example.com"] ["bad.invalid"] ltac:(vm_compute; reflexivity))
    as (evs & df & Ht & Hr & Hne).
  assert (Hcol : first_column df <> []).
  { rewrite app_nil_r in Ht. rewrite <- Ht in Hr. vm_compute in Hr.
    injection Hr as <-. discriminate. }
  destruct (Hne Hcol) as (d & evs0 & He & Ho & Hq & Hc & Hl).
  assert (Hd : d = 1).
  { rewrite app_nil_r in Ht. rewrite <- Ht in Ho. vm_compute in Ho.
    injection Ho as <-. reflexivity. }
  subst d. exists evs, evs0. repeat split; assumption.
Defined.

(** A batch that returns for N URLs paused for two seconds exactly N
    times, once after each item; its only other pauses are those of five
    seconds the items make while waiting for the audit. *)
Theorem process_csv_pacing :
  forall (W : Type) (env : Env W) (libs : Libs) (csv_path output_dir : string)
         (st st' : state W) (successful failed : list string),
    process_csv env libs csv_path output_dir st
    = (st', Ok (successful, failed)) ->
    exists evs df,
      trace st' = (evs ++ trace st)%list
      /\ csv_read evs = [df]
      /\ (first_column df <> [] ->
          filter (Nat.eqb 2) (pauses evs)
          = repeat 2 (length (first_column df))
          /\ Forall (fun secs => secs = 2 \/ secs = 5) (pauses evs)).
Proof.
  intros W env libs csv_path output_dir st st' successful failed H.
  destruct (process_csv_return_events env libs _ _ _ _ _ _ H)
    as (evs & df & Ht & Hr & Hne).
  exists evs, df. split; [exact Ht | split; [exact Hr | ]].
  intros Hcol. destruct (Hne Hcol) as (d & evs0 & _ & _ & _ & _ & _ & Hp & Hf).
  split; assumption.
Qed.

Lemma process_csv_pacing_witness :
  exists evs,
    trace (fst (process_csv page_env plain_libs "urls.csv" "out"
                  (fresh mixed_page)))
    = (evs ++ [])%list
    /\ filter (Nat.eqb 2) (pauses evs) = [2; 2]
    /\ Forall (fun secs => secs = 2 \/ secs = 5) (pauses evs).
Proof.
  destruct (process_csv_pacing Page page_env plain_libs "urls.csv" "out"
              (fresh mixed_page)
              (fst (process_csv page_env plain_libs "urls.csv" "out"
                      (fresh mixed_page)))
              ["example.com"] ["bad.invalid"] ltac:(vm_compute; reflexivity))
    as (evs & df & Ht & Hr & Hne).
  assert (Hdf : first_column df = ["example.com"; "bad.invalid"]).
  { rewrite app_nil_r in Ht. rewrite <- Ht in Hr. vm_compute in Hr.
    injection Hr as <-. reflexivity. }
  assert (Hcol : first_column df <> []).
  { rewrite Hdf. discriminate. }
  destruct (Hne Hcol) as (Hp & Hf).
  rewrite Hdf in Hp. exists evs. repeat split; assumption.
Defined.
